(** * poolcore block maker for Bitcoin-like chains: [blockmaker/btcLike.h]

    A shallow embedding of the block-template assembler of
    [src/include/blockmaker/btcLike.h] and of the statements made about it.

    Conventions of the embedding.
    - Fixed-width integers are [Z] with the wrap-around written out
      ([wrap64] for [int64_t], [trunc32] for [uint32_t]/[unsigned]).
    - [xmstream] is the list of bytes written so far; [write] and [reserve]
      append, [reset] empties.
    - [rapidjson::Value] is the inductive [Value]; an access that rapidjson
      guards with an assertion ([GetString] on a non-string) has no normal
      return and is [None].
    - [std::unordered_map<uint256, size_t>] is a [gmap Z nat]; arrays and
      vectors are lists read with [!!] and updated with [<[ _ := _ ]>].
    - [double] is the kernel's binary64 [float].
    - The fan-in helper [MultiCall<T>] is a record run over the
      interleavings of the accesses its callbacks make to it: the store,
      the atomic increment and the read of [TotalCallsNum]. *)

From Stdlib Require Import ZArith List Strings.String Strings.Ascii Strings.Byte.
From Stdlib Require Import Floats Uint63 Lia Bool.
From stdpp Require Import base option list gmap.

Open Scope Z_scope.

(** ** Machine integers *)

Definition wrap64 (z : Z) : Z := (z + 2 ^ 63) mod 2 ^ 64 - 2 ^ 63.
Definition trunc32 (z : Z) : Z := z mod 2 ^ 32.
Definition trunc64 (z : Z) : Z := z mod 2 ^ 64.
Definition inInt64 (z : Z) : Prop := - 2 ^ 63 <= z < 2 ^ 63.

(** [a -= b] on [int64_t]. *)
Definition sub64 (a b : Z) : Z := wrap64 (a - b).

(** ** Bytes, little-endian integers, hexadecimal text *)

Definition byteOfZ (z : Z) : byte :=
  match Byte.of_N (Z.to_N (z mod 256)) with
  | Some b => b
  | None => x00
  end.

Definition ZOfByte (b : byte) : Z := Z.of_N (Byte.to_N b).

(** [n] bytes of [z], least significant first. *)
Fixpoint leBytes (n : nat) (z : Z) : list byte :=
  match n with
  | O => []
  | S n' => byteOfZ z :: leBytes n' (z / 256)
  end.

Fixpoint leValue (bs : list byte) : Z :=
  match bs with
  | [] => 0
  | b :: bs' => ZOfByte b + 256 * leValue bs'
  end.

Definition bytesOfString (s : string) : list byte :=
  map byte_of_ascii (list_ascii_of_string s).

Definition asciiOfZ (z : Z) : ascii := ascii_of_N (Z.to_N z).
Definition ZOfAscii (c : ascii) : Z := Z.of_N (N_of_ascii c).

Definition hexDigitValue (c : ascii) : option Z :=
  let n := ZOfAscii c in
  if (48 <=? n) && (n <=? 57) then Some (n - 48)
  else if (97 <=? n) && (n <=? 102) then Some (n - 87)
  else if (65 <=? n) && (n <=? 70) then Some (n - 55)
  else None.

Definition lowerHexDigit (v : Z) : ascii :=
  if v <? 10 then asciiOfZ (48 + v) else asciiOfZ (87 + v).

(** Modelled from the spec: [bin2hexLowerCase] is declared outside the
    sources; section 4.B fixes lowercase hexadecimal, two digits per byte,
    high nibble first. *)
Fixpoint bin2hexLowerCase (bs : list byte) : string :=
  match bs with
  | [] => EmptyString
  | b :: bs' =>
      String (lowerHexDigit (ZOfByte b / 16))
        (String (lowerHexDigit (ZOfByte b mod 16)) (bin2hexLowerCase bs'))
  end.

(** Modelled from the spec: [hex2bin] is declared outside the sources;
    section 4.B has hex to binary with an even-length input.  The caller
    passes [size / 2] as the output length, so a trailing odd digit is not
    read; a character that is no hexadecimal digit counts as zero. *)
Fixpoint hex2binChars (cs : list ascii) : list byte :=
  match cs with
  | hi :: lo :: cs' =>
      byteOfZ (16 * default 0 (hexDigitValue hi) + default 0 (hexDigitValue lo))
        :: hex2binChars cs'
  | _ => []
  end.

Definition hex2bin (s : string) : list byte :=
  hex2binChars (list_ascii_of_string s).

(** ** uint256 *)

(** A 256-bit value; its 32 bytes in memory are [leBytes 32]. *)
Definition uint256 := Z.

Definition SetNull : uint256 := 0.

Definition isSpace (c : ascii) : bool :=
  let n := ZOfAscii c in (n =? 32) || ((9 <=? n) && (n <=? 13)).

Fixpoint skipSpace (cs : list ascii) : list ascii :=
  match cs with
  | c :: cs' => if isSpace c then skipSpace cs' else cs
  | [] => []
  end.

Definition skip0x (cs : list ascii) : list ascii :=
  match cs with
  | c0 :: c1 :: cs' =>
      if (ZOfAscii c0 =? 48) && ((ZOfAscii c1 =? 120) || (ZOfAscii c1 =? 88))
      then cs' else cs
  | _ => cs
  end.

(** Value of the longest prefix of hexadecimal digits, most significant
    digit first. *)
Fixpoint hexPrefixValue (acc : Z) (cs : list ascii) : Z :=
  match cs with
  | c :: cs' =>
      match hexDigitValue c with
      | Some v => hexPrefixValue (16 * acc + v) cs'
      | None => acc
      end
  | [] => acc
  end.

(** Modelled from the spec: [uint256::SetHex] is declared outside the
    sources; section 3 has the hex form in reversed byte order, that is the
    number written most significant digit first.  Leading blanks and a [0x]
    prefix are skipped and only the last 64 digits are kept. *)
Definition SetHex (s : string) : uint256 :=
  hexPrefixValue 0 (skip0x (skipSpace (list_ascii_of_string s))) mod 2 ^ 256.

(** Modelled from the spec: [uint256::GetHex], 64 lowercase digits, most
    significant first. *)
Definition GetHex (h : uint256) : string :=
  bin2hexLowerCase (rev (leBytes 32 h)).

(** ** CompactSize *)

(** Modelled from the spec: [serializeVarSize] (section 4.B CompactSize) on
    a [uint64_t]. *)
Definition serializeVarSize (n : Z) : list byte :=
  let n := trunc64 n in
  if n <? 253 then [byteOfZ n]
  else if n <=? 65535 then byteOfZ 253 :: leBytes 2 n
  else if n <=? 4294967295 then byteOfZ 254 :: leBytes 4 n
  else byteOfZ 255 :: leBytes 8 n.

Definition serializedVarSizeLength (n : Z) : nat := length (serializeVarSize n).

(** ** rapidjson values *)

#[local] Set Warnings "-register-all".

(** A JSON value as rapidjson holds it.  [JInt] is a number stored as an
    integer (rapidjson stores integers from [-2^63] up to [2^64 - 1] so);
    [JDouble] is any other number, its value does not matter here. *)
Inductive Value : Type :=
| JNull
| JBool (b : bool)
| JInt (z : Z)
| JDouble
| JString (s : string)
| JArray (items : list Value)
| JObject (members : list (string * Value)).

Definition IsObject (v : Value) : bool :=
  match v with JObject _ => true | _ => false end.
Definition IsArray (v : Value) : bool :=
  match v with JArray _ => true | _ => false end.
Definition IsString (v : Value) : bool :=
  match v with JString _ => true | _ => false end.
Definition IsInt64 (v : Value) : bool :=
  match v with JInt z => (- 2 ^ 63 <=? z) && (z <? 2 ^ 63) | _ => false end.
Definition IsUint64 (v : Value) : bool :=
  match v with JInt z => (0 <=? z) && (z <? 2 ^ 64) | _ => false end.
Definition IsUint (v : Value) : bool :=
  match v with JInt z => (0 <=? z) && (z <? 2 ^ 32) | _ => false end.

(** [FindMember]: the first member of that name. *)
Fixpoint findMember (name : string) (ms : list (string * Value)) : option Value :=
  match ms with
  | [] => None
  | (k, v) :: ms' => if String.eqb k name then Some v else findMember name ms'
  end.

(** [v[name]] on an object; [None] when there is no such member. *)
Definition member (v : Value) (name : string) : option Value :=
  match v with
  | JObject ms => findMember name ms
  | _ => None
  end.

Definition HasMember (v : Value) (name : string) : bool :=
  match member v name with Some _ => true | None => false end.

(** [HasMember(name) && v[name].IsT()] *)
Definition hasTyped (v : Value) (name : string) (isT : Value -> bool) : bool :=
  match member v name with Some x => isT x | None => false end.

(** ** Transactions and their serialization (section 3 of the design) *)

Record TxIn := mkTxIn {
  previousOutputHash : uint256;
  previousOutputIndex : Z;
  scriptSig : list byte;
  sequence : Z;
  witnessStack : list (list byte)
}.

Record TxOut := mkTxOut {
  value : Z;
  pkScript : list byte
}.

Record Transaction := mkTransaction {
  version : Z;
  txIn : list TxIn;
  txOut : list TxOut;
  lockTime : Z
}.

Definition serializeBytes (bs : list byte) : list byte :=
  serializeVarSize (Z.of_nat (length bs)) ++ bs.

Definition serializeTxIn (i : TxIn) : list byte :=
  leBytes 32 (previousOutputHash i) ++ leBytes 4 (previousOutputIndex i)
    ++ serializeBytes (scriptSig i) ++ leBytes 4 (sequence i).

Definition serializeTxOut (o : TxOut) : list byte :=
  leBytes 8 (value o) ++ serializeBytes (pkScript o).

Definition serializeWitnessStack (i : TxIn) : list byte :=
  serializeVarSize (Z.of_nat (length (witnessStack i)))
    ++ concat (map serializeBytes (witnessStack i)).

(** Modelled from the spec: [BTC::Io<Transaction>::serialize] is declared
    outside the sources; section 3 gives the legacy and the witness form.
    The bytes are those appended to the stream. *)
Definition serializeTx (tx : Transaction) (serializeWitness : bool) : list byte :=
  leBytes 4 (version tx)
    ++ (if serializeWitness then [byteOfZ 0; byteOfZ 1] else [])
    ++ serializeVarSize (Z.of_nat (length (txIn tx)))
    ++ concat (map serializeTxIn (txIn tx))
    ++ serializeVarSize (Z.of_nat (length (txOut tx)))
    ++ concat (map serializeTxOut (txOut tx))
    ++ (if serializeWitness then concat (map serializeWitnessStack (txIn tx)) else [])
    ++ leBytes 4 (lockTime tx).

(** Modelled from the spec: [Transaction::getFirstScriptSigOffset] is
    declared outside the sources; section 4.C has it return the position of
    the first input's scriptSig content, after its CompactSize length prefix,
    in the requested form.  It reads the transaction it is called on. *)
Definition getFirstScriptSigOffset (tx : Transaction) (serializeWitness : bool) : nat :=
  (4 + (if serializeWitness then 2 else 0)
   + serializedVarSizeLength (Z.of_nat (length (txIn tx)))
   + 32 + 4
   + match txIn tx with
     | i :: _ => serializedVarSizeLength (Z.of_nat (length (scriptSig i)))
     | [] => 0
     end)%nat.

(** *** Reading a transaction back *)

(** A reader consumes a prefix of the stream; [None] is the stream's [eof]
    flag (a read past the end). *)
Definition reader (A : Type) := list byte -> option (A * list byte).

Definition readBytes (n : nat) : reader (list byte) :=
  fun bs => if (n <=? length bs)%nat then Some (take n bs, drop n bs) else None.

Definition readLe (n : nat) : reader Z :=
  fun bs => match readBytes n bs with
            | Some (x, rest) => Some (leValue x, rest)
            | None => None
            end.

Definition readVarSize : reader Z :=
  fun bs =>
    match readLe 1 bs with
    | Some (t, rest) =>
        if t <? 253 then Some (t, rest)
        else if t =? 253 then readLe 2 rest
        else if t =? 254 then readLe 4 rest
        else readLe 8 rest
    | None => None
    end.

Definition readVarBytes : reader (list byte) :=
  fun bs =>
    match readVarSize bs with
    | Some (n, rest) =>
        if n <=? Z.of_nat (length rest) then readBytes (Z.to_nat n) rest else None
    | None => None
    end.

(** [n] items in a row; [fuel] bounds the items by the bytes at hand, each
    item taking at least one. *)
Fixpoint readMany {A} (r : reader A) (fuel : nat) (n : Z) : reader (list A) :=
  fun bs =>
    if n <=? 0 then Some ([], bs)
    else match fuel with
         | O => None
         | S fuel' =>
             match r bs with
             | Some (x, rest) =>
                 match readMany r fuel' (n - 1) rest with
                 | Some (xs, rest') => Some (x :: xs, rest')
                 | None => None
                 end
             | None => None
             end
         end.

Definition readVector {A} (r : reader A) : reader (list A) :=
  fun bs =>
    match readVarSize bs with
    | Some (n, rest) => readMany r (length rest) n rest
    | None => None
    end.

Definition readTxIn : reader TxIn :=
  fun bs =>
    match readLe 32 bs with
    | Some (h, r1) =>
        match readLe 4 r1 with
        | Some (idx, r2) =>
            match readVarBytes r2 with
            | Some (sig, r3) =>
                match readLe 4 r3 with
                | Some (sq, r4) => Some (mkTxIn h idx sig sq [], r4)
                | None => None
                end
            | None => None
            end
        | None => None
        end
    | None => None
    end.

Definition readTxOut : reader TxOut :=
  fun bs =>
    match readLe 8 bs with
    | Some (v, r1) =>
        match readVarBytes r1 with
        | Some (pk, r2) => Some (mkTxOut (wrap64 v) pk, r2)
        | None => None
        end
    | None => None
    end.

(** The witness stacks follow the outputs, one per input. *)
Fixpoint readWitnesses (ins : list TxIn) : reader (list TxIn) :=
  fun bs =>
    match ins with
    | [] => Some ([], bs)
    | i :: ins' =>
        match readVector readVarBytes bs with
        | Some (st, rest) =>
            match readWitnesses ins' rest with
            | Some (ins'', rest') =>
                Some (mkTxIn (previousOutputHash i) (previousOutputIndex i)
                        (scriptSig i) (sequence i) st :: ins'', rest')
            | None => None
            end
        | None => None
        end
    end.

Definition readTxBody (witness : bool) (ver : Z) : reader Transaction :=
  fun bs =>
    match readVector readTxIn bs with
    | Some (ins, r1) =>
        match readVector readTxOut r1 with
        | Some (outs, r2) =>
            match (if witness then readWitnesses ins r2 else Some (ins, r2)) with
            | Some (ins', r3) =>
                match readLe 4 r3 with
                | Some (lt, r4) => Some (mkTransaction ver ins' outs lt, r4)
                | None => None
                end
            | None => None
            end
        | None => None
        end
    | None => None
    end.

(** Modelled from the spec: [BTC::unserialize] for a transaction is declared
    outside the sources; it reads either form of section 3, the witness form
    being told by the [0x00 0x01] marker after the version.  The result is
    the transaction read and the bytes left in the stream. *)
Definition unserializeTx : reader Transaction :=
  fun bs =>
    match readLe 4 bs with
    | Some (ver, r1) =>
        match r1 with
        | m :: f :: r2 =>
            if (ZOfByte m =? 0) && (ZOfByte f =? 1)
            then readTxBody true ver r2
            else readTxBody false ver r1
        | _ => readTxBody false ver r1
        end
    | None => None
    end.

(** ** The transaction selector: [transactionFilter] *)

Record TxData := mkTxData {
  HexData : string;        (* HexData, HexDataSize *)
  TxId : uint256;
  WitnessHash : uint256
}.

(** [TxTree::Data] is [TreeData] here ([Data] names the coinbase stream
    below); [DependsOn] is [None] for [numeric_limits<size_t>::max()]. *)
Record TxTree := mkTxTree {
  TreeData : TxData;
  Fee : Z;
  DependsOn : option nat;
  Visited : bool
}.

Definition defaultTxTree : TxTree :=
  mkTxTree (mkTxData EmptyString 0 0) 0 None false.

Definition setDependsOn (d : nat) (n : TxTree) : TxTree :=
  mkTxTree (TreeData n) (Fee n) (Some d) (Visited n).

Definition setVisited (n : TxTree) : TxTree :=
  mkTxTree (TreeData n) (Fee n) (DependsOn n) true.

(** Lines 76-90 for one array entry.  [None]: a rapidjson assertion fires
    ([HasMember] on a value that is no object, [GetString] on a [hash] that
    is no string).  [Some None]: one of the three checks fails, the function
    returns false.  [Some (Some n)]: the tree node filled from the entry. *)
Definition readEntry (txSrc : Value) : option (option TxTree) :=
  if negb (IsObject txSrc) then None
  else if negb (hasTyped txSrc "data" IsString) then Some None
  else if negb (hasTyped txSrc "txid" IsString) then Some None
  else if negb (hasTyped txSrc "fee" IsInt64) then Some None
  else
    match member txSrc "data", member txSrc "txid", member txSrc "fee" with
    | Some (JString data), Some (JString txid), Some (JInt fee) =>
        match member txSrc "hash" with
        | None => Some (Some (mkTxTree (mkTxData data (SetHex txid) 0) fee None false))
        | Some (JString hash) =>
            Some (Some (mkTxTree (mkTxData data (SetHex txid) (SetHex hash)) fee None false))
        | Some _ => None
        end
    | _, _, _ => None
    end.

(** First loop (lines 75-93), from index [i] on: fill [txTree[i]], record
    [txidMap[txid] = i], subtract the fee from [*blockReward]. *)
Fixpoint scanTransactions (transactions : list Value) (i : nat)
    (txTree : list TxTree) (txidMap : gmap Z nat) (blockReward : Z)
    : option (bool * list TxTree * gmap Z nat * Z) :=
  match transactions with
  | [] => Some (true, txTree, txidMap, blockReward)
  | txSrc :: rest =>
      match readEntry txSrc with
      | None => None
      | Some None => Some (false, txTree, txidMap, blockReward)
      | Some (Some node) =>
          scanTransactions rest (S i) (<[i := node]> txTree)
            (<[TxId (TreeData node) := i]> txidMap)
            (sub64 blockReward (Fee node))
      end
  end.

(** Lines 115-119: every input found in the map overwrites
    [txTree[i].DependsOn]. *)
Definition findDependencies (txidMap : gmap Z nat) (i : nat)
    (ins : list TxIn) (txTree : list TxTree) : list TxTree :=
  fold_left
    (fun tree txin =>
       match txidMap !! previousOutputHash txin with
       | Some j => alter (setDependsOn j) i tree
       | None => tree
       end)
    ins txTree.

(** Lines 98-112 for one entry: the decoded transaction, or [None] when the
    function returns false ([data] is no string, or the decoder hit the end
    of the stream or left bytes unread). *)
Definition decodeEntry (txSrc : Value) : option Transaction :=
  match member txSrc "data" with
  | Some (JString txHexData) =>
      match unserializeTx (hex2bin txHexData) with
      | Some (tx, []) => Some tx
      | _ => None
      end
  | _ => None
  end.

(** Second loop (lines 97-120), from index [i] on. *)
Fixpoint resolveDependencies (transactions : list Value) (i : nat)
    (txidMap : gmap Z nat) (txTree : list TxTree)
    : option (bool * list TxTree) :=
  match transactions with
  | [] => Some (true, txTree)
  | txSrc :: rest =>
      if negb (IsObject txSrc) then None
      else match decodeEntry txSrc with
           | None => Some (false, txTree)
           | Some tx =>
               resolveDependencies rest (S i) txidMap
                 (findDependencies txidMap i (txIn tx) txTree)
           end
  end.

(** *** Functions declared in this header and defined elsewhere *)

(** Lines 59-65 declare these functions; their definitions are not part of
    the sources at hand.  [transactionFilter] and [loadFromTemplate] are
    modelled over any implementation of them: each takes the values of the
    arguments it may write and returns them as the call leaves them.  The
    template itself is taken to be read only.  [addTransaction] gets the
    tree, [result] and [*blockReward] by pointer or reference (lines 59 and
    124) and may write all three; [fuel] bounds the recursion an
    implementation makes over [DependsOn], and the result is [None] when
    the call does not return. *)
Class BtcLikeFunctions := {
  addTransaction :
    nat -> list TxTree -> nat -> nat -> list TxData -> Z
    -> option (bool * list TxTree * list TxData * Z);
  transactionChecker : list Value -> list TxData -> bool * list TxData;
  isSegwitEnabled : list Value -> bool;
  processCoinbaseDevReward : Value -> Z -> list byte -> Z * list byte;
  processMinerFund : Value -> Z -> Z -> list byte -> Z * Z * list byte;
  calculateWitnessCommitment :
    Value -> bool -> list TxData -> list byte -> string
    -> bool * list TxData * list byte * string;
  collectTransactions :
    list TxData -> string -> list uint256 -> Z -> string * list uint256 * Z
}.

Section Selection.

Context {fns : BtcLikeFunctions}.

(** Third loop (lines 122-126) over the indices [indices]; a refusal ends
    the loop. *)
Fixpoint selectTransactions (fuel : nat) (indices : list nat)
    (tree : list TxTree) (txNumLimit : nat) (result : list TxData)
    (blockReward : Z) : option (list TxTree * list TxData * Z) :=
  match indices with
  | [] => Some (tree, result, blockReward)
  | i :: rest =>
      match addTransaction fuel tree i txNumLimit result blockReward with
      | None => None
      | Some (false, tree', result', blockReward') =>
          Some (tree', result', blockReward')
      | Some (true, tree', result', blockReward') =>
          selectTransactions fuel rest tree' txNumLimit result' blockReward'
      end
  end.

End Selection.

(** Lines 129-133: [std::sort] by the hexadecimal text of the txid.  The
    order of entries with equal txid is not fixed by [std::sort]; here they
    keep their order. *)
Fixpoint insertByTxId (x : TxData) (l : list TxData) : list TxData :=
  match l with
  | [] => [x]
  | y :: l' =>
      if String.ltb (GetHex (TxId y)) (GetHex (TxId x)) || String.eqb (GetHex (TxId y)) (GetHex (TxId x))
      then y :: insertByTxId x l'
      else x :: l
  end.

Definition sortByTxId (l : list TxData) : list TxData :=
  fold_left (fun acc x => insertByTxId x acc) l [].

(** The first two loops (lines 70-120): the flag is false when one of them
    returns false; with it come [txTree] and [*blockReward] as they stand
    then. *)
Definition analyseTransactions (transactions : list Value) (blockReward : Z)
    : option (bool * list TxTree * Z) :=
  let txNum := length transactions in
  let txTree := replicate txNum defaultTxTree in
  match scanTransactions transactions 0 txTree ∅ blockReward with
  | None => None
  | Some (false, txTree1, _, blockReward1) => Some (false, txTree1, blockReward1)
  | Some (true, txTree1, txidMap, blockReward1) =>
      match resolveDependencies transactions 0 txidMap txTree1 with
      | None => None
      | Some (ok, txTree2) => Some (ok, txTree2, blockReward1)
      end
  end.

(** [transactionFilter<Proto>] (lines 68-136).  The result is the returned
    flag, [result] and [*blockReward] as the call leaves them. *)
Definition transactionFilter {fns : BtcLikeFunctions} (fuel : nat)
    (transactions : list Value) (txNumLimit : nat) (result : list TxData)
    (blockReward : Z)
    (sortByHash : bool) : option (bool * list TxData * Z) :=
  match analyseTransactions transactions blockReward with
  | None => None
  | Some (false, _, blockReward1) => Some (false, result, blockReward1)
  | Some (true, txTree2, blockReward1) =>
      match selectTransactions fuel (seq 0 (length transactions)) txTree2
              txNumLimit result blockReward1 with
      | None => None
      | Some (_, result3, blockReward3) =>
          Some (true, if sortByHash then sortByTxId result3 else result3,
                blockReward3)
      end
  end.

(** ** Script opcodes, headers, coinbase streams, configuration *)

Module Script.
Definition OP_0 : Z := 0.
Definition OP_RETURN : Z := 106.
Definition OP_DUP : Z := 118.
Definition OP_EQUAL : Z := 135.
Definition OP_EQUALVERIFY : Z := 136.
Definition OP_HASH160 : Z := 169.
Definition OP_CHECKSIG : Z := 172.
End Script.

Record BlockHeader := mkBlockHeader {
  nVersion : Z;
  hashPrevBlock : uint256;
  hashMerkleRoot : uint256;
  nTime : Z;
  nBits : Z;
  nNonce : Z
}.

(** Modelled from the spec: [BTC::serialize] of a header is declared outside
    the sources; section 3 has 80 bytes, little-endian, in field order. *)
Definition serializeHeader (h : BlockHeader) : list byte :=
  leBytes 4 (nVersion h) ++ leBytes 32 (hashPrevBlock h)
    ++ leBytes 32 (hashMerkleRoot h) ++ leBytes 4 (nTime h)
    ++ leBytes 4 (nBits h) ++ leBytes 4 (nNonce h).

Record CoinbaseTx := mkCoinbaseTx {
  Data : list byte;
  ExtraDataOffset : Z;
  ExtraNonceOffset : Z
}.

(** Modelled from the spec: [MiningConfig] is declared outside the sources;
    section 6 lists its three fields. *)
Record MiningConfig := mkMiningConfig {
  TxNumLimit : nat;
  FixedExtraNonceSize : nat;
  MutableExtraNonceSize : nat
}.

(** The chain profile [Proto], as far as this header reads it. *)
Class ProtoTy := {
  sizeofAddressTy : nat      (* sizeof(typename Proto::AddressTy) *)
}.

(** Modelled from the spec: [BTC::serializeForCoinbase] is declared outside
    the sources; section 4.B has a length byte followed by the height in
    little-endian without its leading zero bytes. *)
Fixpoint minimalLe (n : nat) (z : Z) : list byte :=
  match n with
  | O => []
  | S n' => if z =? 0 then [] else byteOfZ z :: minimalLe n' (z / 256)
  end.

Definition serializeForCoinbase (height : Z) : list byte :=
  let bs := minimalLe 8 (trunc64 height) in
  byteOfZ (Z.of_nat (length bs)) :: bs.

(** [strtoul(s, nullptr, 16)] with a 64-bit [unsigned long]: blanks, a
    sign, a [0x] prefix, then the digits; the value saturates. *)
Definition strtoul16 (s : string) : Z :=
  let cs := skipSpace (list_ascii_of_string s) in
  let '(neg, cs1) :=
    match cs with
    | c :: r => if ZOfAscii c =? 45 then (true, r)
                else if ZOfAscii c =? 43 then (false, r) else (false, cs)
    | [] => (false, cs)
    end in
  let v := hexPrefixValue 0 (skip0x cs1) in
  if 2 ^ 64 <=? v then 2 ^ 64 - 1
  else if neg then trunc64 (- v) else v.

(** ** The work object *)

(** The members of [WorkTy] and those of its base [StratumSingleWork] that
    this header reads or writes.  [Backend_] is [None] for a null pointer. *)
Record Work := mkWork {
  Backend_ : option nat;
  MiningCfg_ : MiningConfig;
  Initialized_ : bool;
  Height_ : Z;
  BlockReward_ : Z;
  TxNum_ : Z;
  NotifyMessage_ : list byte;
  Header : BlockHeader;
  JobVersion : Z;
  SegwitEnabled : bool;
  MerklePath : list uint256;
  MiningAddress_ : list byte;
  CoinbaseMessage_ : string;
  DevFee : Z;
  DevScriptPubKey : list byte;
  WitnessCommitment : list byte;
  CBTxLegacy_ : CoinbaseTx;
  CBTxWitness_ : CoinbaseTx;
  TxHexData : string
}.

Definition setTemplateData (w : Work) (height blockReward : Z) (segwit : bool)
    (devFee : Z) (devScript witnessCommitment : list byte) : Work :=
  mkWork (Backend_ w) (MiningCfg_ w) (Initialized_ w) height blockReward
    (TxNum_ w) (NotifyMessage_ w) (Header w) (JobVersion w) segwit
    (MerklePath w) (MiningAddress_ w) (CoinbaseMessage_ w) devFee devScript
    witnessCommitment (CBTxLegacy_ w) (CBTxWitness_ w) (TxHexData w).

Definition setHeader (w : Work) (header : BlockHeader) (jobVersion : Z) : Work :=
  mkWork (Backend_ w) (MiningCfg_ w) (Initialized_ w) (Height_ w)
    (BlockReward_ w) (TxNum_ w) (NotifyMessage_ w) header jobVersion
    (SegwitEnabled w) (MerklePath w) (MiningAddress_ w) (CoinbaseMessage_ w)
    (DevFee w) (DevScriptPubKey w) (WitnessCommitment w) (CBTxLegacy_ w)
    (CBTxWitness_ w) (TxHexData w).

Definition setCoinbase (w : Work) (legacy witness : CoinbaseTx) : Work :=
  mkWork (Backend_ w) (MiningCfg_ w) (Initialized_ w) (Height_ w)
    (BlockReward_ w) (TxNum_ w) (NotifyMessage_ w) (Header w) (JobVersion w)
    (SegwitEnabled w) (MerklePath w) (MiningAddress_ w) (CoinbaseMessage_ w)
    (DevFee w) (DevScriptPubKey w) (WitnessCommitment w) legacy witness
    (TxHexData w).

Definition setTransactions (w : Work) (txHexData : string)
    (merklePath : list uint256) (txNum : Z) : Work :=
  mkWork (Backend_ w) (MiningCfg_ w) (Initialized_ w) (Height_ w)
    (BlockReward_ w) txNum (NotifyMessage_ w) (Header w) (JobVersion w)
    (SegwitEnabled w) merklePath (MiningAddress_ w) (CoinbaseMessage_ w)
    (DevFee w) (DevScriptPubKey w) (WitnessCommitment w) (CBTxLegacy_ w)
    (CBTxWitness_ w) txHexData.

Definition setNotifyMessage (w : Work) (notifyMessage : list byte) : Work :=
  mkWork (Backend_ w) (MiningCfg_ w) (Initialized_ w) (Height_ w)
    (BlockReward_ w) (TxNum_ w) notifyMessage (Header w) (JobVersion w)
    (SegwitEnabled w) (MerklePath w) (MiningAddress_ w) (CoinbaseMessage_ w)
    (DevFee w) (DevScriptPubKey w) (WitnessCommitment w) (CBTxLegacy_ w)
    (CBTxWitness_ w) (TxHexData w).

Definition setTime (h : BlockHeader) (t : Z) : BlockHeader :=
  mkBlockHeader (nVersion h) (hashPrevBlock h) (hashMerkleRoot h) t
    (nBits h) (nNonce h).

Definition nullHeader : BlockHeader := mkBlockHeader 0 0 0 0 0 0.
Definition emptyCoinbaseTx : CoinbaseTx := mkCoinbaseTx [] 0 0.

(** The constructor (lines 141-147).  The base constructor, declared outside
    the sources, is taken to store [backend] and [miningCfg] in [Backend_]
    and [MiningCfg_].  [JobVersion] and the offsets of the two [CoinbaseTx]
    have no initialiser in the code (lines 386 and 41-42) and the
    constructor assigns none of them: their values are indeterminate until
    [loadFromTemplate] sets them.  [Header] and [MiningAddress_] are
    default-constructed values of types declared outside the sources.  All
    of these stand here as zero ([MiningAddress_] as [sizeof(AddressTy)]
    zero bytes); no statement below depends on what the indeterminate
    members hold before they are set. *)
Definition WorkTy {proto : ProtoTy} (backend : option nat) (miningCfg : MiningConfig)
    (miningAddress : list byte) (coinbaseMessage : string) : Work :=
  let initialized := (length miningAddress =? sizeofAddressTy)%nat in
  mkWork backend miningCfg initialized 0 0 0 [] nullHeader 0 false []
    (if initialized then miningAddress else replicate sizeofAddressTy x00)
    coinbaseMessage 0 [] [] emptyCoinbaseTx emptyCoinbaseTx EmptyString.

(** Line 151. *)
Definition ready (w : Work) : bool :=
  match Backend_ w with Some _ => true | None => false end.

(** *** [buildCoinbaseTx] (lines 270-344) *)

(** The scriptSig stream up to the extra nonce (lines 291-299). *)
Definition scriptSigHead (w : Work) (coinbaseData : option (list byte)) : list byte :=
  serializeForCoinbase (Height_ w)
    ++ (match coinbaseData with Some d => d | None => [] end)
    ++ bytesOfString (CoinbaseMessage_ w).

(** Modelled from the spec: [xmstream::reserve] is declared outside the
    sources; section 4.E has the reserved extra nonce bytes zero. *)
Definition reserved (n : nat) : list byte := replicate n x00.

Definition witnessNonce (w : Work) : list (list byte) :=
  if SegwitEnabled w then [replicate 32 x00] else [].

(** [coinbaseTx] when lines 301-304 run: the version and the input's
    outpoint and witness are set, its scriptSig is still empty and there
    is no output yet. *)
Definition coinbaseTxAtOffsets (w : Work) : Transaction :=
  mkTransaction (if SegwitEnabled w then 2 else 1)
    [mkTxIn SetNull 4294967295 [] 0 (witnessNonce w)] [] 0.

Definition p2pkh {proto : ProtoTy} (w : Work) : list byte :=
  [byteOfZ Script.OP_DUP; byteOfZ Script.OP_HASH160;
   byteOfZ (Z.of_nat sizeofAddressTy)]
    ++ MiningAddress_ w
    ++ [byteOfZ Script.OP_EQUALVERIFY; byteOfZ Script.OP_CHECKSIG].

(** [coinbaseTx] when line 341 has run. *)
Definition coinbaseTx {proto : ProtoTy} (w : Work) (coinbaseData : option (list byte))
    (miningCfg : MiningConfig) : Transaction :=
  mkTransaction (if SegwitEnabled w then 2 else 1)
    [mkTxIn SetNull 4294967295
       (scriptSigHead w coinbaseData
          ++ reserved (FixedExtraNonceSize miningCfg + MutableExtraNonceSize miningCfg))
       4294967295 (witnessNonce w)]
    ([mkTxOut (BlockReward_ w) (p2pkh w)]
       ++ (if DevFee w =? 0 then [] else [mkTxOut (DevFee w) (DevScriptPubKey w)])
       ++ (if SegwitEnabled w then [mkTxOut 0 (WitnessCommitment w)] else []))
    0.

(** The two streams and their offsets as the call leaves them; the
    serializer appends to [legacy.Data] and [witness.Data]. *)
Definition buildCoinbaseTx {proto : ProtoTy} (w : Work) (coinbaseData : option (list byte))
    (miningCfg : MiningConfig) (legacy witness : CoinbaseTx)
    : CoinbaseTx * CoinbaseTx :=
  let extraDataOffset := length (serializeForCoinbase (Height_ w)) in
  let offsetOf := length (scriptSigHead w coinbaseData) in
  let first (wit : bool) := getFirstScriptSigOffset (coinbaseTxAtOffsets w) wit in
  let tx := coinbaseTx w coinbaseData miningCfg in
  (mkCoinbaseTx (Data legacy ++ serializeTx tx false)
     (trunc32 (Z.of_nat (extraDataOffset + first false)))
     (trunc32 (Z.of_nat (offsetOf + first false))),
   mkCoinbaseTx (Data witness ++ serializeTx tx true)
     (trunc32 (Z.of_nat (extraDataOffset + first true)))
     (trunc32 (Z.of_nat (offsetOf + first true)))).

(** *** [buildBlockImpl] (lines 361-380) and [buildBlock] (line 153) *)

Definition buildBlockImpl (w : Work) (header : BlockHeader) (witness : CoinbaseTx)
    : string :=
  let stream := serializeHeader header ++ serializeVarSize (TxNum_ w + 1) in
  (bin2hexLowerCase stream ++ bin2hexLowerCase (Data witness) ++ TxHexData w)%string.

Definition buildBlock (w : Work) : string :=
  buildBlockImpl w (Header w) (CBTxWitness_ w).

(** The strategies [NotifyTy] and [PrepareForSubmitTy], template parameters
    of [WorkTy].  Modelled from the spec: section 4.H has [NotifyTy::build]
    regenerate the notify payload, so it returns the new [NotifyMessage_]
    only; [PrepareForSubmitTy::prepare] returns its flag and the header and
    the two coinbases as it leaves them. *)
Class StrategyTy := {
  CWorkerConfig : Type;
  StratumMessage : Type;
  notifyBuild :
    Work -> BlockHeader -> Z -> CoinbaseTx -> list uint256 -> MiningConfig
    -> bool -> list byte -> list byte;
  prepare :
    BlockHeader -> Z -> CoinbaseTx -> CoinbaseTx -> list uint256
    -> CWorkerConfig -> MiningConfig -> StratumMessage
    -> bool * BlockHeader * CoinbaseTx * CoinbaseTx
}.

(** Conversion of a [uint32_t] to the header's [int32_t] version. *)
Definition int32OfUint (z : Z) : Z := (z + 2 ^ 31) mod 2 ^ 32 - 2 ^ 31.

(** *** [loadFromTemplate] (lines 170-258) *)

(** Lines 186-192. *)
Definition templateHasFields (blockTemplate : Value) : bool :=
  HasMember blockTemplate "height" && HasMember blockTemplate "version"
  && HasMember blockTemplate "previousblockhash"
  && HasMember blockTemplate "curtime" && HasMember blockTemplate "bits"
  && HasMember blockTemplate "coinbasevalue"
  && hasTyped blockTemplate "transactions" IsArray.

(** Lines 214-257, once the fields have been checked.  [fuel] is that of
    [addTransaction]. *)
Definition loadChecked {fns : BtcLikeFunctions} {proto : ProtoTy} (fuel : nat) (w : Work)
    (blockTemplate : Value) (height version : Z) (hashPrevBlock : string)
    (curtime : Z) (bits : string) (coinbaseValue : Z)
    (transactions : list Value) (ticker error : string)
    : option (bool * Work * string) :=
  let segwit := isSegwitEnabled transactions in
  let limit := TxNumLimit (MiningCfg_ w) in
  let txFilter := negb (limit =? 0)%nat && (limit <? length transactions)%nat in
  let needSortByHash := String.eqb ticker "BCHN" || String.eqb ticker "BCHABC" in
  match
    (if txFilter
     then match transactionFilter fuel transactions limit [] coinbaseValue
                  needSortByHash with
          | Some (_, processed, blockReward) => Some (processed, blockReward)
          | None => None
          end
     else Some (snd (transactionChecker transactions []), coinbaseValue))
  with
  | None => None
  | Some (processed, blockReward) =>
      let '(devFee, devScript) :=
        processCoinbaseDevReward blockTemplate (DevFee w) (DevScriptPubKey w) in
      let '(blockReward, devFee, devScript) :=
        processMinerFund blockTemplate blockReward devFee devScript in
      let '(ok, processed, commitment, error) :=
        if segwit
        then calculateWitnessCommitment blockTemplate txFilter processed
               (WitnessCommitment w) error
        else (true, processed, WitnessCommitment w, error) in
      let w1 := setTemplateData w height blockReward segwit devFee devScript
                  commitment in
      if negb ok then Some (false, w1, error)
      else
        let header :=
          mkBlockHeader (int32OfUint version) (SetHex hashPrevBlock) SetNull
            curtime (trunc32 (strtoul16 bits)) 0 in
        let w2 := setHeader w1 header (trunc32 (nVersion header)) in
        let '(legacy, witness) :=
          buildCoinbaseTx w2 None (MiningCfg_ w2) (CBTxLegacy_ w2) (CBTxWitness_ w2) in
        let w3 := setCoinbase w2 legacy witness in
        let '(txHexData, merklePath, txNum) :=
          collectTransactions processed (TxHexData w3) (MerklePath w3) (TxNum_ w3) in
        Some (true, setTransactions w3 txHexData merklePath txNum, error)
  end.

(** The returned flag, the work and [error] as the call leaves them; [None]
    when a rapidjson assertion fires or [addTransaction] does not return. *)
Definition loadFromTemplate {fns : BtcLikeFunctions} {proto : ProtoTy} (fuel : nat) (w : Work)
    (document : Value) (ticker error : string) : option (bool * Work * string) :=
  if negb (IsObject document) then None
  else if negb (hasTyped document "result" IsObject) then Some (false, w, "no result"%string)
  else
    match member document "result" with
    | None => None
    | Some blockTemplate =>
        if negb (templateHasFields blockTemplate)
        then Some (false, w, "missing data"%string)
        else
          match member blockTemplate "height", member blockTemplate "version",
                member blockTemplate "previousblockhash",
                member blockTemplate "curtime", member blockTemplate "bits",
                member blockTemplate "coinbasevalue",
                member blockTemplate "transactions" with
          | Some height, Some version, Some hashPrevBlock, Some curtime,
            Some bits, Some coinbaseValue, Some (JArray transactions) =>
              if negb (IsUint64 height && IsUint version && IsString hashPrevBlock
                       && IsUint curtime && IsString bits && IsInt64 coinbaseValue)
              then Some (false, w, "height or header data invalid format"%string)
              else
                match height, version, hashPrevBlock, curtime, bits, coinbaseValue with
                | JInt height, JInt version, JString hashPrevBlock,
                  JInt curtime, JString bits, JInt coinbaseValue =>
                    loadChecked fuel w blockTemplate height version
                      hashPrevBlock curtime bits coinbaseValue transactions
                      ticker error
                | _, _, _, _, _, _ => None
                end
          | _, _, _, _, _, _, _ => None
          end
    end.

(** *** The operations between a load and a submit *)

(** Lines 155-158; [now] is the value of [time(nullptr)]. *)
Definition mutate {strat : StrategyTy} (now : Z) (w : Work) : Work :=
  let w1 := setHeader w (setTime (Header w) (trunc32 now)) (JobVersion w) in
  setNotifyMessage w1
    (notifyBuild w1 (Header w1) (JobVersion w1) (CBTxLegacy_ w1) (MerklePath w1)
       (MiningCfg_ w1) true (NotifyMessage_ w1)).

(** Lines 162-164. *)
Definition buildNotifyMessage {strat : StrategyTy} (resetPreviousWork : bool) (w : Work) : Work :=
  setNotifyMessage w
    (notifyBuild w (Header w) (JobVersion w) (CBTxLegacy_ w) (MerklePath w)
       (MiningCfg_ w) resetPreviousWork (NotifyMessage_ w)).

(** Lines 166-168. *)
Definition prepareForSubmit {strat : StrategyTy} (workerCfg : CWorkerConfig)
    (msg : StratumMessage) (w : Work) : bool * Work :=
  let '(ok, header, legacy, witness) :=
    prepare (Header w) (JobVersion w) (CBTxLegacy_ w) (CBTxWitness_ w)
      (MerklePath w) workerCfg (MiningCfg_ w) msg in
  (ok, setCoinbase (setHeader w header (JobVersion w)) legacy witness).

(** What a session may call on a loaded work before a submit.  The readers
    ([buildBlock], [expectedWork], [checkConsensus], [shareHash], [ready])
    leave the work as it is. *)
Inductive Operation :=
| OpMutate (now : Z)
| OpBuildNotifyMessage (resetPreviousWork : bool)
| OpRead.

Definition perform {strat : StrategyTy} (w : Work) (op : Operation) : Work :=
  match op with
  | OpMutate now => mutate now w
  | OpBuildNotifyMessage r => buildNotifyMessage r w
  | OpRead => w
  end.

Definition performAll {strat : StrategyTy} (ops : list Operation) (w : Work) : Work :=
  fold_left perform ops w.

(** ** [getDifficulty] (lines 19-37) *)

(** A [while] loop run for at most [fuel] iterations: the final state and
    the number of iterations, or [None] when the fuel does not suffice. *)
Fixpoint while {St : Type} (fuel : nat) (cond : St -> bool) (body : St -> St)
    (s : St) : option (St * nat) :=
  if cond s then
    match fuel with
    | O => None
    | S fuel' =>
        match while fuel' cond body (body s) with
        | Some (s', n) => Some (s', S n)
        | None => None
        end
    end
  else Some (s, O).

Definition doubleOfInt (z : Z) : float := PrimFloat.of_uint63 (Uint63.of_Z z).

Definition shiftOf (bits : Z) : Z := Z.land (Z.shiftr bits 24) 255.

(** The state of the loops is [(nShift, dDiff)]. *)
Definition below29 (s : Z * float) : bool := fst s <? 29.
Definition raiseShift (s : Z * float) : Z * float :=
  (fst s + 1, (snd s * doubleOfInt 256)%float).
Definition above29 (s : Z * float) : bool := fst s >? 29.
Definition lowerShift (s : Z * float) : Z * float :=
  (fst s - 1, (snd s / doubleOfInt 256)%float).

(** The result is [dDiff] and the iterations of the two loops together. *)
Definition getDifficultyRun (fuel : nat) (bits : Z) : option (float * nat) :=
  let nShift := shiftOf bits in
  let dDiff := (doubleOfInt 65535 / doubleOfInt (Z.land bits 16777215))%float in
  match while fuel below29 raiseShift (nShift, dDiff) with
  | None => None
  | Some (s1, n1) =>
      match while fuel above29 lowerShift s1 with
      | None => None
      | Some (s2, n2) => Some (snd s2, (n1 + n2)%nat)
      end
  end.

(** [nShift] is one byte, so 226 iterations always suffice. *)
Definition getDifficulty (bits : Z) : float :=
  match getDifficultyRun 226 bits with
  | Some (d, _) => d
  | None => nan
  end.

(** Line 150. *)
Definition expectedWork (w : Work) : float := getDifficulty (nBits (Header w)).

(** ** A reference implementation of the functions defined elsewhere *)

(** The theorems on [loadFromTemplate] hold for every [BtcLikeFunctions];
    the closed examples need one.  This one follows the design document,
    with the two primitives it does not define left open: the double
    SHA-256 of a byte string and the script paying to a text address. *)
Section Reference.

Variable sha256d : list byte -> uint256.
Variable scriptOfAddress : string -> list byte.

Fixpoint merkleLevel (l : list uint256) : list uint256 :=
  match l with
  | a :: b :: r => sha256d (leBytes 32 a ++ leBytes 32 b) :: merkleLevel r
  | [a] => [sha256d (leBytes 32 a ++ leBytes 32 a)]
  | [] => []
  end.

Fixpoint merkleRoot (fuel : nat) (l : list uint256) : uint256 :=
  match l with
  | [] => 0
  | [a] => a
  | _ => match fuel with
         | O => 0
         | S fuel' => merkleRoot fuel' (merkleLevel l)
         end
  end.

(** Modelled from the spec: section 4.G, the path of leaf 0. *)
Fixpoint merklePathOfFirst (fuel : nat) (l : list uint256) : list uint256 :=
  match l with
  | _ :: b :: _ =>
      match fuel with
      | O => []
      | S fuel' => b :: merklePathOfFirst fuel' (merkleLevel l)
      end
  | _ => []
  end.

(** Modelled from the spec: section 4.D, "validates fields and copies all
    txs", and section 7, a transaction that fails to decode or leaves
    bytes unread is an error. *)
Fixpoint refTransactionChecker (transactions : list Value) (result : list TxData)
    : bool * list TxData :=
  match transactions with
  | [] => (true, result)
  | txSrc :: rest =>
      match readEntry txSrc, decodeEntry txSrc with
      | Some (Some node), Some _ =>
          refTransactionChecker rest (result ++ [TreeData node])
      | _, _ => (false, result)
      end
  end.

(** Modelled from the spec: section 4.F, SegWit detection. *)
Definition refIsSegwitEnabled (transactions : list Value) : bool :=
  existsb
    (fun txSrc =>
       match member txSrc "txid", member txSrc "hash" with
       | Some (JString txid), Some (JString hash) =>
           negb (SetHex txid =? SetHex hash)
       | _, _ => false
       end)
    transactions.

(** Modelled from the spec: "External grafts", dev reward. *)
Definition refProcessCoinbaseDevReward (blockTemplate : Value) (devFee : Z)
    (devScriptPubKey : list byte) : Z * list byte :=
  match member blockTemplate "coinbasedevreward" with
  | Some reward =>
      match member reward "value", member reward "scriptpubkey" with
      | Some (JInt v), Some (JString s) => (wrap64 v, hex2bin s)
      | _, _ => (devFee, devScriptPubKey)
      end
  | None => (devFee, devScriptPubKey)
  end.

(** Modelled from the spec: "External grafts", miner fund. *)
Definition refProcessMinerFund (blockTemplate : Value) (blockReward devFee : Z)
    (devScriptPubKey : list byte) : Z * Z * list byte :=
  match member blockTemplate "minerfund" with
  | Some fund =>
      match member fund "minimumvalue", member fund "addresses" with
      | Some (JInt v), Some (JArray (JString a :: _)) =>
          (sub64 blockReward (wrap64 v), wrap64 v, scriptOfAddress a)
      | _, _ => (blockReward, devFee, devScriptPubKey)
      end
  | None => (blockReward, devFee, devScriptPubKey)
  end.

(** Modelled from the spec: section 4.F, commitment value and script. *)
Definition refCalculateWitnessCommitment (blockTemplate : Value) (txFilter : bool)
    (processed : list TxData) (witnessCommitment : list byte) (error : string)
    : bool * list TxData * list byte * string :=
  match member blockTemplate "default_witness_commitment" with
  | Some (JString s) => (true, processed, hex2bin s, error)
  | _ =>
      let leaves := 0 :: map WitnessHash processed in
      let root := merkleRoot (length leaves) leaves in
      let commitment := sha256d (leBytes 32 root ++ replicate 32 x00) in
      (true, processed,
       map byteOfZ [Script.OP_RETURN; 36; 170; 33; 169; 237] ++ leBytes 32 commitment,
       error)
  end.

(** Modelled from the spec: section 3, the hex payloads concatenated, the
    Merkle path without the coinbase leaf, and the count. *)
Definition refCollectTransactions (processed : list TxData) (txHexData : string)
    (merklePath : list uint256) (txNum : Z) : string * list uint256 * Z :=
  (fold_right (fun d acc => (HexData d ++ acc)%string) EmptyString processed,
   merklePathOfFirst (S (length processed)) (0 :: map TxId processed),
   Z.of_nat (length processed)).

(** Modelled from the spec: [addTransaction] is declared at line 59 and
    defined outside the sources.  Section 4.D step 3: a visited entry is
    accepted; the entry it depends on is added first and a refusal there
    refuses this one; an entry is refused when [result.size() = N];
    otherwise its data is pushed and it is marked visited.  What the
    function does with [*blockReward] the design does not settle (the
    sentence of section 4.D on fees, the invariant of section 3 and
    scenario S3 each read differently); this one leaves it alone.  [fuel]
    bounds the depth of the recursion; [None] is a recursion that does not
    end (an entry whose chain of [DependsOn] comes back to itself) or an
    index outside the tree. *)
Fixpoint refAddTransaction (fuel : nat) (tree : list TxTree) (index : nat)
    (txNumLimit : nat) (result : list TxData) (blockReward : Z)
    : option (bool * list TxTree * list TxData * Z) :=
  match fuel with
  | O => None
  | S fuel' =>
      match tree !! index with
      | None => None
      | Some node =>
          if Visited node then Some (true, tree, result, blockReward)
          else
            let push (tree : list TxTree) (result : list TxData) (blockReward : Z) :=
              if (length result =? txNumLimit)%nat
              then Some (false, tree, result, blockReward)
              else Some (true, alter setVisited index tree,
                         result ++ [TreeData node], blockReward) in
            match DependsOn node with
            | None => push tree result blockReward
            | Some dep =>
                match refAddTransaction fuel' tree dep txNumLimit result blockReward with
                | None => None
                | Some (false, tree', result', blockReward') =>
                    Some (false, tree', result', blockReward')
                | Some (true, tree', result', blockReward') =>
                    push tree' result' blockReward'
                end
            end
      end
  end.

Definition referenceFunctions : BtcLikeFunctions :=
  {| addTransaction := refAddTransaction;
     transactionChecker := refTransactionChecker;
     isSegwitEnabled := refIsSegwitEnabled;
     processCoinbaseDevReward := refProcessCoinbaseDevReward;
     processMinerFund := refProcessMinerFund;
     calculateWitnessCommitment := refCalculateWitnessCommitment;
     collectTransactions := refCollectTransactions |}.

End Reference.

(** ** Data for the closed examples *)

Module Examples.

(** Modelled from the spec: [BTC::Proto::AddressTy] is declared outside
    the sources; section 4.E has a 20-byte address in the payout script. *)
Definition BTC : ProtoTy := {| sizeofAddressTy := 20 |}.

(** No example below has two transactions selected or SegWit without a
    default commitment, so none calls the two open primitives. *)
Definition functions : BtcLikeFunctions :=
  referenceFunctions (fun _ => 0) (fun _ => []).

Definition strategy : StrategyTy :=
  {| CWorkerConfig := unit;
     StratumMessage := unit;
     notifyBuild := fun _ _ _ _ _ _ _ _ => [];
     prepare := fun h _ l w _ _ _ _ => (true, h, l, w) |}.

(** A transaction spending the outputs [prevs], in that order. *)
Definition spend (prevs : list uint256) : Transaction :=
  mkTransaction 1
    (map (fun h => mkTxIn h 0 [byteOfZ 81] 4294967295 []) prevs)
    [mkTxOut 5000 [byteOfZ 81]] 0.

Definition entry (tx : Transaction) (txid : uint256) (fee : Z) : Value :=
  JObject [("data"%string, JString (bin2hexLowerCase (serializeTx tx false)));
           ("txid"%string, JString (GetHex txid));
           ("hash"%string, JString (GetHex txid));
           ("fee"%string, JInt fee)].

(** Four transactions with txids 1 to 4: the first two spend outputs from
    outside the template, the third spends one of each of them, the
    fourth spends the third. *)
Definition template4 : list Value :=
  [entry (spend [1000]) 1 10; entry (spend [1001]) 2 20;
   entry (spend [1; 2]) 3 30; entry (spend [3]) 4 40].

(** Same, with a third entry whose data is one byte and cannot be read
    as a transaction. *)
Definition template4bad : list Value :=
  [entry (spend [1000]) 1 10; entry (spend [1001]) 2 20;
   JObject [("data"%string, JString "00"); ("txid"%string, JString (GetHex 3));
            ("fee"%string, JInt 30)];
   entry (spend [3]) 4 40].

Definition address20 : list byte := replicate 20 (byteOfZ 17).

Definition config (limit : nat) : MiningConfig := mkMiningConfig limit 4 4.

Definition document (transactions : list Value) : Value :=
  JObject [("result"%string,
            JObject [("height"%string, JInt 700000);
                     ("version"%string, JInt 536870912);
                     ("previousblockhash"%string, JString (GetHex 17));
                     ("curtime"%string, JInt 1600000000);
                     ("bits"%string, JString "170b2c70");
                     ("coinbasevalue"%string, JInt 625000000);
                     ("transactions"%string, JArray transactions)])].

Definition freshWork (limit : nat) (message : string) : Work :=
  WorkTy (proto := BTC) (Some 0%nat) (config limit) address20 message.

(** The tree the first two loops leave for [template4]. *)
Definition tree4 : list TxTree :=
  map (fun '(prevs, txid, fee, dep) =>
         mkTxTree (mkTxData (bin2hexLowerCase (serializeTx (spend prevs) false))
                     txid txid) fee dep false)
    [([1000], 1, 10, None); ([1001], 2, 20, None);
     ([1; 2], 3, 30, Some 1%nat); ([3], 4, 40, Some 2%nat)].

(** A work whose dev fee is negative. *)
Definition negativeDevFee : Work :=
  setTemplateData (freshWork 0 "") 700000 625000000 false (-1) [byteOfZ 81] [].

(** A coinbase message of 250 characters. *)
Definition message250 : string :=
  string_of_list_ascii (repeat (asciiOfZ 97) 250).

(** The functions with the flag of [transactionChecker] negated. *)
Definition negatedChecker (F : BtcLikeFunctions) : BtcLikeFunctions :=
  {| addTransaction := addTransaction;
     transactionChecker :=
       fun transactions result =>
         (negb (fst (transactionChecker transactions result)),
          snd (transactionChecker transactions result));
     isSegwitEnabled := isSegwitEnabled;
     processCoinbaseDevReward := processCoinbaseDevReward;
     processMinerFund := processMinerFund;
     calculateWitnessCommitment := calculateWitnessCommitment;
     collectTransactions := collectTransactions |}.

(** A template of one transaction, loaded into a fresh work. *)
Definition template1 : list Value := [entry (spend [1000]) 1 10].

Definition loaded : Work :=
  Eval vm_compute in
    match loadFromTemplate (fns := functions) (proto := BTC) 0 (freshWork 0 "hi")
            (document template1) "BTC" "" with
    | Some (_, w, _) => w
    | None => freshWork 0 "hi"
    end.

(** A work at height 700000 with the 250-character message. *)
Definition longMessageWork : Work :=
  setTemplateData (freshWork 0 message250) 700000 625000000 false 0 [] [].

End Examples.

(** ** What the statements below are phrased with *)

(** The fee an array entry carries. *)
Definition feeOf (txSrc : Value) : Z :=
  match member txSrc "fee" with
  | Some (JInt fee) => fee
  | _ => 0
  end.

Definition sumFees (transactions : list Value) : Z :=
  fold_right (fun txSrc acc => feeOf txSrc + acc) 0 transactions.

(** The three checks of lines 77-82. *)
Definition fieldsOk (txSrc : Value) : bool :=
  hasTyped txSrc "data" IsString && hasTyped txSrc "txid" IsString
  && hasTyped txSrc "fee" IsInt64.

Definition decodes (txSrc : Value) : bool :=
  match decodeEntry txSrc with Some _ => true | None => false end.

(** No rapidjson assertion fires on the entry: it is an object and its
    [hash], when present, is a string. *)
Definition assertFree (txSrc : Value) : bool :=
  IsObject txSrc
  && match member txSrc "hash" with Some h => IsString h | None => true end.

(** Index of the first entry with a missing or mistyped field or with data
    that does not decode. *)
Fixpoint firstInvalid (transactions : list Value) : option nat :=
  match transactions with
  | [] => None
  | txSrc :: rest =>
      if fieldsOk txSrc && decodes txSrc then option_map S (firstInvalid rest)
      else Some O
  end.

(** Number of entries the first loop goes through before it stops. *)
Fixpoint scanned (transactions : list Value) : nat :=
  match transactions with
  | [] => O
  | txSrc :: rest => if fieldsOk txSrc then S (scanned rest) else O
  end.

Definition txidOf (txSrc : Value) : option uint256 :=
  match member txSrc "txid" with
  | Some (JString txid) => Some (SetHex txid)
  | _ => None
  end.

(** Index, counted from [i], of the last entry with txid [h]. *)
Fixpoint lastIndexOf (h : uint256) (transactions : list Value) (i : nat) : option nat :=
  match transactions with
  | [] => None
  | txSrc :: rest =>
      match lastIndexOf h rest (S i) with
      | Some j => Some j
      | None =>
          match txidOf txSrc with
          | Some h' => if h' =? h then Some i else None
          | None => None
          end
      end
  end.

(** The template entry of the first input that spends a template
    transaction: the wording of section 4.D step 2. *)
Fixpoint firstDependency (index : uint256 -> option nat) (ins : list TxIn) : option nat :=
  match ins with
  | [] => None
  | txin :: rest =>
      match index (previousOutputHash txin) with
      | Some j => Some j
      | None => firstDependency index rest
      end
  end.

(** The template entry of the last input that spends a template
    transaction. *)
Fixpoint lastDependency (index : uint256 -> option nat) (ins : list TxIn) : option nat :=
  match ins with
  | [] => None
  | txin :: rest =>
      match lastDependency index rest with
      | Some j => Some j
      | None => index (previousOutputHash txin)
      end
  end.

(** The template index of a txid: the entry that carries it, the last one
    when several do. *)
Definition templateIndex (transactions : list Value) (h : uint256) : option nat :=
  lastIndexOf h transactions 0.

(** [DependsOn] of entry [i] as the first two loops leave it. *)
Definition computedDependsOn (transactions : list Value) (blockReward : Z) (i : nat)
    : option (option nat) :=
  match analyseTransactions transactions blockReward with
  | Some (true, tree, _) => DependsOn <$> tree !! i
  | _ => None
  end.

(** [DependsOn] of entry [i] by the first input that spends a template
    transaction. *)
Definition dependsOnFirst (transactions : list Value) (i : nat)
    : option (option nat) :=
  txSrc ← transactions !! i;
  tx ← decodeEntry txSrc;
  Some (firstDependency (templateIndex transactions) (txIn tx)).

Definition overrideDependsOn (d : option nat) (n : TxTree) : TxTree :=
  match d with
  | Some j => setDependsOn j n
  | None => n
  end.

(** The coinbase outputs in the wording of section 4.E: a dev output "if
    DevFee > 0". *)
Definition specifiedOutputs {proto : ProtoTy} (w : Work) : list TxOut :=
  [mkTxOut (BlockReward_ w) (p2pkh w)]
    ++ (if DevFee w >? 0 then [mkTxOut (DevFee w) (DevScriptPubKey w)] else [])
    ++ (if SegwitEnabled w then [mkTxOut 0 (WitnessCommitment w)] else []).

(** The bytes of the stream that start at [ExtraNonceOffset]. *)
Definition extraNonceRegion (cb : CoinbaseTx) (n : nat) : list byte :=
  take n (drop (Z.to_nat (ExtraNonceOffset cb)) (Data cb)).

Definition isLowerHex (c : ascii) : bool :=
  let n := ZOfAscii c in
  ((48 <=? n) && (n <=? 57)) || ((97 <=? n) && (n <=? 102)).

(** ** The fan-in helper [MultiCall<T>] *)

Module MultiCall.
Section WithT.

Context {T : Type}.

(** The object: [Data], the atomic counter, [TotalCallsNum]; [calls] logs
    the calls of [MainCallback] with the array and size passed, [deleted]
    is set by [delete this]. *)
Record t := mk {
  Data : list T;
  FinishedCallsNum : Z;
  TotalCallsNum : Z;
  calls : list (list T * Z);
  deleted : bool
}.

(** The constructor; [d] is the value of a default-initialised [T]. *)
Definition create (d : T) (totalCallsNum : Z) : t :=
  mk (replicate (Z.to_nat (trunc32 totalCallsNum)) d) 0 (trunc32 totalCallsNum)
    [] false.

(** The callback [generateCallback(callNum)] returns, in two steps: the
    store [Data[callNum] = data], then [++FinishedCallsNum == TotalCallsNum]
    with lines 22-23, taken as one access to the object.  The finer view,
    where the increment and the read of [TotalCallsNum] are two accesses,
    is [access] below. *)
Inductive event :=
| Store (callNum : nat) (data : T)
| Finish (callNum : nat).

(** One step; [None] is a step on a deleted object or a store outside the
    array. *)
Definition step (m : t) (e : event) : option t :=
  if deleted m then None
  else
    match e with
    | Store callNum data =>
        if (callNum <? length (Data m))%nat
        then Some (mk (<[callNum := data]> (Data m)) (FinishedCallsNum m)
                     (TotalCallsNum m) (calls m) false)
        else None
    | Finish _ =>
        let n := trunc32 (FinishedCallsNum m + 1) in
        if n =? TotalCallsNum m
        then Some (mk (Data m) n (TotalCallsNum m)
                     (calls m ++ [(Data m, TotalCallsNum m)]) true)
        else Some (mk (Data m) n (TotalCallsNum m) (calls m) false)
    end.

Fixpoint run (m : t) (es : list event) : option t :=
  match es with
  | [] => Some m
  | e :: es' =>
      match step m e with
      | Some m' => run m' es'
      | None => None
      end
  end.

Fixpoint countFinish (es : list event) : nat :=
  match es with
  | [] => O
  | Finish _ :: es' => S (countFinish es')
  | _ :: es' => countFinish es'
  end.

(** The accesses to the object that one call of a generated callback makes
    (lines 20-21): the store [Data[callNum] = data], the atomic increment
    [++FinishedCallsNum], and the read of the plain member [TotalCallsNum]
    the new count is compared with.  The two operands of [==] are not
    sequenced with respect to each other: a callback increments and reads
    in either order, and other callbacks run in between. *)
Inductive access :=
| Write (callNum : nat) (data : T)
| Increment (callNum : nat)
| Read (callNum : nat).

(** The object together with what the callbacks hold in registers: the
    count each got from its increment and the total each read, if any.
    There is one pair of registers for each [callNum]: the callbacks are
    taken to be called once each at most. *)
Record calling := mkCalling {
  object : t;
  counted : gmap nat Z;
  totals : gmap nat Z
}.

Definition start (d : T) (totalCallsNum : Z) : calling :=
  mkCalling (create d totalCallsNum) ∅ ∅.

(** The comparison, once a callback has both operands, and lines 22-23 when
    they are equal. *)
Definition compare (m : t) (count total : Z) : t :=
  if count =? total
  then mk (Data m) (FinishedCallsNum m) (TotalCallsNum m)
         (calls m ++ [(Data m, TotalCallsNum m)]) true
  else m.

(** One access; [None] is an access to the deleted object (each of the
    three reads or writes a member of it) or a store outside the array. *)
Definition perform (s : calling) (e : access) : option calling :=
  let m := object s in
  if deleted m then None
  else
    match e with
    | Write callNum data =>
        if (callNum <? length (Data m))%nat
        then Some (mkCalling
                     (mk (<[callNum := data]> (Data m)) (FinishedCallsNum m)
                        (TotalCallsNum m) (calls m) false)
                     (counted s) (totals s))
        else None
    | Increment callNum =>
        let count := trunc32 (FinishedCallsNum m + 1) in
        let m1 := mk (Data m) count (TotalCallsNum m) (calls m) false in
        Some (mkCalling
                (match totals s !! callNum with
                 | Some total => compare m1 count total
                 | None => m1
                 end)
                (<[callNum := count]> (counted s)) (totals s))
    | Read callNum =>
        let total := TotalCallsNum m in
        Some (mkCalling
                (match counted s !! callNum with
                 | Some count => compare m count total
                 | None => m
                 end)
                (counted s) (<[callNum := total]> (totals s)))
    end.

Fixpoint performAll (s : calling) (es : list access) : option calling :=
  match es with
  | [] => Some s
  | e :: es' =>
      match perform s e with
      | Some s' => performAll s' es'
      | None => None
      end
  end.

(** Where each generated callback stands in a schedule. *)
Inductive stage := Idle | Stored | Counted | Loaded | Done.

Definition follow (p : list stage) (e : access) : option (list stage) :=
  match e with
  | Write callNum _ =>
      match p !! callNum with
      | Some Idle => Some (<[callNum := Stored]> p)
      | _ => None
      end
  | Increment callNum =>
      match p !! callNum with
      | Some Stored => Some (<[callNum := Counted]> p)
      | Some Loaded => Some (<[callNum := Done]> p)
      | _ => None
      end
  | Read callNum =>
      match p !! callNum with
      | Some Stored => Some (<[callNum := Loaded]> p)
      | Some Counted => Some (<[callNum := Done]> p)
      | _ => None
      end
  end.

Fixpoint followAll (p : list stage) (es : list access) : option (list stage) :=
  match es with
  | [] => Some p
  | e :: es' =>
      match follow p e with
      | Some p' => followAll p' es'
      | None => None
      end
  end.

(** A schedule in which each of the [n] callbacks is called exactly once:
    its store first, then its increment and its read in either order, in
    any interleaving with the accesses of the others. *)
Definition eachOnce (n : nat) (es : list access) : Prop :=
  followAll (replicate n Idle) es = Some (replicate n Done).

(** Every callback reads [TotalCallsNum] before it increments; [read]
    lists the callbacks that have read. *)
Fixpoint readsFirst (read : list nat) (es : list access) : bool :=
  match es with
  | [] => true
  | Read callNum :: es' => readsFirst (callNum :: read) es'
  | Increment callNum :: es' =>
      existsb (Nat.eqb callNum) read && readsFirst read es'
  | Write _ _ :: es' => readsFirst read es'
  end.

(** The callbacks that have incremented. *)
Definition hasCounted (x : stage) : bool :=
  match x with
  | Counted | Done => true
  | _ => false
  end.

Fixpoint incremented (p : list stage) : nat :=
  match p with
  | [] => O
  | x :: p' => ((if hasCounted x then 1 else 0) + incremented p')%nat
  end.

Definition hasRead (x : stage) : bool :=
  match x with
  | Loaded | Done => true
  | _ => false
  end.

(** What holds of the object and the registers as long as the object
    lives, [p] being the stages of the [n] callbacks. *)
Record live (n : nat) (s : calling) (p : list stage) : Prop := {
  live_deleted : deleted (object s) = false;
  live_calls : calls (object s) = [];
  live_total : TotalCallsNum (object s) = Z.of_nat n;
  live_bound : Z.of_nat n < 2 ^ 32;
  live_data : length (Data (object s)) = n;
  live_stages : length p = n;
  live_count : FinishedCallsNum (object s) = Z.of_nat (incremented p);
  live_uncounted :
    forall c x, p !! c = Some x -> hasCounted x = false -> counted s !! c = None;
  live_counted :
    forall c, p !! c = Some Counted ->
              exists k, counted s !! c = Some k /\ k <= Z.of_nat (incremented p);
  live_unread :
    forall c x, p !! c = Some x -> hasRead x = false -> totals s !! c = None;
  live_loaded :
    forall c, p !! c = Some Loaded -> totals s !! c = Some (Z.of_nat n);
  live_last :
    incremented p = n ->
    exists c, p !! c = Some Counted /\ counted s !! c = Some (Z.of_nat n)
}.

End WithT.

Arguments t T : clear implicits.
Arguments event T : clear implicits.
Arguments access T : clear implicits.
Arguments calling T : clear implicits.

End MultiCall.

(** ** What the further properties are phrased with *)

(** The fields of a template that passes the checks of lines 186-212. *)
Definition templateFields (blockTemplate : Value)
    : option (Z * Z * string * Z * string * Z * list Value) :=
  match member blockTemplate "height", member blockTemplate "version",
        member blockTemplate "previousblockhash",
        member blockTemplate "curtime", member blockTemplate "bits",
        member blockTemplate "coinbasevalue",
        member blockTemplate "transactions" with
  | Some (JInt height), Some (JInt version), Some (JString hashPrevBlock),
    Some (JInt curtime), Some (JString bits), Some (JInt coinbaseValue),
    Some (JArray transactions) =>
      if IsUint64 (JInt height) && IsUint (JInt version) && IsUint (JInt curtime)
         && IsInt64 (JInt coinbaseValue)
      then Some (height, version, hashPrevBlock, curtime, bits, coinbaseValue,
                 transactions)
      else None
  | _, _, _, _, _, _, _ => None
  end.

(** Line 221: whether the filter runs. *)
Definition usesFilter (w : Work) (transactions : list Value) : bool :=
  negb (TxNumLimit (MiningCfg_ w) =? 0)%nat
  && (TxNumLimit (MiningCfg_ w) <? length transactions)%nat.

(** The bytes a call has appended to a stream that held those of [old]. *)
Definition appended (old cb : CoinbaseTx) : list byte :=
  drop (length (Data old)) (Data cb).

(** [n] bytes of [bytes] from [offset] on. *)
Definition regionAt (bytes : list byte) (offset : Z) (n : nat) : list byte :=
  take n (drop (Z.to_nat offset) bytes).

(** The scriptSig of the first input. *)
Definition firstScriptSig (tx : Transaction) : list byte :=
  match txIn tx with
  | i :: _ => scriptSig i
  | [] => []
  end.

(** The extra data handed to [buildCoinbaseTx], empty for a null pointer. *)
Definition coinbaseExtra (coinbaseData : option (list byte)) : list byte :=
  match coinbaseData with Some d => d | None => [] end.

(** Further data for closed examples. *)
Module Scenarios.

(** A document without a [result] member. *)
Definition noResult : Value := JObject [].

(** A compact target whose mantissa is zero. *)
Definition zeroMantissaBits : Z := 486539264.

(** A work with a limit of two transactions. *)
Definition limit2 : Work := Examples.freshWork 2 "hi".

(** The fields of [Examples.document]. *)
Definition blockTemplate (transactions : list Value) : Value :=
  JObject [("height"%string, JInt 700000);
           ("version"%string, JInt 536870912);
           ("previousblockhash"%string, JString (GetHex 17));
           ("curtime"%string, JInt 1600000000);
           ("bits"%string, JString "170b2c70");
           ("coinbasevalue"%string, JInt 625000000);
           ("transactions"%string, JArray transactions)].

(** A work at height 700000 with a two-character message. *)
Definition shortWork : Work :=
  setTemplateData (Examples.freshWork 0 "hi") 700000 625000000 false 0 [] [].

(** The coinbase of [shortWork], built on the streams another load has
    filled already, with four fixed and four mutable extra nonce bytes. *)
Definition rebuilt : CoinbaseTx * CoinbaseTx :=
  buildCoinbaseTx (proto := Examples.BTC) shortWork None (Examples.config 0)
    (CBTxLegacy_ Examples.loaded) (CBTxWitness_ Examples.loaded).

Definition shortExtra : list byte :=
  coinbaseExtra None ++ bytesOfString (CoinbaseMessage_ shortWork).

Definition shortSig : list byte :=
  firstScriptSig (coinbaseTx (proto := Examples.BTC) shortWork None
                    (Examples.config 0)).

(** Two callbacks of a [MultiCall<unsigned>]: the second delivers 7, the
    first delivers 5, reads the total and then counts; the second counts
    and then reads the total. *)
Definition twoCalls : list (MultiCall.access nat) :=
  [MultiCall.Write 1 7%nat; MultiCall.Write 0 5%nat; MultiCall.Read 0;
   MultiCall.Increment 0; MultiCall.Increment 1; MultiCall.Read 1].

(** Both callbacks count before they read the total, and the second, whose
    count is the total, reads first. *)
Definition lateRead : list (MultiCall.access nat) :=
  [MultiCall.Write 0 5%nat; MultiCall.Write 1 7%nat; MultiCall.Increment 0;
   MultiCall.Increment 1; MultiCall.Read 1; MultiCall.Read 0].

(** Of two callbacks only the first has run. *)
Definition firstCall : list (MultiCall.event nat) :=
  [MultiCall.Store 0 5%nat; MultiCall.Finish 0].

Definition afterFirstCall : MultiCall.t nat :=
  MultiCall.mk [5%nat; 0%nat] 1 2 [] false.

End Scenarios.

(** * Properties *)

(** ** Arithmetic and byte strings *)

Lemma wrap64_sub (a b : Z) : wrap64 (wrap64 a - b) = wrap64 (a - b).
Proof.
  unfold wrap64.
  replace ((a + 2 ^ 63) mod 2 ^ 64 - 2 ^ 63 - b + 2 ^ 63)
    with ((a + 2 ^ 63) mod 2 ^ 64 - b) by ring.
  rewrite Zminus_mod_idemp_l. f_equal. f_equal. ring.
Qed.

Lemma wrap64_id (z : Z) : inInt64 z -> wrap64 z = z.
Proof.
  unfold inInt64, wrap64. intros Hz.
  rewrite Z.mod_small; lia.
Qed.

Lemma leBytes_length (n : nat) (z : Z) : length (leBytes n z) = n.
Proof.
  revert z. induction n as [|n IH]; intros z; simpl; [reflexivity|].
  now rewrite IH.
Qed.

Lemma serializeHeader_length (h : BlockHeader) : length (serializeHeader h) = 80%nat.
Proof.
  unfold serializeHeader. rewrite !length_app, !leBytes_length. reflexivity.
Qed.

Lemma string_append_assoc (a b c : string) :
  ((a ++ b) ++ c = a ++ (b ++ c))%string.
Proof.
  induction a as [|x a IH]; [reflexivity|].
  change (String x ((a ++ b) ++ c) = String x (a ++ (b ++ c)))%string.
  now rewrite IH.
Qed.

Lemma bin2hexLowerCase_app (a b : list byte) :
  bin2hexLowerCase (a ++ b) = (bin2hexLowerCase a ++ bin2hexLowerCase b)%string.
Proof.
  induction a as [|x a IH]; simpl; [reflexivity|].
  now rewrite IH.
Qed.

Lemma lowerHexDigit_lower (v : Z) : 0 <= v < 16 -> isLowerHex (lowerHexDigit v) = true.
Proof.
  intros Hv.
  assert (Hcases : v = 0 \/ v = 1 \/ v = 2 \/ v = 3 \/ v = 4 \/ v = 5 \/ v = 6
                   \/ v = 7 \/ v = 8 \/ v = 9 \/ v = 10 \/ v = 11 \/ v = 12
                   \/ v = 13 \/ v = 14 \/ v = 15) by lia.
  repeat (destruct Hcases as [-> | Hcases]; [reflexivity|]).
  subst v. reflexivity.
Qed.

Lemma ZOfByte_range (b : byte) : 0 <= ZOfByte b < 256.
Proof. destruct b; vm_compute; split; congruence. Qed.

Lemma bin2hexLowerCase_lower (bs : list byte) :
  forallb isLowerHex (list_ascii_of_string (bin2hexLowerCase bs)) = true.
Proof.
  induction bs as [|b bs IH]; simpl; [reflexivity|].
  pose proof (ZOfByte_range b) as Hb.
  rewrite !lowerHexDigit_lower, IH; [reflexivity| |].
  - apply Z.mod_pos_bound. lia.
  - split; [apply Z.div_pos; lia | apply Z.div_lt_upper_bound; lia].
Qed.

(** ** [getDifficulty]: termination *)

Lemma shiftOf_range (bits : Z) : 0 <= shiftOf bits <= 255.
Proof.
  unfold shiftOf.
  assert (Hland : Z.land (Z.shiftr bits 24) 255 = Z.shiftr bits 24 mod 2 ^ 8)
    by (change 255 with (Z.ones 8); apply Z.land_ones; lia).
  rewrite Hland.
  pose proof (Z.mod_pos_bound (Z.shiftr bits 24) (2 ^ 8) ltac:(lia)) as Hm.
  lia.
Qed.

(** The first loop raises [nShift] to 29 in [29 - nShift] iterations. *)
Lemma while_raise (fuel : nat) :
  forall (n : Z) (d : float),
    (Z.to_nat (29 - n) <= fuel)%nat ->
    exists d', while fuel below29 raiseShift (n, d)
               = Some ((Z.max n 29, d'), Z.to_nat (29 - n)).
Proof.
  induction fuel as [|fuel IH]; intros n d Hfuel.
  - assert (29 <= n) by lia.
    exists d. simpl. unfold below29. simpl.
    destruct (Z.ltb_spec n 29); [lia|].
    replace (Z.max n 29) with n by lia.
    replace (Z.to_nat (29 - n)) with O by lia. reflexivity.
  - simpl. unfold below29 at 1. simpl.
    destruct (Z.ltb_spec n 29) as [Hlt|Hge].
    + destruct (IH (n + 1) (d * doubleOfInt 256)%float) as [d' Hd']; [lia|].
      exists d'.
      change (raiseShift (n, d)) with (n + 1, (d * doubleOfInt 256)%float).
      rewrite Hd'.
      replace (Z.max (n + 1) 29) with (Z.max n 29) by lia.
      replace (Z.to_nat (29 - n)) with (S (Z.to_nat (29 - (n + 1)))) by lia.
      reflexivity.
    + exists d.
      replace (Z.max n 29) with n by lia.
      replace (Z.to_nat (29 - n)) with O by lia. reflexivity.
Qed.

(** The second loop lowers [nShift] to 29 in [nShift - 29] iterations. *)
Lemma while_lower (fuel : nat) :
  forall (n : Z) (d : float),
    (Z.to_nat (n - 29) <= fuel)%nat ->
    exists d', while fuel above29 lowerShift (n, d)
               = Some ((Z.min n 29, d'), Z.to_nat (n - 29)).
Proof.
  induction fuel as [|fuel IH]; intros n d Hfuel.
  - assert (n <= 29) by lia.
    exists d. simpl. unfold above29. simpl.
    destruct (Z.gtb_spec n 29); [lia|].
    replace (Z.min n 29) with n by lia.
    replace (Z.to_nat (n - 29)) with O by lia. reflexivity.
  - simpl. unfold above29 at 1. simpl.
    destruct (Z.gtb_spec n 29) as [Hgt|Hle].
    + destruct (IH (n - 1) (d / doubleOfInt 256)%float) as [d' Hd']; [lia|].
      exists d'.
      change (lowerShift (n, d)) with (n - 1, (d / doubleOfInt 256)%float).
      rewrite Hd'.
      replace (Z.min (n - 1) 29) with (Z.min n 29) by lia.
      replace (Z.to_nat (n - 29)) with (S (Z.to_nat (n - 1 - 29))) by lia.
      reflexivity.
    + exists d.
      replace (Z.min n 29) with n by lia.
      replace (Z.to_nat (n - 29)) with O by lia. reflexivity.
Qed.

(** More fuel does not change what a loop returns. *)
Lemma while_more_fuel {St : Type} (cond : St -> bool) (body : St -> St) (fuel : nat) :
  forall (s : St) (r : St * nat) (spare : nat),
    while fuel cond body s = Some r ->
    while (fuel + spare) cond body s = Some r.
Proof.
  induction fuel as [|fuel IH]; intros s r spare; simpl.
  - destruct (cond s) eqn:Hc; [discriminate|].
    intros <-. destruct spare; simpl; now rewrite Hc.
  - destruct (cond s); [|auto].
    destruct (while fuel cond body (body s)) as [[s' n]|] eqn:Hw; [|discriminate].
    intros <-. now rewrite (IH _ _ spare Hw).
Qed.

(** C10. [getDifficulty] returns for every [bits]: run with 226 iterations
    or more at hand, the two loops end after exactly
    [|((bits >> 24) & 0xff) - 29|] iterations together, and every iteration
    brings [nShift] one closer to 29. *)
Theorem getDifficulty_terminates (bits : Z) (spare : nat) :
  getDifficultyRun (226 + spare) bits
  = Some (getDifficulty bits, Z.to_nat (Z.abs (shiftOf bits - 29)))
  /\ (forall s, below29 s = true ->
                Z.abs (fst (raiseShift s) - 29) = Z.abs (fst s - 29) - 1)
  /\ (forall s, above29 s = true ->
                Z.abs (fst (lowerShift s) - 29) = Z.abs (fst s - 29) - 1).
Proof.
  pose proof (shiftOf_range bits) as Hr.
  split; [|split].
  - unfold getDifficulty, getDifficultyRun.
    destruct (while_raise 226 (shiftOf bits)
                (doubleOfInt 65535 / doubleOfInt (Z.land bits 16777215))%float)
      as [d1 H1]; [lia|].
    destruct (while_lower 226 (Z.max (shiftOf bits) 29) d1) as [d2 H2]; [lia|].
    rewrite H1, H2.
    rewrite (while_more_fuel _ _ 226 _ _ spare H1).
    rewrite (while_more_fuel _ _ 226 _ _ spare H2).
    cbv beta iota delta [snd].
    replace (Z.to_nat (29 - shiftOf bits)
             + Z.to_nat (Z.max (shiftOf bits) 29 - 29))%nat
      with (Z.to_nat (Z.abs (shiftOf bits - 29))) by lia.
    reflexivity.
  - intros [n d]. unfold below29, raiseShift. simpl.
    intros H. apply Z.ltb_lt in H. lia.
  - intros [n d]. unfold above29, lowerShift. simpl.
    intros H. apply Z.gtb_lt in H. lia.
Qed.

(** Section 8, property 6 of the design: difficulty 1 at [0x1d00ffff]. *)
Example getDifficulty_one : getDifficulty 486604799 = 1%float.
Proof. vm_compute. reflexivity. Qed.

(** ** [buildBlock]: the layout of the block *)

(** C7. The block text is the lowercase hexadecimal form of the 80-byte
    header, of CompactSize([TxNum_ + 1]) and of the witness-form coinbase
    stream, followed by the stored transaction text [TxHexData] as it is. *)
Theorem buildBlock_layout (w : Work) :
  buildBlock w
  = (bin2hexLowerCase (serializeHeader (Header w))
     ++ bin2hexLowerCase (serializeVarSize (TxNum_ w + 1))
     ++ bin2hexLowerCase (Data (CBTxWitness_ w))
     ++ TxHexData w)%string
  /\ length (serializeHeader (Header w)) = 80%nat
  /\ forallb isLowerHex
       (list_ascii_of_string
          (bin2hexLowerCase
             (serializeHeader (Header w) ++ serializeVarSize (TxNum_ w + 1)
              ++ Data (CBTxWitness_ w)))) = true.
Proof.
  split; [|split].
  - unfold buildBlock, buildBlockImpl.
    rewrite bin2hexLowerCase_app.
    now rewrite !string_append_assoc.
  - apply serializeHeader_length.
  - apply bin2hexLowerCase_lower.
Qed.

(** ** [transactionFilter]: the reward accumulator *)

Lemma wrap64_range (z : Z) : inInt64 (wrap64 z).
Proof.
  unfold inInt64, wrap64.
  pose proof (Z.mod_pos_bound (z + 2 ^ 63) (2 ^ 64) ltac:(lia)). lia.
Qed.

Lemma wrap64_sub_sub (r f s : Z) :
  wrap64 (sub64 r f - s) = wrap64 (r - (f + s)).
Proof.
  unfold sub64. rewrite wrap64_sub. f_equal. ring.
Qed.

(** What a filled node carries. *)
Lemma readEntry_node (txSrc : Value) (node : TxTree) :
  readEntry txSrc = Some (Some node) ->
  fieldsOk txSrc = true /\ Fee node = feeOf txSrc
  /\ DependsOn node = None /\ Visited node = false
  /\ txidOf txSrc = Some (TxId (TreeData node)).
Proof.
  unfold readEntry, fieldsOk, feeOf, txidOf.
  destruct (IsObject txSrc); simpl; [|discriminate].
  destruct (hasTyped txSrc "data" IsString); simpl; [|discriminate].
  destruct (hasTyped txSrc "txid" IsString); simpl; [|discriminate].
  destruct (hasTyped txSrc "fee" IsInt64); simpl; [|discriminate].
  destruct (member txSrc "data") as [[]|]; try discriminate.
  destruct (member txSrc "txid") as [[]|]; try discriminate.
  destruct (member txSrc "fee") as [[]|]; try discriminate.
  destruct (member txSrc "hash") as [[]|]; try discriminate;
    intros [= <-]; simpl; auto.
Qed.

Lemma readEntry_checked (txSrc : Value) :
  assertFree txSrc = true ->
  if fieldsOk txSrc then exists node, readEntry txSrc = Some (Some node)
  else readEntry txSrc = Some None.
Proof.
  unfold assertFree, readEntry, fieldsOk, hasTyped.
  destruct (IsObject txSrc); simpl; [|discriminate].
  destruct (member txSrc "data") as [d|]; simpl; [|reflexivity].
  destruct d; simpl; try reflexivity.
  destruct (member txSrc "txid") as [t|]; simpl; [|reflexivity].
  destruct t; simpl; try reflexivity.
  destruct (member txSrc "fee") as [f|]; simpl; [|reflexivity].
  destruct f; simpl; try reflexivity.
  destruct ((- 2 ^ 63 <=? z) && (z <? 2 ^ 63)); simpl; [|reflexivity].
  destruct (member txSrc "hash") as [h|]; [|eauto].
  destruct h; simpl; try discriminate. eauto.
Qed.

(** ** [transactionFilter]: a rejected array *)

(** The first loop on an array free of assertion failures: it goes through
    [scanned] entries and subtracts their fees. *)
Lemma scanTransactions_scanned (transactions : list Value) :
  forall i txTree txidMap blockReward,
    forallb assertFree transactions = true ->
    exists txTree' txidMap' blockReward',
      scanTransactions transactions i txTree txidMap blockReward
      = Some ((scanned transactions =? length transactions)%nat,
              txTree', txidMap', blockReward')
      /\ wrap64 blockReward'
         = wrap64 (blockReward - sumFees (take (scanned transactions) transactions))
      /\ (inInt64 blockReward -> inInt64 blockReward').
Proof.
  induction transactions as [|txSrc rest IH];
    intros i txTree txidMap blockReward Hfree; simpl.
  - exists txTree, txidMap, blockReward.
    split; [reflexivity|]. split; [f_equal; ring | auto].
  - simpl in Hfree. apply andb_true_iff in Hfree as [Hfree Hrest].
    pose proof (readEntry_checked txSrc Hfree) as Hentry.
    destruct (fieldsOk txSrc).
    + destruct Hentry as [node Hnode]. rewrite Hnode.
      destruct (IH (S i) (<[i := node]> txTree)
                  (<[TxId (TreeData node) := i]> txidMap)
                  (sub64 blockReward (Fee node)) Hrest)
        as (txTree' & txidMap' & blockReward' & Hscan & Heq & Hrange).
      exists txTree', txidMap', blockReward'.
      apply readEntry_node in Hnode as (_ & Hfee & _).
      split; [exact Hscan|]. split.
      * rewrite Heq, wrap64_sub_sub, Hfee. reflexivity.
      * intros _. apply Hrange, wrap64_range.
    + rewrite Hentry. exists txTree, txidMap, blockReward.
      split; [reflexivity|]. split; [f_equal; simpl; ring | auto].
Qed.

Lemma scanned_bounds (transactions : list Value) :
  (scanned transactions <= length transactions)%nat
  /\ (scanned transactions = length transactions ->
      forallb fieldsOk transactions = true).
Proof.
  induction transactions as [|txSrc rest [IHle IHall]]; simpl; [auto|].
  destruct (fieldsOk txSrc); simpl; split; try lia.
  intros [= Heq]. auto.
Qed.

(** The first invalid entry is not before the place where the first loop
    stops, and it is that place when its fields are at fault. *)
Lemma firstInvalid_scanned (transactions : list Value) :
  forall k,
    firstInvalid transactions = Some k ->
    (k <= scanned transactions)%nat
    /\ (forall txSrc, transactions !! k = Some txSrc ->
                      fieldsOk txSrc = false -> scanned transactions = k).
Proof.
  induction transactions as [|txSrc rest IH]; intros k; simpl; [discriminate|].
  destruct (fieldsOk txSrc) eqn:Hfields; simpl.
  - destruct (decodes txSrc); simpl.
    + destruct (firstInvalid rest) as [k'|]; [|discriminate].
      intros [= <-]. destruct (IH k' eq_refl) as [Hle Hat].
      split; [lia|]. simpl. intros v Hv Hbad. f_equal. eauto.
    + intros [= <-]. split; [lia|].
      simpl. intros v [= <-] Hbad. congruence.
  - intros [= <-]. auto.
Qed.

(** The second loop stops at an entry that does not decode. *)
Lemma resolveDependencies_invalid (transactions : list Value) :
  forall i txidMap txTree k,
    forallb assertFree transactions = true ->
    forallb fieldsOk transactions = true ->
    firstInvalid transactions = Some k ->
    exists txTree', resolveDependencies transactions i txidMap txTree
                    = Some (false, txTree').
Proof.
  induction transactions as [|txSrc rest IH];
    intros i txidMap txTree k Hfree Hfields; simpl; [discriminate|].
  simpl in Hfree, Hfields.
  apply andb_true_iff in Hfree as [Hfree Hfree'].
  apply andb_true_iff in Hfields as [Hfields Hfields'].
  unfold assertFree in Hfree. apply andb_true_iff in Hfree as [Hobj _].
  rewrite Hobj, Hfields. simpl. unfold decodes.
  destruct (decodeEntry txSrc) as [tx|]; [|eauto].
  destruct (firstInvalid rest) as [k'|]; [|discriminate].
  intros _. eapply IH; eauto.
Qed.

(** C9. [transactionFilter] is not atomic in [*blockReward]: when the array
    has an invalid entry, the first at index [k], the call returns false
    and leaves [*blockReward] lowered by the fees of the entries the first
    loop went through before the failure, [result] untouched.  These are
    the entries before the first one whose fields are missing or mistyped
    (exactly those before [k] when entry [k] is at fault by its fields), or
    all entries when the failure is a transaction that does not decode. *)
Theorem transactionFilter_not_atomic {fns : BtcLikeFunctions}
    (fuel : nat) (transactions : list Value) (k txNumLimit : nat)
    (result : list TxData) (blockReward : Z) (sortByHash : bool) :
  inInt64 blockReward ->
  forallb assertFree transactions = true ->
  firstInvalid transactions = Some k ->
  transactionFilter fuel transactions txNumLimit result blockReward sortByHash
  = Some (false, result,
          wrap64 (blockReward - sumFees (take (scanned transactions) transactions)))
  /\ (k <= scanned transactions <= length transactions)%nat
  /\ (forall txSrc, transactions !! k = Some txSrc ->
                    fieldsOk txSrc = false -> scanned transactions = k).
Proof.
  intros Hrange Hfree Hinvalid.
  destruct (firstInvalid_scanned transactions k Hinvalid) as [Hle Hat].
  destruct (scanned_bounds transactions) as [Hlen Hall].
  split; [|split; [lia | exact Hat]].
  unfold transactionFilter, analyseTransactions.
  destruct (scanTransactions_scanned transactions 0
              (replicate (length transactions) defaultTxTree) ∅ blockReward Hfree)
    as (tree1 & map1 & reward1 & Hscan & Heq & Hin).
  rewrite Hscan.
  assert (Hreward : reward1
                    = wrap64 (blockReward
                              - sumFees (take (scanned transactions) transactions)))
    by (rewrite <- Heq; symmetry; apply wrap64_id; auto).
  destruct (Nat.eqb_spec (scanned transactions) (length transactions)) as [Hfull|Hpart].
  - destruct (resolveDependencies_invalid transactions 0 map1 tree1 k
                Hfree (Hall Hfull) Hinvalid) as [tree2 Hres].
    rewrite Hres, Hreward. reflexivity.
  - rewrite Hreward. reflexivity.
Qed.

Lemma transactionFilter_not_atomic_witness :
  transactionFilter (fns := Examples.functions) 8 Examples.template4bad 2 [] 1000 false
  = Some (false, [],
          wrap64 (1000 - sumFees (take (scanned Examples.template4bad)
                                    Examples.template4bad)))
  /\ (2 <= scanned Examples.template4bad <= length Examples.template4bad)%nat
  /\ (forall txSrc, Examples.template4bad !! 2%nat = Some txSrc ->
                    fieldsOk txSrc = false -> scanned Examples.template4bad = 2%nat).
Proof.
  apply (transactionFilter_not_atomic (fns := Examples.functions) 8
           Examples.template4bad 2 2 [] 1000 false).
  - unfold inInt64. lia.
  - vm_compute. reflexivity.
  - vm_compute. reflexivity.
Defined.

(** ** [transactionFilter]: the dependency of an entry *)

Lemma lastDependency_ext (f g : uint256 -> option nat) (ins : list TxIn) :
  (forall h, f h = g h) -> lastDependency f ins = lastDependency g ins.
Proof.
  intros Hext. induction ins as [|txin rest IH]; simpl; [reflexivity|].
  now rewrite IH, Hext.
Qed.

(** The inner loop over the inputs keeps the last match. *)
Lemma findDependencies_alter (txidMap : gmap Z nat) (i : nat) (ins : list TxIn) :
  forall txTree,
    findDependencies txidMap i ins txTree
    = alter (overrideDependsOn (lastDependency (fun h => txidMap !! h) ins)) i txTree.
Proof.
  unfold findDependencies.
  induction ins as [|txin rest IH]; intros txTree; simpl.
  - symmetry. now apply list_alter_id.
  - rewrite IH.
    destruct (lastDependency (fun h => txidMap !! h) rest) as [j|]; simpl.
    + destruct (txidMap !! previousOutputHash txin) as [j'|]; [|reflexivity].
      rewrite list_alter_alter_eq. now apply list_alter_ext.
    + rewrite list_alter_id by reflexivity.
      destruct (txidMap !! previousOutputHash txin) as [j'|]; simpl; [reflexivity|].
      symmetry. now apply list_alter_id.
Qed.

(** The first loop: the nodes it fills and the map it builds. *)
Lemma scanTransactions_tree (transactions : list Value) :
  forall i txTree txidMap blockReward txTree' txidMap' blockReward',
    scanTransactions transactions i txTree txidMap blockReward
    = Some (true, txTree', txidMap', blockReward') ->
    length txTree' = length txTree
    /\ (forall p txSrc,
           transactions !! p = Some txSrc -> (i + p < length txTree)%nat ->
           exists node, readEntry txSrc = Some (Some node)
                        /\ txTree' !! (i + p)%nat = Some node)
    /\ (forall j, (j < i)%nat -> txTree' !! j = txTree !! j)
    /\ (forall h, txidMap' !! h
                  = match lastIndexOf h transactions i with
                    | Some j => Some j
                    | None => txidMap !! h
                    end).
Proof.
  induction transactions as [|txSrc rest IH];
    intros i txTree txidMap blockReward txTree' txidMap' blockReward'; simpl.
  - intros [= <- <- _]. repeat split; auto.
    intros p v Hp. now rewrite lookup_nil in Hp.
  - destruct (readEntry txSrc) as [[node|]|] eqn:Hentry; try discriminate.
    intros Hscan.
    apply IH in Hscan as (Hlen & Hnodes & Hbelow & Hmap).
    rewrite length_insert in Hlen, Hnodes.
    split; [exact Hlen|]. split; [|split].
    + intros [|p] v Hv Hin.
      * simpl in Hv. injection Hv as <-. exists node. split; [exact Hentry|].
        rewrite Nat.add_0_r, Hbelow by lia.
        apply list_lookup_insert_eq. lia.
      * simpl in Hv. destruct (Hnodes p v Hv) as (n & Hn & Hat); [lia|].
        exists n. split; [exact Hn|].
        now replace (i + S p)%nat with (S i + p)%nat by lia.
    + intros j Hj. rewrite Hbelow by lia.
      apply list_lookup_insert_ne. lia.
    + intros h. rewrite Hmap.
      destruct (lastIndexOf h rest (S i)) as [j|]; [reflexivity|].
      apply readEntry_node in Hentry as (_ & _ & _ & _ & Htxid).
      rewrite Htxid, lookup_insert.
      destruct (Z.eqb_spec (TxId (TreeData node)) h) as [Heq|Hne];
        case_decide; congruence.
Qed.

(** The second loop: every entry decodes and its node gets the last match
    of its inputs. *)
Lemma resolveDependencies_tree (transactions : list Value) :
  forall i txidMap txTree txTree',
    resolveDependencies transactions i txidMap txTree = Some (true, txTree') ->
    (forall p txSrc,
        transactions !! p = Some txSrc ->
        exists tx, decodeEntry txSrc = Some tx
                   /\ txTree' !! (i + p)%nat
                      = overrideDependsOn
                          (lastDependency (fun h => txidMap !! h) (txIn tx))
                        <$> txTree !! (i + p)%nat)
    /\ (forall j, (j < i)%nat -> txTree' !! j = txTree !! j).
Proof.
  induction transactions as [|txSrc rest IH];
    intros i txidMap txTree txTree'; simpl.
  - intros [= <-]. split; [|auto].
    intros p v Hp. now rewrite lookup_nil in Hp.
  - destruct (IsObject txSrc); simpl; [|discriminate].
    destruct (decodeEntry txSrc) as [tx|] eqn:Hdec; [|discriminate].
    rewrite findDependencies_alter.
    intros Hres. apply IH in Hres as [Hnodes Hbelow].
    split.
    + intros [|p] v Hv.
      * simpl in Hv. injection Hv as <-. exists tx. split; [exact Hdec|].
        rewrite Nat.add_0_r, Hbelow by lia.
        apply list_lookup_alter_eq.
      * simpl in Hv. destruct (Hnodes p v Hv) as (tx' & Htx' & Hat).
        exists tx'. split; [exact Htx'|].
        replace (i + S p)%nat with (S i + p)%nat by lia.
        rewrite Hat, list_lookup_alter_ne by lia. reflexivity.
    + intros j Hj. rewrite Hbelow by lia.
      apply list_lookup_alter_ne. lia.
Qed.

(** C4, as the code has it.  When the first two loops run through,
    [DependsOn] of every entry is the template index of the LAST of its
    inputs whose previous output hash is the txid of a template entry, and
    none when no input has one. *)
Theorem transactionFilter_dependsOn_last
    (transactions : list Value) (blockReward : Z) (tree : list TxTree)
    (blockReward' : Z) (i : nat) (txSrc : Value) :
  analyseTransactions transactions blockReward = Some (true, tree, blockReward') ->
  transactions !! i = Some txSrc ->
  exists tx, decodeEntry txSrc = Some tx
             /\ DependsOn <$> tree !! i
                = Some (lastDependency (templateIndex transactions) (txIn tx)).
Proof.
  intros Htree Hi.
  unfold analyseTransactions in Htree.
  destruct (scanTransactions transactions 0 _ _ blockReward)
    as [[[[ok1 tree1] map1] reward1]|] eqn:Hscan; [|discriminate].
  destruct ok1; [|discriminate].
  destruct (resolveDependencies transactions 0 map1 tree1)
    as [[ok2 tree2]|] eqn:Hres; [|discriminate].
  injection Htree as -> -> _.
  apply scanTransactions_tree in Hscan as (_ & Hnodes & _ & Hmap).
  apply resolveDependencies_tree in Hres as [Hdeps _].
  destruct (Hnodes i txSrc Hi) as (node & Hnode & Hat).
  { rewrite length_replicate. simpl. now apply lookup_lt_Some in Hi. }
  destruct (Hdeps i txSrc Hi) as (tx & Htx & Hdep).
  exists tx. split; [exact Htx|].
  simpl in Hat, Hdep. rewrite Hdep, Hat. simpl.
  apply readEntry_node in Hnode as (_ & _ & Hnone & _).
  rewrite (lastDependency_ext _ (templateIndex transactions)).
  - destruct (lastDependency (templateIndex transactions) (txIn tx));
      simpl; [reflexivity | now rewrite Hnone].
  - intros h. rewrite Hmap. unfold templateIndex.
    destruct (lastIndexOf h transactions 0); [reflexivity | apply lookup_empty].
Qed.

Lemma transactionFilter_dependsOn_last_witness :
  exists tx, decodeEntry (Examples.entry (Examples.spend [1; 2]) 3 30) = Some tx
             /\ DependsOn <$> Examples.tree4 !! 2%nat
                = Some (lastDependency (templateIndex Examples.template4) (txIn tx)).
Proof.
  apply (transactionFilter_dependsOn_last Examples.template4 1000 Examples.tree4 900).
  - vm_compute. reflexivity.
  - reflexivity.
Defined.

(** C4, as stated, fails: the third entry of the example spends template
    entries 0 and 1 in that order.  The first matching input is entry 0;
    the code leaves [DependsOn = 1]. *)
Lemma transactionFilter_dependsOn_not_first :
  computedDependsOn Examples.template4 1000 2 = Some (Some 1%nat)
  /\ dependsOnFirst Examples.template4 2 = Some (Some 0%nat).
Proof. split; vm_compute; reflexivity. Qed.

(** ** The constructor and [ready] *)

(** C6, as the code has it.  A mining address of the wrong size leaves the
    work uninitialised and [MiningAddress_] unset; [ready] does not look at
    that flag, it tells whether the backend pointer is set. *)
Theorem WorkTy_address_mismatch {proto : ProtoTy} (backend : option nat)
    (miningCfg : MiningConfig) (miningAddress : list byte) (coinbaseMessage : string) :
  length miningAddress <> sizeofAddressTy ->
  Initialized_ (WorkTy backend miningCfg miningAddress coinbaseMessage) = false
  /\ MiningAddress_ (WorkTy backend miningCfg miningAddress coinbaseMessage)
     = replicate sizeofAddressTy x00
  /\ ready (WorkTy backend miningCfg miningAddress coinbaseMessage)
     = match backend with Some _ => true | None => false end.
Proof.
  intros Hsize. unfold WorkTy, ready. simpl.
  destruct (Nat.eqb_spec (length miningAddress) sizeofAddressTy); [contradiction|].
  auto.
Qed.

Lemma WorkTy_address_mismatch_witness :
  Initialized_ (WorkTy (proto := Examples.BTC) (Some 0%nat) (Examples.config 0)
                  (replicate 19 x00) "")
  = false
  /\ MiningAddress_ (WorkTy (proto := Examples.BTC) (Some 0%nat) (Examples.config 0)
                       (replicate 19 x00) "")
     = replicate 20 x00
  /\ ready (WorkTy (proto := Examples.BTC) (Some 0%nat) (Examples.config 0)
              (replicate 19 x00) "")
     = true.
Proof.
  apply (WorkTy_address_mismatch (proto := Examples.BTC) (Some 0%nat)
           (Examples.config 0) (replicate 19 x00) "").
  simpl. lia.
Defined.

(** C6, as stated, fails: a work built with a 19-byte address and a backend
    is uninitialised, and [ready] returns true. *)
Lemma WorkTy_uninitialized_ready :
  Initialized_ (WorkTy (proto := Examples.BTC) (Some 0%nat) (Examples.config 0)
                  (replicate 19 x00) "")
  = false
  /\ ready (WorkTy (proto := Examples.BTC) (Some 0%nat) (Examples.config 0)
              (replicate 19 x00) "")
     = true.
Proof. split; reflexivity. Qed.

(** ** [buildCoinbaseTx]: the transaction *)

(** C3, as the code has it.  The coinbase has version 2 with SegWit and 1
    without; one input with a null previous output hash, index and sequence
    [0xFFFFFFFF] and, with SegWit, a witness stack of one entry of 32 zero
    bytes, and a scriptSig made of the height, the extra data, the message
    and the reserved bytes; the outputs, in order, the P2PKH payout of [BlockReward_] to
    [MiningAddress_], then an output of [DevFee] to [DevScriptPubKey] when
    [DevFee] is not zero, then with SegWit an output of value 0 carrying
    [WitnessCommitment]; lock time 0.  Both streams get this transaction. *)
Theorem coinbaseTx_structure {proto : ProtoTy} (w : Work)
    (coinbaseData : option (list byte)) (miningCfg : MiningConfig)
    (legacy witness : CoinbaseTx) :
  let tx := coinbaseTx w coinbaseData miningCfg in
  version tx = (if SegwitEnabled w then 2 else 1)
  /\ txIn tx
     = [mkTxIn 0 4294967295
          (serializeForCoinbase (Height_ w)
             ++ (match coinbaseData with Some d => d | None => [] end)
             ++ bytesOfString (CoinbaseMessage_ w)
             ++ replicate (FixedExtraNonceSize miningCfg
                           + MutableExtraNonceSize miningCfg) x00)
          4294967295 (if SegwitEnabled w then [replicate 32 x00] else [])]
  /\ txOut tx
     = [mkTxOut (BlockReward_ w)
          ([byteOfZ 118; byteOfZ 169; byteOfZ (Z.of_nat sizeofAddressTy)]
             ++ MiningAddress_ w ++ [byteOfZ 136; byteOfZ 172])]
         ++ (if DevFee w =? 0 then [] else [mkTxOut (DevFee w) (DevScriptPubKey w)])
         ++ (if SegwitEnabled w then [mkTxOut 0 (WitnessCommitment w)] else [])
  /\ lockTime tx = 0
  /\ Data (fst (buildCoinbaseTx w coinbaseData miningCfg legacy witness))
     = Data legacy ++ serializeTx tx false
  /\ Data (snd (buildCoinbaseTx w coinbaseData miningCfg legacy witness))
     = Data witness ++ serializeTx tx true.
Proof.
  cbv zeta. split; [|split; [|split; [|split; [|split]]]]; try reflexivity.
  unfold coinbaseTx, witnessNonce, scriptSigHead, reserved. cbn [txIn].
  now rewrite <- !app_assoc.
Qed.

(** C3, as stated, fails: with [DevFee = -1] the coinbase has a second
    output, of value -1, where "if DevFee > 0" has the payout only. *)
Lemma coinbaseTx_negative_devFee :
  txOut (coinbaseTx (proto := Examples.BTC) Examples.negativeDevFee None (Examples.config 0))
  = [mkTxOut 625000000 (p2pkh (proto := Examples.BTC) Examples.negativeDevFee);
     mkTxOut (-1) [byteOfZ 81]]
  /\ specifiedOutputs (proto := Examples.BTC) Examples.negativeDevFee
     = [mkTxOut 625000000 (p2pkh (proto := Examples.BTC) Examples.negativeDevFee)].
Proof. split; reflexivity. Qed.

(** ** [loadFromTemplate]: the header *)

Lemma perform_header {strat : StrategyTy} (w : Work) (op : Operation) :
  hashMerkleRoot (Header (perform w op)) = hashMerkleRoot (Header w)
  /\ nNonce (Header (perform w op)) = nNonce (Header w).
Proof. destruct op; simpl; auto. Qed.

Lemma performAll_header {strat : StrategyTy} (ops : list Operation) :
  forall w,
    hashMerkleRoot (Header (performAll ops w)) = hashMerkleRoot (Header w)
    /\ nNonce (Header (performAll ops w)) = nNonce (Header w).
Proof.
  unfold performAll.
  induction ops as [|op rest IH]; intros w; simpl; [auto|].
  destruct (IH (perform w op)) as [-> ->]. apply perform_header.
Qed.

(** The header a successful [loadChecked] fills in. *)
Lemma loadChecked_header {fns : BtcLikeFunctions} {proto : ProtoTy} (fuel : nat) (w : Work)
    (blockTemplate : Value) (height version : Z) (hashPrevBlock : string)
    (curtime : Z) (bits : string) (coinbaseValue : Z)
    (transactions : list Value) (ticker error : string)
    (w' : Work) (error' : string) :
  loadChecked fuel w blockTemplate height version hashPrevBlock curtime bits
    coinbaseValue transactions ticker error = Some (true, w', error') ->
  Header w' = mkBlockHeader (int32OfUint version) (SetHex hashPrevBlock) 0
                curtime (trunc32 (strtoul16 bits)) 0.
Proof.
  unfold loadChecked.
  set (limit := TxNumLimit (MiningCfg_ w)).
  destruct (negb (limit =? 0)%nat && (limit <? length transactions)%nat).
  - destruct (transactionFilter fuel transactions limit [] coinbaseValue _)
      as [[[ok0 processed] blockReward]|]; [|discriminate].
    destruct (processCoinbaseDevReward _ _ _) as [devFee devScript].
    destruct (processMinerFund _ _ _ _) as [[blockReward2 devFee2] devScript2].
    destruct (isSegwitEnabled transactions).
    + destruct (calculateWitnessCommitment _ _ _ _ _)
        as [[[ok processed2] commitment] error2].
      destruct ok; simpl; [|discriminate].
      destruct (collectTransactions _ _ _ _) as [[txHexData merklePath] txNum].
      intros [= <- _]. reflexivity.
    + simpl.
      destruct (collectTransactions _ _ _ _) as [[txHexData merklePath] txNum].
      intros [= <- _]. reflexivity.
  - destruct (processCoinbaseDevReward _ _ _) as [devFee devScript].
    destruct (processMinerFund _ _ _ _) as [[blockReward2 devFee2] devScript2].
    destruct (isSegwitEnabled transactions).
    + destruct (calculateWitnessCommitment _ _ _ _ _)
        as [[[ok processed2] commitment] error2].
      destruct ok; simpl; [|discriminate].
      destruct (collectTransactions _ _ _ _) as [[txHexData merklePath] txNum].
      intros [= <- _]. reflexivity.
    + simpl.
      destruct (collectTransactions _ _ _ _) as [[txHexData merklePath] txNum].
      intros [= <- _]. reflexivity.
Qed.

(** C8. After a successful [loadFromTemplate] the header has the version,
    previous block hash, time and bits of the template, a null
    [hashMerkleRoot] and [nNonce = 0]; and whatever is called on the work
    short of [prepareForSubmit], [hashMerkleRoot] stays null (and [nNonce]
    zero). *)
Theorem loadFromTemplate_header {fns : BtcLikeFunctions} {proto : ProtoTy} {strat : StrategyTy}
    (fuel : nat) (w : Work) (document : Value) (ticker error : string)
    (w' : Work) (error' : string) :
  loadFromTemplate fuel w document ticker error = Some (true, w', error') ->
  exists blockTemplate version hashPrevBlock curtime bits,
    member document "result" = Some blockTemplate
    /\ member blockTemplate "version" = Some (JInt version)
    /\ member blockTemplate "previousblockhash" = Some (JString hashPrevBlock)
    /\ member blockTemplate "curtime" = Some (JInt curtime)
    /\ member blockTemplate "bits" = Some (JString bits)
    /\ Header w' = mkBlockHeader (int32OfUint version) (SetHex hashPrevBlock)
                     SetNull curtime (trunc32 (strtoul16 bits)) 0
    /\ forall ops,
         hashMerkleRoot (Header (performAll ops w')) = SetNull
         /\ nNonce (Header (performAll ops w')) = 0.
Proof.
  unfold loadFromTemplate.
  destruct (IsObject document); simpl; [|discriminate].
  destruct (hasTyped document "result" IsObject); simpl; [|discriminate].
  destruct (member document "result") as [blockTemplate|]; [|discriminate].
  destruct (templateHasFields blockTemplate); simpl; [|discriminate].
  destruct (member blockTemplate "height") as [height|]; [|discriminate].
  destruct (member blockTemplate "version") as [version|] eqn:Hversion;
    [|discriminate].
  destruct (member blockTemplate "previousblockhash") as [prev|] eqn:Hprev;
    [|discriminate].
  destruct (member blockTemplate "curtime") as [curtime|] eqn:Hcurtime;
    [|discriminate].
  destruct (member blockTemplate "bits") as [bits|] eqn:Hbits; [|discriminate].
  destruct (member blockTemplate "coinbasevalue") as [coinbaseValue|]; [|discriminate].
  destruct (member blockTemplate "transactions") as [[| | | | |transactions|]|];
    try discriminate.
  destruct (IsUint64 height && IsUint version && IsString prev && IsUint curtime
            && IsString bits && IsInt64 coinbaseValue); simpl; [|discriminate].
  destruct height; try discriminate.
  destruct version as [| |version| | | |]; try discriminate.
  destruct prev as [| | | |prev| |]; try discriminate.
  destruct curtime as [| |curtime| | | |]; try discriminate.
  destruct bits as [| | | |bits| |]; try discriminate.
  destruct coinbaseValue; try discriminate.
  intros Hload. apply loadChecked_header in Hload.
  exists blockTemplate, version, prev, curtime, bits.
  repeat (split; [assumption || reflexivity|]).
  intros ops. destruct (performAll_header ops w') as [-> ->].
  rewrite Hload. auto.
Qed.

Lemma loadFromTemplate_header_witness :
  exists blockTemplate version hashPrevBlock curtime bits,
    member (Examples.document Examples.template1) "result" = Some blockTemplate
    /\ member blockTemplate "version" = Some (JInt version)
    /\ member blockTemplate "previousblockhash" = Some (JString hashPrevBlock)
    /\ member blockTemplate "curtime" = Some (JInt curtime)
    /\ member blockTemplate "bits" = Some (JString bits)
    /\ Header Examples.loaded
       = mkBlockHeader (int32OfUint version) (SetHex hashPrevBlock)
           SetNull curtime (trunc32 (strtoul16 bits)) 0
    /\ forall ops,
         hashMerkleRoot (Header (performAll (strat := Examples.strategy) ops Examples.loaded))
         = SetNull
         /\ nNonce (Header (performAll (strat := Examples.strategy) ops Examples.loaded)) = 0.
Proof.
  apply (loadFromTemplate_header (fns := Examples.functions) (proto := Examples.BTC)
           (strat := Examples.strategy) 0 (Examples.freshWork 0 "hi")
           (Examples.document Examples.template1) "BTC" "" Examples.loaded "").
  vm_compute. reflexivity.
Defined.

(** ** [loadFromTemplate]: the flag of [transactionChecker] *)

(** Line 227 drops what [transactionChecker] returns: negating its flag
    changes nothing of what [loadFromTemplate] does. *)
Lemma loadFromTemplate_checker_flag_unused (F : BtcLikeFunctions) (P : ProtoTy)
    (fuel : nat) (w : Work) (document : Value) (ticker error : string) :
  loadFromTemplate (fns := Examples.negatedChecker F) fuel w document ticker error
  = loadFromTemplate (fns := F) fuel w document ticker error.
Proof. reflexivity. Qed.

(** C5, on the code.  The third transaction of the example does not decode
    and the limit 0 selects the checker path: [transactionChecker] returns
    false, [loadFromTemplate] returns true and keeps the two transactions
    copied before the failure. *)
Theorem loadFromTemplate_checker_failure_accepted :
  fst (transactionChecker (BtcLikeFunctions := Examples.functions)
         Examples.template4bad [])
  = false
  /\ option_map (fun r => (fst (fst r), TxNum_ (snd (fst r))))
       (loadFromTemplate (fns := Examples.functions) (proto := Examples.BTC) 0
          (Examples.freshWork 0 "") (Examples.document Examples.template4bad)
          "BTC" "")
     = Some (true, 2).
Proof. split; vm_compute; reflexivity. Qed.

(** ** [buildCoinbaseTx]: the extra nonce offsets *)

Lemma serializeVarSize_short (k : nat) :
  (k < 253)%nat -> length (serializeVarSize (Z.of_nat k)) = 1%nat.
Proof.
  intros Hk. unfold serializeVarSize, trunc64.
  rewrite Z.mod_small by lia.
  destruct (Z.ltb_spec (Z.of_nat k) 253); [reflexivity | lia].
Qed.

Lemma region_of_app (P Hd Zs R : list byte) (n : nat) :
  length Zs = n ->
  take n (drop (length P + length Hd) (P ++ (Hd ++ Zs) ++ R)) = Zs.
Proof.
  intros <-.
  replace (P ++ (Hd ++ Zs) ++ R) with ((P ++ Hd) ++ Zs ++ R)
    by now rewrite <- !app_assoc.
  rewrite <- length_app, drop_app_length. apply take_app_length.
Qed.

(** The serialized coinbase around its scriptSig: what precedes it ends
    with the CompactSize of its final length. *)
Lemma coinbase_serialized {proto : ProtoTy} (w : Work)
    (coinbaseData : option (list byte)) (miningCfg : MiningConfig) (wit : bool) :
  let sig := scriptSigHead w coinbaseData
               ++ reserved (FixedExtraNonceSize miningCfg
                            + MutableExtraNonceSize miningCfg) in
  exists P R,
    serializeTx (coinbaseTx w coinbaseData miningCfg) wit = P ++ sig ++ R
    /\ length P = (4 + (if wit then 2 else 0) + 1 + 32 + 4
                   + length (serializeVarSize (Z.of_nat (length sig))))%nat.
Proof.
  cbv zeta. unfold serializeTx, coinbaseTx.
  cbn [version txIn txOut lockTime map concat length].
  unfold serializeTxIn at 1.
  cbn [previousOutputHash previousOutputIndex scriptSig sequence].
  unfold serializeBytes at 1.
  eexists (leBytes 4 _ ++ (if wit then _ else _) ++ serializeVarSize (Z.of_nat 1)
           ++ leBytes 32 SetNull ++ leBytes 4 4294967295 ++ serializeVarSize _), _.
  split.
  - rewrite <- !app_assoc. reflexivity.
  - rewrite !length_app, !leBytes_length.
    destruct wit; cbn [length];
      change (length (serializeVarSize (Z.of_nat 1))) with 1%nat; lia.
Qed.

(** What lines 301-304 get from [getFirstScriptSigOffset]: the scriptSig
    is empty then, its length prefix one byte. *)
Lemma firstScriptSigOffset_at_call (w : Work) (wit : bool) :
  getFirstScriptSigOffset (coinbaseTxAtOffsets w) wit = (if wit then 44 else 42)%nat.
Proof. destruct wit; reflexivity. Qed.

(** While the scriptSig stays under 253 bytes, both offsets point to the
    reserved bytes, all zero, in streams that were empty before. *)
Lemma buildCoinbaseTx_extraNonce_short {proto : ProtoTy} (w : Work)
    (coinbaseData : option (list byte)) (miningCfg : MiningConfig) :
  let n := (FixedExtraNonceSize miningCfg + MutableExtraNonceSize miningCfg)%nat in
  let built :=
    buildCoinbaseTx w coinbaseData miningCfg emptyCoinbaseTx emptyCoinbaseTx in
  (length (scriptSigHead w coinbaseData) + n < 253)%nat ->
  extraNonceRegion (fst built) n = replicate n x00
  /\ extraNonceRegion (snd built) n = replicate n x00.
Proof.
  cbv zeta. intros Hshort.
  assert (Hregion : forall wit,
             take (FixedExtraNonceSize miningCfg + MutableExtraNonceSize miningCfg)
               (drop (Z.to_nat (trunc32 (Z.of_nat
                        (length (scriptSigHead w coinbaseData)
                         + getFirstScriptSigOffset (coinbaseTxAtOffsets w) wit))))
                  (serializeTx (coinbaseTx w coinbaseData miningCfg) wit))
             = replicate (FixedExtraNonceSize miningCfg
                          + MutableExtraNonceSize miningCfg) x00).
  { intros wit.
    destruct (coinbase_serialized w coinbaseData miningCfg wit) as (P & R & -> & HP).
    rewrite serializeVarSize_short in HP
      by (rewrite length_app; unfold reserved; rewrite length_replicate; lia).
    rewrite firstScriptSigOffset_at_call.
    unfold trunc32. rewrite Z.mod_small by (destruct wit; lia).
    rewrite Nat2Z.id.
    replace (length (scriptSigHead w coinbaseData) + (if wit then 44 else 42))%nat
      with (length P + length (scriptSigHead w coinbaseData))%nat
      by (destruct wit; lia).
    apply region_of_app. apply length_replicate. }
  unfold buildCoinbaseTx, extraNonceRegion.
  cbn [fst snd Data ExtraNonceOffset emptyCoinbaseTx].
  rewrite !app_nil_l. split; apply Hregion.
Qed.

(** C2, on the code.  With a coinbase message of 250 characters the
    scriptSig has 262 bytes and its CompactSize prefix three, where lines
    301-304 count the one byte of the still empty scriptSig: both offsets
    fall two bytes short, on the last two bytes of the message, and the
    eight bytes they point to are not all zero.  The reserved bytes start
    two bytes later. *)
Theorem buildCoinbaseTx_long_scriptSig :
  let built :=
    buildCoinbaseTx (proto := Examples.BTC) Examples.longMessageWork None
      (Examples.config 0) emptyCoinbaseTx emptyCoinbaseTx in
  ExtraNonceOffset (fst built) = 296
  /\ extraNonceRegion (fst built) 8
     = map byteOfZ [97; 97; 0; 0; 0; 0; 0; 0]
  /\ take 8 (drop 298 (Data (fst built))) = replicate 8 x00
  /\ ExtraNonceOffset (snd built) = 298
  /\ extraNonceRegion (snd built) 8
     = map byteOfZ [97; 97; 0; 0; 0; 0; 0; 0]
  /\ take 8 (drop 300 (Data (snd built))) = replicate 8 x00.
Proof. cbv zeta. repeat split; vm_compute; reflexivity. Qed.

(** * Further properties *)

(** ** [transactionFilter]: which arrays the first two loops accept *)

Lemma firstInvalid_none (transactions : list Value) :
  firstInvalid transactions = None ->
  scanned transactions = length transactions
  /\ forallb decodes transactions = true.
Proof.
  induction transactions as [|txSrc rest IH]; simpl; [auto|].
  destruct (fieldsOk txSrc); simpl; [|discriminate].
  destruct (decodes txSrc); simpl; [|discriminate].
  destruct (firstInvalid rest); [discriminate|].
  intros _. destruct IH as [-> ->]; auto.
Qed.

Lemma resolveDependencies_valid (transactions : list Value) :
  forall i txidMap txTree,
    forallb assertFree transactions = true ->
    forallb decodes transactions = true ->
    exists txTree', resolveDependencies transactions i txidMap txTree
                    = Some (true, txTree').
Proof.
  induction transactions as [|txSrc rest IH];
    intros i txidMap txTree Hfree Hdec; simpl; [eauto|].
  simpl in Hfree, Hdec.
  apply andb_true_iff in Hfree as [Hfree Hfree'].
  apply andb_true_iff in Hdec as [Hdec Hdec'].
  unfold assertFree in Hfree. apply andb_true_iff in Hfree as [-> _]. simpl.
  unfold decodes in Hdec.
  destruct (decodeEntry txSrc) as [tx|]; [|discriminate].
  apply IH; auto.
Qed.

(** With an invalid entry the first two loops return false, the reward
    lowered by the fees the first loop went through. *)
Lemma analyseTransactions_invalid (transactions : list Value) (k : nat)
    (blockReward : Z) :
  inInt64 blockReward ->
  forallb assertFree transactions = true ->
  firstInvalid transactions = Some k ->
  exists tree,
    analyseTransactions transactions blockReward
    = Some (false, tree,
            wrap64 (blockReward
                    - sumFees (take (scanned transactions) transactions))).
Proof.
  intros Hrange Hfree Hinvalid. unfold analyseTransactions.
  destruct (scanTransactions_scanned transactions 0
              (replicate (length transactions) defaultTxTree) ∅ blockReward Hfree)
    as (tree1 & map1 & reward1 & Hscan & Heq & Hin).
  rewrite Hscan.
  assert (Hreward : reward1
                    = wrap64 (blockReward
                              - sumFees (take (scanned transactions) transactions)))
    by (rewrite <- Heq; symmetry; apply wrap64_id; auto).
  destruct (scanned_bounds transactions) as [Hlen Hall].
  destruct (Nat.eqb_spec (scanned transactions) (length transactions)) as [Hfull|Hpart].
  - destruct (resolveDependencies_invalid transactions 0 map1 tree1 k
                Hfree (Hall Hfull) Hinvalid) as [tree2 Hres].
    rewrite Hres, Hreward. eauto.
  - rewrite Hreward. eauto.
Qed.

(** X1. The first two loops of [transactionFilter] (lines 75-120) accept an
    array exactly when every entry has its three typed fields and data that
    decode: on an array of objects whose [hash] members are strings no
    assertion fires, the loops return true with the reward lowered by all
    fees when no entry is invalid, and false otherwise, the reward then
    lowered by the fees of the entries the first loop went through. *)
Theorem analyseTransactions_accepts_valid
    (transactions : list Value) (blockReward : Z) :
  inInt64 blockReward ->
  forallb assertFree transactions = true ->
  match firstInvalid transactions with
  | None =>
      exists tree,
        analyseTransactions transactions blockReward
        = Some (true, tree, wrap64 (blockReward - sumFees transactions))
  | Some _ =>
      exists tree,
        analyseTransactions transactions blockReward
        = Some (false, tree,
                wrap64 (blockReward
                        - sumFees (take (scanned transactions) transactions)))
  end.
Proof.
  intros Hrange Hfree.
  destruct (firstInvalid transactions) as [k|] eqn:Hinvalid.
  - exact (analyseTransactions_invalid transactions k blockReward Hrange Hfree
             Hinvalid).
  - unfold analyseTransactions.
    destruct (scanTransactions_scanned transactions 0
                (replicate (length transactions) defaultTxTree) ∅ blockReward Hfree)
      as (tree1 & map1 & reward1 & Hscan & Heq & Hin).
    rewrite Hscan.
    assert (Hreward : reward1
                      = wrap64 (blockReward
                                - sumFees (take (scanned transactions) transactions)))
      by (rewrite <- Heq; symmetry; apply wrap64_id; auto).
    destruct (firstInvalid_none transactions Hinvalid) as [Hfull Hdec].
    rewrite Hfull, Nat.eqb_refl.
    destruct (resolveDependencies_valid transactions 0 map1 tree1 Hfree Hdec)
      as [tree2 Hres].
    rewrite Hres, Hreward, Hfull, firstn_all. eauto.
Qed.

Lemma analyseTransactions_accepts_valid_witness :
  exists tree,
    analyseTransactions Examples.template4 1000
    = Some (true, tree, wrap64 (1000 - sumFees Examples.template4)).
Proof.
  apply (analyseTransactions_accepts_valid Examples.template4 1000).
  - unfold inInt64. lia.
  - vm_compute. reflexivity.
Defined.

(** ** [transactionFilter]: what a recorded dependency points at *)

Lemma lastIndexOf_entry (h : uint256) (transactions : list Value) :
  forall i j,
    lastIndexOf h transactions i = Some j ->
    (i <= j)%nat
    /\ exists txSrc, transactions !! (j - i)%nat = Some txSrc
                     /\ txidOf txSrc = Some h.
Proof.
  induction transactions as [|txSrc rest IH]; intros i j; simpl; [discriminate|].
  destruct (lastIndexOf h rest (S i)) as [j'|] eqn:Hrest.
  - intros [= <-]. destruct (IH (S i) j' Hrest) as (Hle & v & Hv & Htx).
    split; [lia|]. exists v. split; [|exact Htx].
    replace (j' - i)%nat with (S (j' - S i)) by lia. exact Hv.
  - destruct (txidOf txSrc) as [h'|] eqn:Htx; [|discriminate].
    destruct (Z.eqb_spec h' h) as [->|]; [|discriminate].
    intros [= <-]. split; [lia|]. exists txSrc.
    rewrite Nat.sub_diag. auto.
Qed.

Lemma lastDependency_input (index : uint256 -> option nat) (ins : list TxIn) (j : nat) :
  lastDependency index ins = Some j ->
  exists txin, txin ∈ ins /\ index (previousOutputHash txin) = Some j.
Proof.
  induction ins as [|txin rest IH]; simpl; [discriminate|].
  destruct (lastDependency index rest) as [j'|].
  - intros [= <-]. destruct (IH eq_refl) as (x & Hx & Hj).
    exists x. split; [now apply elem_of_cons; right | exact Hj].
  - intros Hj. exists txin. split; [apply elem_of_cons; now left | exact Hj].
Qed.

Lemma resolveDependencies_length (transactions : list Value) :
  forall i txidMap txTree ok txTree',
    resolveDependencies transactions i txidMap txTree = Some (ok, txTree') ->
    length txTree' = length txTree.
Proof.
  induction transactions as [|txSrc rest IH];
    intros i txidMap txTree ok txTree'; simpl.
  - now intros [= _ <-].
  - destruct (IsObject txSrc); simpl; [|discriminate].
    destruct (decodeEntry txSrc) as [tx|]; [|now intros [= _ <-]].
    intros Hres. apply IH in Hres. rewrite Hres, findDependencies_alter.
    apply length_alter.
Qed.

(** X2. When the first two loops accept, the tree has one node per entry,
    and a node's [DependsOn] is never dangling: it is the index of an entry
    of the same array whose [txid] is the [previousOutputHash] of one of
    the inputs of the node's decoded transaction (lines 97-120). *)
Theorem analyseTransactions_dependsOn_sound
    (transactions : list Value) (blockReward : Z) (tree : list TxTree)
    (blockReward' : Z) (i j : nat) (node : TxTree) :
  analyseTransactions transactions blockReward = Some (true, tree, blockReward') ->
  tree !! i = Some node ->
  DependsOn node = Some j ->
  length tree = length transactions
  /\ (j < length transactions)%nat
  /\ exists txSrc tx txin parent,
       transactions !! i = Some txSrc
       /\ decodeEntry txSrc = Some tx
       /\ txin ∈ txIn tx
       /\ transactions !! j = Some parent
       /\ txidOf parent = Some (previousOutputHash txin).
Proof.
  intros Htree Hnode Hdep.
  unfold analyseTransactions in Htree.
  destruct (scanTransactions transactions 0 _ _ blockReward)
    as [[[[ok1 tree1] map1] reward1]|] eqn:Hscan; [|discriminate].
  destruct ok1; [|discriminate].
  destruct (resolveDependencies transactions 0 map1 tree1)
    as [[ok2 tree2]|] eqn:Hres; [|discriminate].
  injection Htree as -> -> _.
  pose proof (resolveDependencies_length _ _ _ _ _ _ Hres) as Hlen2.
  apply scanTransactions_tree in Hscan as (Hlen1 & Hnodes & _ & Hmap).
  apply resolveDependencies_tree in Hres as [Hdeps _].
  rewrite length_replicate in Hlen1.
  assert (Hlen : length tree = length transactions) by congruence.
  assert (Hi : (i < length transactions)%nat)
    by (rewrite <- Hlen; now apply lookup_lt_Some in Hnode).
  destruct (lookup_lt_is_Some_2 transactions i Hi) as [txSrc HtxSrc].
  destruct (Hnodes i txSrc HtxSrc) as (node1 & Hnode1 & Hat).
  { rewrite length_replicate. simpl. exact Hi. }
  destruct (Hdeps i txSrc HtxSrc) as (tx & Htx & Hdep').
  simpl in Hat, Hdep'. rewrite Hnode, Hat in Hdep'. simpl in Hdep'.
  injection Hdep' as ->.
  apply readEntry_node in Hnode1 as (_ & _ & Hnone & _).
  destruct (lastDependency (fun h => map1 !! h) (txIn tx)) as [j'|] eqn:Hlast;
    simpl in Hdep; [|congruence].
  injection Hdep as ->.
  apply lastDependency_input in Hlast as (txin & Hin & Hj).
  rewrite Hmap, lookup_empty in Hj.
  destruct (lastIndexOf (previousOutputHash txin) transactions 0) as [j'|] eqn:Hidx;
    [|discriminate].
  injection Hj as ->.
  apply lastIndexOf_entry in Hidx as (_ & parent & Hparent & Htxid).
  rewrite Nat.sub_0_r in Hparent.
  split; [exact Hlen|]. split; [now apply lookup_lt_Some in Hparent|].
  exists txSrc, tx, txin, parent. auto.
Qed.

Lemma analyseTransactions_dependsOn_sound_witness :
  length Examples.tree4 = length Examples.template4
  /\ (2 < length Examples.template4)%nat
  /\ exists txSrc tx txin parent,
       Examples.template4 !! 3%nat = Some txSrc
       /\ decodeEntry txSrc = Some tx
       /\ txin ∈ txIn tx
       /\ Examples.template4 !! 2%nat = Some parent
       /\ txidOf parent = Some (previousOutputHash txin).
Proof.
  eapply (analyseTransactions_dependsOn_sound Examples.template4 1000
            Examples.tree4 900 3 2).
  - vm_compute. reflexivity.
  - reflexivity.
  - reflexivity.
Defined.

(** ** [loadFromTemplate]: how a call ends *)

Lemma loadFromTemplate_checked {fns : BtcLikeFunctions} {proto : ProtoTy}
    (fuel : nat) (w : Work) (document blockTemplate : Value) (ticker error : string)
    (height version : Z) (hashPrevBlock : string) (curtime : Z) (bits : string)
    (coinbaseValue : Z) (transactions : list Value) :
  member document "result" = Some blockTemplate ->
  templateFields blockTemplate
  = Some (height, version, hashPrevBlock, curtime, bits, coinbaseValue, transactions) ->
  loadFromTemplate fuel w document ticker error
  = loadChecked fuel w blockTemplate height version hashPrevBlock curtime bits
      coinbaseValue transactions ticker error.
Proof.
  intros Hresult Hfields. unfold templateFields in Hfields.
  destruct (member blockTemplate "height") as [[| |h| | | |]|] eqn:Hh; try discriminate.
  destruct (member blockTemplate "version") as [[| |v| | | |]|] eqn:Hv; try discriminate.
  destruct (member blockTemplate "previousblockhash") as [[| | | |p| |]|] eqn:Hp;
    try discriminate.
  destruct (member blockTemplate "curtime") as [[| |c| | | |]|] eqn:Hc; try discriminate.
  destruct (member blockTemplate "bits") as [[| | | |b| |]|] eqn:Hb; try discriminate.
  destruct (member blockTemplate "coinbasevalue") as [[| |cv| | | |]|] eqn:Hcv;
    try discriminate.
  destruct (member blockTemplate "transactions") as [[| | | | |txs|]|] eqn:Htxs;
    try discriminate.
  destruct (IsUint64 (JInt h) && IsUint (JInt v) && IsUint (JInt c) && IsInt64 (JInt cv))
    eqn:Hchecks; [|discriminate].
  injection Hfields as <- <- <- <- <- <- <-.
  apply andb_true_iff in Hchecks as [Hchecks Hcv'].
  apply andb_true_iff in Hchecks as [Hchecks Hc'].
  apply andb_true_iff in Hchecks as [Hh' Hv'].
  assert (Hdoc : IsObject document = true)
    by (destruct document; try discriminate; reflexivity).
  assert (Hbt : IsObject blockTemplate = true)
    by (destruct blockTemplate; try discriminate; reflexivity).
  unfold loadFromTemplate, templateHasFields, hasTyped, HasMember.
  rewrite Hdoc, Hresult, Hbt, Hh, Hv, Hp, Hc, Hb, Hcv, Htxs.
  cbn [negb andb IsArray IsString]. rewrite Hh', Hv', Hc', Hcv'. reflexivity.
Qed.

Lemma loadChecked_checker_path {fns : BtcLikeFunctions} {proto : ProtoTy}
    (fuel fuel' : nat) (w : Work) (blockTemplate : Value) (height version : Z)
    (hashPrevBlock : string) (curtime : Z) (bits : string) (coinbaseValue : Z)
    (transactions : list Value) (ticker ticker' error : string) :
  usesFilter w transactions = false ->
  loadChecked fuel w blockTemplate height version hashPrevBlock curtime bits
    coinbaseValue transactions ticker error
  = loadChecked fuel' w blockTemplate height version hashPrevBlock curtime bits
      coinbaseValue transactions ticker' error.
Proof.
  intros Hpath. unfold loadChecked.
  change (negb (TxNumLimit (MiningCfg_ w) =? 0)%nat
          && (TxNumLimit (MiningCfg_ w) <? length transactions)%nat)
    with (usesFilter w transactions).
  rewrite Hpath. reflexivity.
Qed.

(** How a call of [loadFromTemplate] that returns came to its result. *)
Lemma loadFromTemplate_inv {fns : BtcLikeFunctions} {proto : ProtoTy}
    (fuel : nat) (w : Work) (document : Value) (ticker error : string)
    (ok : bool) (w' : Work) (error' : string) :
  loadFromTemplate fuel w document ticker error = Some (ok, w', error') ->
  (ok = false /\ w' = w /\ error' = "no result"%string
   /\ hasTyped document "result" IsObject = false)
  \/ (ok = false /\ w' = w /\ error' = "missing data"%string
      /\ exists blockTemplate,
           member document "result" = Some blockTemplate
           /\ templateHasFields blockTemplate = false)
  \/ (ok = false /\ w' = w
      /\ error' = "height or header data invalid format"%string
      /\ exists blockTemplate,
           member document "result" = Some blockTemplate
           /\ templateHasFields blockTemplate = true)
  \/ (exists blockTemplate height version hashPrevBlock curtime bits
             coinbaseValue transactions,
         member document "result" = Some blockTemplate
         /\ templateFields blockTemplate
            = Some (height, version, hashPrevBlock, curtime, bits,
                    coinbaseValue, transactions)
         /\ loadChecked fuel w blockTemplate height version hashPrevBlock
              curtime bits coinbaseValue transactions ticker error
            = Some (ok, w', error')).
Proof.
  unfold loadFromTemplate.
  destruct (IsObject document); simpl; [|discriminate].
  destruct (hasTyped document "result" IsObject) eqn:Hres; simpl;
    [|intros [= <- <- <-]; left; auto].
  destruct (member document "result") as [blockTemplate|] eqn:Hbt; [|discriminate].
  destruct (templateHasFields blockTemplate) eqn:Hhas; simpl;
    [|intros [= <- <- <-]; right; left; eauto 10].
  destruct (member blockTemplate "height") as [height|] eqn:Hmh; [|discriminate].
  destruct (member blockTemplate "version") as [version|] eqn:Hmv; [|discriminate].
  destruct (member blockTemplate "previousblockhash") as [prev|] eqn:Hmp;
    [|discriminate].
  destruct (member blockTemplate "curtime") as [curtime|] eqn:Hmc; [|discriminate].
  destruct (member blockTemplate "bits") as [bits|] eqn:Hmb; [|discriminate].
  destruct (member blockTemplate "coinbasevalue") as [coinbaseValue|] eqn:Hmcv;
    [|discriminate].
  destruct (member blockTemplate "transactions") as [[| | | | |transactions|]|]
    eqn:Hmt; try discriminate.
  destruct (IsUint64 height && IsUint version && IsString prev && IsUint curtime
            && IsString bits && IsInt64 coinbaseValue) eqn:Hchecks;
    cbn [negb];
    [|intros [= <- <- <-]; right; right; left; eauto 10].
  destruct height as [| |height| | | |]; try discriminate.
  destruct version as [| |version| | | |]; try discriminate.
  destruct prev as [| | | |prev| |]; try discriminate.
  destruct curtime as [| |curtime| | | |]; try discriminate.
  destruct bits as [| | | |bits| |]; try discriminate.
  destruct coinbaseValue as [| |coinbaseValue| | | |]; try discriminate.
  intros Hload. right; right; right.
  exists blockTemplate, height, version, prev, curtime, bits, coinbaseValue,
    transactions.
  split; [reflexivity|]. split; [|exact Hload].
  cbn [IsString] in Hchecks. rewrite !andb_true_r in Hchecks.
  apply andb_true_iff in Hchecks as [Hchecks Hcv].
  apply andb_true_iff in Hchecks as [Hchecks Hc].
  apply andb_true_iff in Hchecks as [Hh Hv].
  unfold templateFields. rewrite Hmh, Hmv, Hmp, Hmc, Hmb, Hmcv, Hmt.
  now rewrite Hh, Hv, Hc, Hcv.
Qed.

Lemma int32OfUint_back (v : Z) : 0 <= v < 2 ^ 32 -> trunc32 (int32OfUint v) = v.
Proof.
  intros Hv. unfold trunc32, int32OfUint.
  destruct (Z_lt_le_dec v (2 ^ 31)) as [Hlow|Hhigh].
  - rewrite (Z.mod_small (v + 2 ^ 31)) by lia.
    replace (v + 2 ^ 31 - 2 ^ 31) with v by ring. apply Z.mod_small. lia.
  - replace (v + 2 ^ 31) with (v - 2 ^ 31 + 1 * 2 ^ 32) by ring.
    rewrite Z_mod_plus_full, (Z.mod_small (v - 2 ^ 31)) by lia.
    replace (v - 2 ^ 31 - 2 ^ 31) with (v + (-1) * 2 ^ 32) by ring.
    rewrite Z_mod_plus_full. apply Z.mod_small. lia.
Qed.

Lemma templateFields_ranges (blockTemplate : Value) (height version : Z)
    (hashPrevBlock : string) (curtime : Z) (bits : string) (coinbaseValue : Z)
    (transactions : list Value) :
  templateFields blockTemplate
  = Some (height, version, hashPrevBlock, curtime, bits, coinbaseValue, transactions) ->
  0 <= height < 2 ^ 64 /\ 0 <= version < 2 ^ 32 /\ 0 <= curtime < 2 ^ 32
  /\ inInt64 coinbaseValue.
Proof.
  unfold templateFields, inInt64.
  destruct (member blockTemplate "height") as [[| |h| | | |]|]; try discriminate.
  destruct (member blockTemplate "version") as [[| |v| | | |]|]; try discriminate.
  destruct (member blockTemplate "previousblockhash") as [[| | | |p| |]|];
    try discriminate.
  destruct (member blockTemplate "curtime") as [[| |c| | | |]|]; try discriminate.
  destruct (member blockTemplate "bits") as [[| | | |b| |]|]; try discriminate.
  destruct (member blockTemplate "coinbasevalue") as [[| |cv| | | |]|];
    try discriminate.
  destruct (member blockTemplate "transactions") as [[| | | | |txs|]|];
    try discriminate.
  unfold IsUint64, IsUint, IsInt64.
  destruct (Z.leb_spec 0 h), (Z.ltb_spec h (2 ^ 64)), (Z.leb_spec 0 v),
    (Z.ltb_spec v (2 ^ 32)), (Z.leb_spec 0 c), (Z.ltb_spec c (2 ^ 32)),
    (Z.leb_spec (- 2 ^ 63) cv), (Z.ltb_spec cv (2 ^ 63)); simpl;
    try discriminate.
  intros [= <- <- _ <- _ <- _]. lia.
Qed.

(** What [loadChecked] leaves when it returns, with either flag. *)
Lemma loadChecked_result {fns : BtcLikeFunctions} {proto : ProtoTy} (fuel : nat)
    (w : Work) (blockTemplate : Value) (height version : Z) (hashPrevBlock : string)
    (curtime : Z) (bits : string) (coinbaseValue : Z)
    (transactions : list Value) (ticker error : string)
    (ok : bool) (w' : Work) (error' : string) :
  loadChecked fuel w blockTemplate height version hashPrevBlock curtime bits
    coinbaseValue transactions ticker error = Some (ok, w', error') ->
  Height_ w' = height
  /\ SegwitEnabled w' = isSegwitEnabled transactions
  /\ Backend_ w' = Backend_ w /\ MiningCfg_ w' = MiningCfg_ w
  /\ Initialized_ w' = Initialized_ w /\ MiningAddress_ w' = MiningAddress_ w
  /\ CoinbaseMessage_ w' = CoinbaseMessage_ w
  /\ NotifyMessage_ w' = NotifyMessage_ w
  /\ (if ok
      then JobVersion w' = trunc32 (int32OfUint version)
           /\ (isSegwitEnabled transactions = false -> error' = error)
      else isSegwitEnabled transactions = true
           /\ Header w' = Header w /\ JobVersion w' = JobVersion w
           /\ CBTxLegacy_ w' = CBTxLegacy_ w /\ CBTxWitness_ w' = CBTxWitness_ w
           /\ TxHexData w' = TxHexData w /\ MerklePath w' = MerklePath w
           /\ TxNum_ w' = TxNum_ w).
Proof.
  unfold loadChecked.
  destruct (if negb (TxNumLimit (MiningCfg_ w) =? 0)%nat
               && (TxNumLimit (MiningCfg_ w) <? length transactions)%nat
            then match transactionFilter fuel transactions (TxNumLimit (MiningCfg_ w))
                         [] coinbaseValue
                         (String.eqb ticker "BCHN" || String.eqb ticker "BCHABC") with
                 | Some (_, processed, blockReward) => Some (processed, blockReward)
                 | None => None
                 end
            else Some (snd (transactionChecker transactions []), coinbaseValue))
    as [[processed blockReward]|]; [|discriminate].
  destruct (processCoinbaseDevReward _ _ _) as [devFee devScript].
  destruct (processMinerFund _ _ _ _) as [[blockReward2 devFee2] devScript2].
  destruct (isSegwitEnabled transactions).
  - destruct (calculateWitnessCommitment _ _ _ _ _)
      as [[[ok1 processed2] commitment] error2].
    destruct ok1; simpl.
    + destruct (collectTransactions _ _ _ _) as [[txHexData merklePath] txNum].
      intros [= <- <- <-]. simpl. repeat split; auto. discriminate.
    + intros [= <- <- <-]. simpl. repeat split; auto.
  - simpl.
    destruct (collectTransactions _ _ _ _) as [[txHexData merklePath] txNum].
    intros [= <- <- <-]. simpl. repeat split; auto.
Qed.

(** X3. [loadFromTemplate] returns false in two ways only.  Either the
    document is refused by one of the three checks of lines 172-212, with
    one of the three messages, and the work is left exactly as it was; or
    SegWit is enabled and [calculateWitnessCommitment] failed (line 240),
    after [Height_] was taken from the template: the header, the job
    version, both coinbase transactions and the stored transactions are
    then still those of the previous template. *)
Theorem loadFromTemplate_failure {fns : BtcLikeFunctions} {proto : ProtoTy}
    (fuel : nat) (w : Work) (document : Value) (ticker error : string)
    (w' : Work) (error' : string) :
  loadFromTemplate fuel w document ticker error = Some (false, w', error') ->
  (w' = w
   /\ (error' = "no result"%string \/ error' = "missing data"%string
       \/ error' = "height or header data invalid format"%string))
  \/ (SegwitEnabled w' = true
      /\ Header w' = Header w /\ JobVersion w' = JobVersion w
      /\ CBTxLegacy_ w' = CBTxLegacy_ w /\ CBTxWitness_ w' = CBTxWitness_ w
      /\ TxHexData w' = TxHexData w /\ MerklePath w' = MerklePath w
      /\ TxNum_ w' = TxNum_ w
      /\ exists blockTemplate,
           member document "result" = Some blockTemplate
           /\ member blockTemplate "height" = Some (JInt (Height_ w'))).
Proof.
  intros Hload.
  destruct (loadFromTemplate_inv _ _ _ _ _ _ _ _ Hload)
    as [(_ & -> & -> & _) | [(_ & -> & -> & _) | [(_ & -> & -> & _) | Hchecked]]];
    [left; auto | left; auto | left; auto |].
  destruct Hchecked as (bt & h & v & p & c & b & cv & txs & Hbt & Hfields & Hrun).
  apply loadChecked_result in Hrun
    as (Hheight & Hseg & _ & _ & _ & _ & _ & _ & Hsegwit & Hrest).
  right. rewrite Hseg, Hsegwit. split; [reflexivity|].
  destruct Hrest as (-> & -> & -> & -> & -> & -> & ->).
  repeat (split; [reflexivity|]).
  exists bt. split; [exact Hbt|]. rewrite Hheight.
  unfold templateFields in Hfields.
  destruct (member bt "height") as [[| |h'| | | |]|]; try discriminate.
  destruct (member bt "version") as [[| |v'| | | |]|]; try discriminate.
  destruct (member bt "previousblockhash") as [[| | | |p'| |]|]; try discriminate.
  destruct (member bt "curtime") as [[| |c'| | | |]|]; try discriminate.
  destruct (member bt "bits") as [[| | | |b'| |]|]; try discriminate.
  destruct (member bt "coinbasevalue") as [[| |cv'| | | |]|]; try discriminate.
  destruct (member bt "transactions") as [[| | | | |txs'|]|]; try discriminate.
  destruct (IsUint64 (JInt h') && IsUint (JInt v') && IsUint (JInt c')
            && IsInt64 (JInt cv')); [|discriminate].
  now injection Hfields as -> _ _ _ _ _ _.
Qed.

Lemma loadFromTemplate_failure_witness :
  (Examples.freshWork 0 "hi" = Examples.freshWork 0 "hi"
   /\ ("no result"%string = "no result"%string
       \/ "no result"%string = "missing data"%string
       \/ "no result"%string = "height or header data invalid format"%string))
  \/ (SegwitEnabled (Examples.freshWork 0 "hi") = true
      /\ Header (Examples.freshWork 0 "hi") = Header (Examples.freshWork 0 "hi")
      /\ JobVersion (Examples.freshWork 0 "hi") = JobVersion (Examples.freshWork 0 "hi")
      /\ CBTxLegacy_ (Examples.freshWork 0 "hi") = CBTxLegacy_ (Examples.freshWork 0 "hi")
      /\ CBTxWitness_ (Examples.freshWork 0 "hi")
         = CBTxWitness_ (Examples.freshWork 0 "hi")
      /\ TxHexData (Examples.freshWork 0 "hi") = TxHexData (Examples.freshWork 0 "hi")
      /\ MerklePath (Examples.freshWork 0 "hi") = MerklePath (Examples.freshWork 0 "hi")
      /\ TxNum_ (Examples.freshWork 0 "hi") = TxNum_ (Examples.freshWork 0 "hi")
      /\ exists blockTemplate,
           member Scenarios.noResult "result" = Some blockTemplate
           /\ member blockTemplate "height"
              = Some (JInt (Height_ (Examples.freshWork 0 "hi")))).
Proof.
  apply (loadFromTemplate_failure (fns := Examples.functions) (proto := Examples.BTC)
           0 (Examples.freshWork 0 "hi") Scenarios.noResult "BTC" ""
           (Examples.freshWork 0 "hi") "no result").
  vm_compute. reflexivity.
Defined.

(** X4. Whatever the document and however the call ends,
    [loadFromTemplate] leaves the fields the constructor set (backend,
    mining configuration, [Initialized_], mining address, coinbase message)
    and the notify message as they were; [ready] does not change. *)
Theorem loadFromTemplate_preserves {fns : BtcLikeFunctions} {proto : ProtoTy}
    (fuel : nat) (w : Work) (document : Value) (ticker error : string)
    (ok : bool) (w' : Work) (error' : string) :
  loadFromTemplate fuel w document ticker error = Some (ok, w', error') ->
  Backend_ w' = Backend_ w /\ MiningCfg_ w' = MiningCfg_ w
  /\ Initialized_ w' = Initialized_ w /\ MiningAddress_ w' = MiningAddress_ w
  /\ CoinbaseMessage_ w' = CoinbaseMessage_ w
  /\ NotifyMessage_ w' = NotifyMessage_ w
  /\ ready w' = ready w.
Proof.
  intros Hload.
  destruct (loadFromTemplate_inv _ _ _ _ _ _ _ _ Hload)
    as [(_ & -> & _) | [(_ & -> & _) | [(_ & -> & _) | Hchecked]]];
    [repeat split .. |].
  destruct Hchecked as (bt & h & v & p & c & b & cv & txs & _ & _ & Hrun).
  apply loadChecked_result in Hrun
    as (_ & _ & Hb & Hm & Hi & Ha & Hc & Hn & _).
  unfold ready. rewrite Hb. auto 10.
Qed.

Lemma loadFromTemplate_preserves_witness :
  Backend_ Examples.loaded = Backend_ (Examples.freshWork 0 "hi")
  /\ MiningCfg_ Examples.loaded = MiningCfg_ (Examples.freshWork 0 "hi")
  /\ Initialized_ Examples.loaded = Initialized_ (Examples.freshWork 0 "hi")
  /\ MiningAddress_ Examples.loaded = MiningAddress_ (Examples.freshWork 0 "hi")
  /\ CoinbaseMessage_ Examples.loaded = CoinbaseMessage_ (Examples.freshWork 0 "hi")
  /\ NotifyMessage_ Examples.loaded = NotifyMessage_ (Examples.freshWork 0 "hi")
  /\ ready Examples.loaded = ready (Examples.freshWork 0 "hi").
Proof.
  apply (loadFromTemplate_preserves (fns := Examples.functions)
           (proto := Examples.BTC) 0 (Examples.freshWork 0 "hi")
           (Examples.document Examples.template1) "BTC" "" true Examples.loaded "").
  vm_compute. reflexivity.
Defined.

(** X5. When [loadFromTemplate] returns true, the template passed all the
    checks of lines 172-212, and the work holds its values: [Height_] is the
    template's height, [JobVersion] its version, which is also the header's
    [nVersion] read back as [uint32_t] (the conversion to [int32_t] at line
    242 loses nothing), [SegwitEnabled] is what [isSegwitEnabled] says of
    the transactions, and without SegWit [error] is untouched. *)
Theorem loadFromTemplate_success_fields {fns : BtcLikeFunctions} {proto : ProtoTy}
    (fuel : nat) (w : Work) (document : Value) (ticker error : string)
    (w' : Work) (error' : string) :
  loadFromTemplate fuel w document ticker error = Some (true, w', error') ->
  exists blockTemplate height version hashPrevBlock curtime bits coinbaseValue
         transactions,
    member document "result" = Some blockTemplate
    /\ templateFields blockTemplate
       = Some (height, version, hashPrevBlock, curtime, bits, coinbaseValue,
               transactions)
    /\ Height_ w' = height
    /\ JobVersion w' = version
    /\ trunc32 (nVersion (Header w')) = version
    /\ SegwitEnabled w' = isSegwitEnabled transactions
    /\ (isSegwitEnabled transactions = false -> error' = error).
Proof.
  intros Hload.
  destruct (loadFromTemplate_inv _ _ _ _ _ _ _ _ Hload)
    as [(Hok & _) | [(Hok & _) | [(Hok & _) | Hchecked]]]; try discriminate.
  destruct Hchecked as (bt & h & v & p & c & b & cv & txs & Hbt & Hfields & Hrun).
  pose proof (templateFields_ranges _ _ _ _ _ _ _ _ Hfields) as (_ & Hv & _).
  pose proof (loadChecked_header _ _ _ _ _ _ _ _ _ _ _ _ _ _ Hrun) as Hheader.
  apply loadChecked_result in Hrun
    as (Hheight & Hseg & _ & _ & _ & _ & _ & _ & Hjob & Herr).
  exists bt, h, v, p, c, b, cv, txs.
  rewrite Hheader. cbn [nVersion].
  rewrite Hjob, int32OfUint_back by exact Hv. auto 10.
Qed.

Lemma loadFromTemplate_success_fields_witness :
  exists blockTemplate height version hashPrevBlock curtime bits coinbaseValue
         transactions,
    member (Examples.document Examples.template1) "result" = Some blockTemplate
    /\ templateFields blockTemplate
       = Some (height, version, hashPrevBlock, curtime, bits, coinbaseValue,
               transactions)
    /\ Height_ Examples.loaded = height
    /\ JobVersion Examples.loaded = version
    /\ trunc32 (nVersion (Header Examples.loaded)) = version
    /\ SegwitEnabled Examples.loaded
       = isSegwitEnabled (BtcLikeFunctions := Examples.functions) transactions
    /\ (isSegwitEnabled (BtcLikeFunctions := Examples.functions) transactions = false
        -> ""%string = ""%string).
Proof.
  apply (loadFromTemplate_success_fields (fns := Examples.functions)
           (proto := Examples.BTC) 0 (Examples.freshWork 0 "hi")
           (Examples.document Examples.template1) "BTC" "" Examples.loaded "").
  vm_compute. reflexivity.
Defined.

(** X6. A template that passes the checks of lines 172-212 and has no
    SegWit transaction is always accepted: [loadFromTemplate] returns true
    and leaves [error] alone, whatever [transactionFilter] or
    [transactionChecker] returned (lines 225 and 227 drop their results).
    On the filter path the filter has to return, that is, fire no
    assertion. *)
Theorem loadFromTemplate_accepts_without_segwit
    {fns : BtcLikeFunctions} {proto : ProtoTy}
    (fuel : nat) (w : Work) (document blockTemplate : Value) (ticker error : string)
    (height version : Z) (hashPrevBlock : string) (curtime : Z) (bits : string)
    (coinbaseValue : Z) (transactions : list Value) :
  member document "result" = Some blockTemplate ->
  templateFields blockTemplate
  = Some (height, version, hashPrevBlock, curtime, bits, coinbaseValue, transactions) ->
  isSegwitEnabled transactions = false ->
  (usesFilter w transactions = true ->
   is_Some (transactionFilter fuel transactions (TxNumLimit (MiningCfg_ w)) []
              coinbaseValue
              (String.eqb ticker "BCHN" || String.eqb ticker "BCHABC"))) ->
  exists w', loadFromTemplate fuel w document ticker error = Some (true, w', error).
Proof.
  intros Hbt Hfields Hseg Hfilter.
  rewrite (loadFromTemplate_checked _ _ _ _ _ _ _ _ _ _ _ _ _ Hbt Hfields).
  unfold loadChecked.
  change (negb (TxNumLimit (MiningCfg_ w) =? 0)%nat
          && (TxNumLimit (MiningCfg_ w) <? length transactions)%nat)
    with (usesFilter w transactions).
  rewrite Hseg.
  destruct (usesFilter w transactions).
  - destruct (Hfilter eq_refl) as [[[ok0 processed] blockReward] ->].
    destruct (processCoinbaseDevReward _ _ _) as [devFee devScript].
    destruct (processMinerFund _ _ _ _) as [[blockReward2 devFee2] devScript2].
    simpl.
    destruct (collectTransactions _ _ _ _) as [[txHexData merklePath] txNum].
    eauto.
  - destruct (processCoinbaseDevReward _ _ _) as [devFee devScript].
    destruct (processMinerFund _ _ _ _) as [[blockReward2 devFee2] devScript2].
    simpl.
    destruct (collectTransactions _ _ _ _) as [[txHexData merklePath] txNum].
    eauto.
Qed.

Lemma loadFromTemplate_accepts_without_segwit_witness :
  exists w',
    loadFromTemplate (fns := Examples.functions) (proto := Examples.BTC) 8
      Scenarios.limit2 (Examples.document Examples.template4bad) "BTC" ""
    = Some (true, w', ""%string).
Proof.
  apply (loadFromTemplate_accepts_without_segwit (fns := Examples.functions)
           (proto := Examples.BTC) 8 Scenarios.limit2
           (Examples.document Examples.template4bad)
           (Scenarios.blockTemplate Examples.template4bad) "BTC" ""
           700000 536870912 (GetHex 17) 1600000000 "170b2c70" 625000000
           Examples.template4bad).
  - reflexivity.
  - vm_compute. reflexivity.
  - vm_compute. reflexivity.
  - intros _. vm_compute. eexists. reflexivity.
Defined.

(** X7. When the limit is zero or the template has no more transactions
    than the limit, line 221 takes the checker path, and the ticker plays
    no part in the call: it is read for [needSortByHash] only, which goes
    to [transactionFilter].  The same holds of the fuel the filter's loop
    is run with. *)
Theorem loadFromTemplate_checker_path {fns : BtcLikeFunctions} {proto : ProtoTy}
    (fuel fuel' : nat) (w : Work) (document : Value)
    (ticker ticker' error : string) :
  (forall blockTemplate transactions,
      member document "result" = Some blockTemplate ->
      member blockTemplate "transactions" = Some (JArray transactions) ->
      usesFilter w transactions = false) ->
  loadFromTemplate fuel w document ticker error
  = loadFromTemplate fuel' w document ticker' error.
Proof.
  intros Hpath. unfold loadFromTemplate.
  destruct (IsObject document); simpl; [|reflexivity].
  destruct (hasTyped document "result" IsObject); simpl; [|reflexivity].
  destruct (member document "result") as [blockTemplate|] eqn:Hbt; [|reflexivity].
  destruct (templateHasFields blockTemplate); simpl; [|reflexivity].
  destruct (member blockTemplate "height") as [height|]; [|reflexivity].
  destruct (member blockTemplate "version") as [version|]; [|reflexivity].
  destruct (member blockTemplate "previousblockhash") as [prev|]; [|reflexivity].
  destruct (member blockTemplate "curtime") as [curtime|]; [|reflexivity].
  destruct (member blockTemplate "bits") as [bits|]; [|reflexivity].
  destruct (member blockTemplate "coinbasevalue") as [coinbaseValue|]; [|reflexivity].
  destruct (member blockTemplate "transactions") as [[| | | | |transactions|]|]
    eqn:Htxs; try reflexivity.
  destruct (IsUint64 height && IsUint version && IsString prev && IsUint curtime
            && IsString bits && IsInt64 coinbaseValue); simpl; [|reflexivity].
  destruct height; try reflexivity.
  destruct version; try reflexivity.
  destruct prev; try reflexivity.
  destruct curtime; try reflexivity.
  destruct bits; try reflexivity.
  destruct coinbaseValue; try reflexivity.
  apply loadChecked_checker_path. eauto.
Qed.

Lemma loadFromTemplate_checker_path_witness :
  loadFromTemplate (fns := Examples.functions) (proto := Examples.BTC) 0
    (Examples.freshWork 0 "hi") (Examples.document Examples.template1) "BTC" ""
  = loadFromTemplate (fns := Examples.functions) (proto := Examples.BTC) 5
      (Examples.freshWork 0 "hi") (Examples.document Examples.template1) "BCHN" "".
Proof.
  apply (loadFromTemplate_checker_path (fns := Examples.functions)
           (proto := Examples.BTC) 0 5 (Examples.freshWork 0 "hi")
           (Examples.document Examples.template1) "BTC" "BCHN" "").
  intros blockTemplate transactions _ _. reflexivity.
Defined.

(** ** [loadFromTemplate]: a template the filter rejects *)

Lemma transactionFilter_rejected {fns : BtcLikeFunctions} (fuel : nat)
    (transactions : list Value)
    (k txNumLimit : nat) (result : list TxData) (blockReward : Z) (sortByHash : bool) :
  inInt64 blockReward ->
  forallb assertFree transactions = true ->
  firstInvalid transactions = Some k ->
  transactionFilter fuel transactions txNumLimit result blockReward sortByHash
  = Some (false, result,
          wrap64 (blockReward - sumFees (take (scanned transactions) transactions))).
Proof.
  intros Hrange Hfree Hinvalid.
  destruct (analyseTransactions_invalid transactions k blockReward Hrange Hfree
              Hinvalid) as [tree Hout].
  unfold transactionFilter. now rewrite Hout.
Qed.

(** X8. On the filter path (line 225) a template with an invalid
    transaction and no SegWit is accepted all the same: [loadFromTemplate]
    returns true, the work holds no template transaction (what
    [collectTransactions] makes of an empty selection), and its
    [BlockReward_] is computed from [coinbasevalue] lowered by the fees of
    the entries the filter's first loop went through before it gave up. *)
Theorem loadFromTemplate_filter_rejected {fns : BtcLikeFunctions} {proto : ProtoTy}
    (fuel : nat) (w : Work) (document blockTemplate : Value) (ticker error : string)
    (height version : Z) (hashPrevBlock : string) (curtime : Z) (bits : string)
    (coinbaseValue : Z) (transactions : list Value) (k : nat) :
  member document "result" = Some blockTemplate ->
  templateFields blockTemplate
  = Some (height, version, hashPrevBlock, curtime, bits, coinbaseValue, transactions) ->
  usesFilter w transactions = true ->
  isSegwitEnabled transactions = false ->
  forallb assertFree transactions = true ->
  firstInvalid transactions = Some k ->
  exists w',
    loadFromTemplate fuel w document ticker error = Some (true, w', error)
    /\ (let lowered :=
          wrap64 (coinbaseValue
                  - sumFees (take (scanned transactions) transactions)) in
        let '(devFee, devScript) :=
          processCoinbaseDevReward blockTemplate (DevFee w) (DevScriptPubKey w) in
        BlockReward_ w'
        = fst (fst (processMinerFund blockTemplate lowered devFee devScript)))
    /\ (TxHexData w', MerklePath w', TxNum_ w')
       = collectTransactions [] (TxHexData w) (MerklePath w) (TxNum_ w).
Proof.
  intros Hbt Hfields Hfilter Hseg Hfree Hinvalid.
  pose proof (templateFields_ranges _ _ _ _ _ _ _ _ Hfields) as (_ & _ & _ & Hcv).
  rewrite (loadFromTemplate_checked _ _ _ _ _ _ _ _ _ _ _ _ _ Hbt Hfields).
  unfold loadChecked.
  change (negb (TxNumLimit (MiningCfg_ w) =? 0)%nat
          && (TxNumLimit (MiningCfg_ w) <? length transactions)%nat)
    with (usesFilter w transactions).
  rewrite Hfilter, Hseg.
  rewrite (transactionFilter_rejected _ _ k _ _ _ _ Hcv Hfree Hinvalid).
  cbv zeta.
  destruct (processCoinbaseDevReward _ _ _) as [devFee devScript].
  destruct (processMinerFund _ _ _ _) as [[blockReward2 devFee2] devScript2].
  simpl.
  destruct (collectTransactions _ _ _ _) as [[txHexData merklePath] txNum].
  eexists. split; [reflexivity|]. split; reflexivity.
Qed.

Lemma loadFromTemplate_filter_rejected_witness :
  exists w',
    loadFromTemplate (fns := Examples.functions) (proto := Examples.BTC) 8
      Scenarios.limit2 (Examples.document Examples.template4bad) "BTC" ""
    = Some (true, w', ""%string)
    /\ (let lowered :=
          wrap64 (625000000
                  - sumFees (take (scanned Examples.template4bad)
                               Examples.template4bad)) in
        let '(devFee, devScript) :=
          processCoinbaseDevReward (BtcLikeFunctions := Examples.functions)
            (Scenarios.blockTemplate Examples.template4bad)
            (DevFee Scenarios.limit2) (DevScriptPubKey Scenarios.limit2) in
        BlockReward_ w'
        = fst (fst (processMinerFund (BtcLikeFunctions := Examples.functions)
                      (Scenarios.blockTemplate Examples.template4bad) lowered
                      devFee devScript)))
    /\ (TxHexData w', MerklePath w', TxNum_ w')
       = collectTransactions (BtcLikeFunctions := Examples.functions) []
           (TxHexData Scenarios.limit2) (MerklePath Scenarios.limit2)
           (TxNum_ Scenarios.limit2).
Proof.
  apply (loadFromTemplate_filter_rejected (fns := Examples.functions)
           (proto := Examples.BTC) 8 Scenarios.limit2
           (Examples.document Examples.template4bad)
           (Scenarios.blockTemplate Examples.template4bad) "BTC" ""
           700000 536870912 (GetHex 17) 1600000000 "170b2c70" 625000000
           Examples.template4bad 2).
  - reflexivity.
  - vm_compute. reflexivity.
  - vm_compute. reflexivity.
  - vm_compute. reflexivity.
  - vm_compute. reflexivity.
  - vm_compute. reflexivity.
Defined.

(** ** [buildCoinbaseTx]: the two offsets *)

(** X9. In both forms of the coinbase transaction, [ExtraNonceOffset] lies
    behind [ExtraDataOffset] by exactly the length of the extra data plus
    that of the coinbase message (lines 293-304), whatever the length of
    the scriptSig, as long as the offsets fit [unsigned]. *)
Theorem buildCoinbaseTx_offsets_gap {proto : ProtoTy} (w : Work)
    (coinbaseData : option (list byte)) (miningCfg : MiningConfig)
    (legacy witness : CoinbaseTx) :
  let built := buildCoinbaseTx w coinbaseData miningCfg legacy witness in
  Z.of_nat (length (scriptSigHead w coinbaseData)) + 44 < 2 ^ 32 ->
  ExtraNonceOffset (fst built) - ExtraDataOffset (fst built)
  = Z.of_nat (length (coinbaseExtra coinbaseData) + String.length (CoinbaseMessage_ w))
  /\ ExtraNonceOffset (snd built) - ExtraDataOffset (snd built)
     = Z.of_nat (length (coinbaseExtra coinbaseData) + String.length (CoinbaseMessage_ w)).
Proof.
  cbv zeta. intros Hfit.
  unfold buildCoinbaseTx. cbn [fst snd ExtraNonceOffset ExtraDataOffset].
  rewrite !firstScriptSigOffset_at_call.
  assert (Hhead : length (scriptSigHead w coinbaseData)
                  = (length (serializeForCoinbase (Height_ w))
                     + (length (coinbaseExtra coinbaseData)
                        + String.length (CoinbaseMessage_ w)))%nat).
  { unfold scriptSigHead, coinbaseExtra, bytesOfString.
    rewrite !length_app, length_map.
    f_equal. f_equal.
    induction (CoinbaseMessage_ w) as [|c s IH]; simpl; [reflexivity | now rewrite IH]. }
  unfold trunc32. rewrite !Z.mod_small by lia. lia.
Qed.

Lemma buildCoinbaseTx_offsets_gap_witness :
  ExtraNonceOffset (fst (buildCoinbaseTx (proto := Examples.BTC) Scenarios.shortWork
                           None (Examples.config 0) emptyCoinbaseTx emptyCoinbaseTx))
  - ExtraDataOffset (fst (buildCoinbaseTx (proto := Examples.BTC) Scenarios.shortWork
                            None (Examples.config 0) emptyCoinbaseTx emptyCoinbaseTx))
  = Z.of_nat (length (coinbaseExtra None)
              + String.length (CoinbaseMessage_ Scenarios.shortWork))
  /\ ExtraNonceOffset (snd (buildCoinbaseTx (proto := Examples.BTC) Scenarios.shortWork
                              None (Examples.config 0) emptyCoinbaseTx emptyCoinbaseTx))
     - ExtraDataOffset (snd (buildCoinbaseTx (proto := Examples.BTC) Scenarios.shortWork
                               None (Examples.config 0) emptyCoinbaseTx emptyCoinbaseTx))
     = Z.of_nat (length (coinbaseExtra None)
                 + String.length (CoinbaseMessage_ Scenarios.shortWork)).
Proof.
  apply (buildCoinbaseTx_offsets_gap (proto := Examples.BTC) Scenarios.shortWork
           None (Examples.config 0) emptyCoinbaseTx emptyCoinbaseTx).
  vm_compute. reflexivity.
Defined.

Lemma region_inside (P A M B : list byte) :
  take (length M) (drop (length P + length A) (P ++ A ++ M ++ B)) = M.
Proof.
  rewrite app_assoc, <- length_app, drop_app_length. apply take_app_length.
Qed.

(** The serialized coinbase around its scriptSig: the CompactSize of its
    length before it, the sequence of the input right behind it. *)
Lemma coinbase_serialized_sequence {proto : ProtoTy} (w : Work)
    (coinbaseData : option (list byte)) (miningCfg : MiningConfig) (wit : bool) :
  let sig := firstScriptSig (coinbaseTx w coinbaseData miningCfg) in
  exists P R,
    serializeTx (coinbaseTx w coinbaseData miningCfg) wit
    = P ++ sig ++ leBytes 4 4294967295 ++ R
    /\ length P = (4 + (if wit then 2 else 0) + 1 + 32 + 4
                   + length (serializeVarSize (Z.of_nat (length sig))))%nat.
Proof.
  cbv zeta. unfold serializeTx, coinbaseTx, firstScriptSig.
  cbn [version txIn txOut lockTime map concat length scriptSig].
  unfold serializeTxIn at 1.
  cbn [previousOutputHash previousOutputIndex scriptSig sequence].
  unfold serializeBytes at 1.
  eexists (leBytes 4 _ ++ (if wit then _ else _) ++ serializeVarSize (Z.of_nat 1)
           ++ leBytes 32 SetNull ++ leBytes 4 4294967295 ++ serializeVarSize _), _.
  split.
  - rewrite <- !app_assoc. reflexivity.
  - rewrite !length_app, !leBytes_length.
    destruct wit; cbn [length];
      change (length (serializeVarSize (Z.of_nat 1))) with 1%nat; lia.
Qed.

(** The two regions in one serialized form. *)
Lemma coinbase_regions {proto : ProtoTy} (w : Work)
    (coinbaseData : option (list byte)) (miningCfg : MiningConfig) (wit : bool) :
  let n := (FixedExtraNonceSize miningCfg + MutableExtraNonceSize miningCfg)%nat in
  let extra := coinbaseExtra coinbaseData ++ bytesOfString (CoinbaseMessage_ w) in
  let sig := firstScriptSig (coinbaseTx w coinbaseData miningCfg) in
  let first := getFirstScriptSigOffset (coinbaseTxAtOffsets w) wit in
  let bytes := serializeTx (coinbaseTx w coinbaseData miningCfg) wit in
  (length (scriptSigHead w coinbaseData) + n < 253)%nat ->
  regionAt bytes
    (trunc32 (Z.of_nat (length (serializeForCoinbase (Height_ w)) + first)))
    (length extra) = extra
  /\ regionAt bytes
       (trunc32 (Z.of_nat (length (scriptSigHead w coinbaseData) + first)))
       (n + 4)
     = drop (length sig - n) sig ++ leBytes 4 4294967295.
Proof.
  cbv zeta. intros Hshort.
  destruct (coinbase_serialized_sequence w coinbaseData miningCfg wit)
    as (P & R & -> & HP).
  assert (Hsig : firstScriptSig (coinbaseTx w coinbaseData miningCfg)
                 = scriptSigHead w coinbaseData
                   ++ reserved (FixedExtraNonceSize miningCfg
                                + MutableExtraNonceSize miningCfg))
    by reflexivity.
  assert (Hres : length (reserved (FixedExtraNonceSize miningCfg
                                   + MutableExtraNonceSize miningCfg))
                 = (FixedExtraNonceSize miningCfg + MutableExtraNonceSize miningCfg)%nat)
    by apply length_replicate.
  rewrite Hsig in *.
  rewrite serializeVarSize_short in HP by (rewrite length_app, Hres; lia).
  rewrite firstScriptSigOffset_at_call.
  assert (Hh : (length (serializeForCoinbase (Height_ w))
                <= length (scriptSigHead w coinbaseData))%nat)
    by (unfold scriptSigHead; rewrite length_app; lia).
  unfold regionAt, trunc32. rewrite !Z.mod_small by (destruct wit; lia).
  rewrite !Nat2Z.id.
  replace (length (serializeForCoinbase (Height_ w)) + (if wit then 44 else 42))%nat
    with (length P + length (serializeForCoinbase (Height_ w)))%nat
    by (destruct wit; lia).
  replace (length (scriptSigHead w coinbaseData) + (if wit then 44 else 42))%nat
    with (length P + length (scriptSigHead w coinbaseData))%nat
    by (destruct wit; lia).
  split.
  - replace (P ++ (scriptSigHead w coinbaseData
                   ++ reserved (FixedExtraNonceSize miningCfg
                                + MutableExtraNonceSize miningCfg))
             ++ leBytes 4 4294967295 ++ R)
      with (P ++ serializeForCoinbase (Height_ w)
            ++ (coinbaseExtra coinbaseData ++ bytesOfString (CoinbaseMessage_ w))
            ++ (reserved (FixedExtraNonceSize miningCfg
                          + MutableExtraNonceSize miningCfg)
                ++ leBytes 4 4294967295 ++ R))
      by (unfold scriptSigHead, coinbaseExtra; now rewrite <- !app_assoc).
    apply region_inside.
  - rewrite length_app, Hres.
    replace (length (scriptSigHead w coinbaseData)
             + (FixedExtraNonceSize miningCfg + MutableExtraNonceSize miningCfg)
             - (FixedExtraNonceSize miningCfg + MutableExtraNonceSize miningCfg))%nat
      with (length (scriptSigHead w coinbaseData)) by lia.
    rewrite drop_app_length.
    replace (P ++ (scriptSigHead w coinbaseData
                   ++ reserved (FixedExtraNonceSize miningCfg
                                + MutableExtraNonceSize miningCfg))
             ++ leBytes 4 4294967295 ++ R)
      with (P ++ scriptSigHead w coinbaseData
            ++ (reserved (FixedExtraNonceSize miningCfg
                          + MutableExtraNonceSize miningCfg)
                ++ leBytes 4 4294967295)
            ++ R)
      by now rewrite <- !app_assoc.
    replace (FixedExtraNonceSize miningCfg + MutableExtraNonceSize miningCfg + 4)%nat
      with (length (reserved (FixedExtraNonceSize miningCfg
                              + MutableExtraNonceSize miningCfg)
                    ++ leBytes 4 4294967295))
      by (rewrite length_app, Hres, leBytes_length; reflexivity).
    apply region_inside.
Qed.

(** X10. [buildCoinbaseTx] does not reset the two streams, it appends to
    them (lines 342-343), and the two offsets count from where it starts
    to write: they are offsets into the stream only when the stream was
    empty at the call.  When the scriptSig is shorter than 253 bytes, the
    bytes appended to each stream hold at [ExtraDataOffset] the extra data
    followed by the coinbase message, and at [ExtraNonceOffset] the last
    [FixedExtraNonceSize + MutableExtraNonceSize] bytes of the scriptSig,
    those line 305 reserved, with the sequence of the input right behind
    them. *)
Theorem buildCoinbaseTx_regions_short {proto : ProtoTy} (w : Work)
    (coinbaseData : option (list byte)) (miningCfg : MiningConfig)
    (legacy witness : CoinbaseTx) :
  let n := (FixedExtraNonceSize miningCfg + MutableExtraNonceSize miningCfg)%nat in
  let extra := coinbaseExtra coinbaseData ++ bytesOfString (CoinbaseMessage_ w) in
  let sig := firstScriptSig (coinbaseTx w coinbaseData miningCfg) in
  let built := buildCoinbaseTx w coinbaseData miningCfg legacy witness in
  (length (scriptSigHead w coinbaseData) + n < 253)%nat ->
  (Data (fst built) = Data legacy ++ appended legacy (fst built)
   /\ regionAt (appended legacy (fst built)) (ExtraDataOffset (fst built))
        (length extra) = extra
   /\ regionAt (appended legacy (fst built)) (ExtraNonceOffset (fst built)) (n + 4)
      = drop (length sig - n) sig ++ leBytes 4 4294967295)
  /\ (Data (snd built) = Data witness ++ appended witness (snd built)
      /\ regionAt (appended witness (snd built)) (ExtraDataOffset (snd built))
           (length extra) = extra
      /\ regionAt (appended witness (snd built)) (ExtraNonceOffset (snd built))
           (n + 4)
         = drop (length sig - n) sig ++ leBytes 4 4294967295).
Proof.
  cbv zeta. intros Hshort.
  unfold buildCoinbaseTx, appended.
  cbn [fst snd Data ExtraDataOffset ExtraNonceOffset].
  rewrite !drop_app_length.
  split; (split; [reflexivity | now apply coinbase_regions]).
Qed.

Lemma buildCoinbaseTx_regions_short_witness :
  (Data (fst Scenarios.rebuilt)
   = Data (CBTxLegacy_ Examples.loaded)
     ++ appended (CBTxLegacy_ Examples.loaded) (fst Scenarios.rebuilt)
   /\ regionAt (appended (CBTxLegacy_ Examples.loaded) (fst Scenarios.rebuilt))
        (ExtraDataOffset (fst Scenarios.rebuilt)) (length Scenarios.shortExtra)
      = Scenarios.shortExtra
   /\ regionAt (appended (CBTxLegacy_ Examples.loaded) (fst Scenarios.rebuilt))
        (ExtraNonceOffset (fst Scenarios.rebuilt)) (8 + 4)
      = drop (length Scenarios.shortSig - 8) Scenarios.shortSig
        ++ leBytes 4 4294967295)
  /\ (Data (snd Scenarios.rebuilt)
      = Data (CBTxWitness_ Examples.loaded)
        ++ appended (CBTxWitness_ Examples.loaded) (snd Scenarios.rebuilt)
      /\ regionAt (appended (CBTxWitness_ Examples.loaded) (snd Scenarios.rebuilt))
           (ExtraDataOffset (snd Scenarios.rebuilt)) (length Scenarios.shortExtra)
         = Scenarios.shortExtra
      /\ regionAt (appended (CBTxWitness_ Examples.loaded) (snd Scenarios.rebuilt))
           (ExtraNonceOffset (snd Scenarios.rebuilt)) (8 + 4)
         = drop (length Scenarios.shortSig - 8) Scenarios.shortSig
           ++ leBytes 4 4294967295).
Proof.
  apply (buildCoinbaseTx_regions_short (proto := Examples.BTC) Scenarios.shortWork
           None (Examples.config 0) (CBTxLegacy_ Examples.loaded)
           (CBTxWitness_ Examples.loaded)).
  apply Nat.ltb_lt. vm_compute. reflexivity.
Defined.

(** ** The constructor and the payout script *)

(** X11. Whatever address the constructor is given, [MiningAddress_] has
    the chain's address size (the given address when the work is
    initialised), so the payout output that [buildCoinbaseTx] writes first
    (lines 313-325) has a script of that size plus the five bytes of the
    pay-to-public-key-hash template. *)
Theorem WorkTy_payout_script_size {proto : ProtoTy} (backend : option nat)
    (miningCfg : MiningConfig) (miningAddress : list byte) (coinbaseMessage : string)
    (coinbaseData : option (list byte)) (cfg : MiningConfig) :
  let w := WorkTy backend miningCfg miningAddress coinbaseMessage in
  length (MiningAddress_ w) = sizeofAddressTy
  /\ (Initialized_ w = true -> MiningAddress_ w = miningAddress)
  /\ exists payout rest,
       txOut (coinbaseTx w coinbaseData cfg) = payout :: rest
       /\ length (pkScript payout) = (sizeofAddressTy + 5)%nat.
Proof.
  cbv zeta. unfold coinbaseTx, p2pkh, WorkTy.
  cbn [MiningAddress_ Initialized_ txOut].
  destruct (length miningAddress =? sizeofAddressTy)%nat eqn:Hsize.
  - apply Nat.eqb_eq in Hsize.
    split; [exact Hsize|]. split; [reflexivity|].
    eexists _, _. split; [reflexivity|].
    cbn [pkScript]. rewrite !length_app. simpl. lia.
  - split; [apply length_replicate|]. split; [discriminate|].
    eexists _, _. split; [reflexivity|].
    cbn [pkScript]. rewrite !length_app, length_replicate. simpl. lia.
Qed.

(** ** [getDifficulty]: a target with no mantissa *)

Lemma infinity_times_256 : (infinity * doubleOfInt 256 = infinity)%float.
Proof. reflexivity. Qed.

Lemma infinity_over_256 : (infinity / doubleOfInt 256 = infinity)%float.
Proof. reflexivity. Qed.

Lemma while_raise_infinity (fuel : nat) :
  forall (n : Z) (r : Z * float * nat),
    while fuel below29 raiseShift (n, infinity) = Some r ->
    snd (fst r) = infinity.
Proof.
  induction fuel as [|fuel IH]; intros n r; simpl.
  - destruct (below29 (n, infinity)); [discriminate | now intros [= <-]].
  - destruct (below29 (n, infinity)); [|now intros [= <-]].
    change (raiseShift (n, infinity)) with (n + 1, (infinity * doubleOfInt 256)%float).
    rewrite infinity_times_256.
    destruct (while fuel below29 raiseShift (n + 1, infinity)) as [[s' k]|] eqn:Hw;
      [|discriminate].
    intros [= <-]. exact (IH _ _ Hw).
Qed.

Lemma while_lower_infinity (fuel : nat) :
  forall (n : Z) (r : Z * float * nat),
    while fuel above29 lowerShift (n, infinity) = Some r ->
    snd (fst r) = infinity.
Proof.
  induction fuel as [|fuel IH]; intros n r; simpl.
  - destruct (above29 (n, infinity)); [discriminate | now intros [= <-]].
  - destruct (above29 (n, infinity)); [|now intros [= <-]].
    change (lowerShift (n, infinity)) with (n - 1, (infinity / doubleOfInt 256)%float).
    rewrite infinity_over_256.
    destruct (while fuel above29 lowerShift (n - 1, infinity)) as [[s' k]|] eqn:Hw;
      [|discriminate].
    intros [= <-]. exact (IH _ _ Hw).
Qed.

(** X12. For a compact target whose low 24 bits are zero, line 23 divides
    by zero: [getDifficulty] returns positive infinity, whatever the
    exponent byte. *)
Theorem getDifficulty_zero_mantissa (bits : Z) :
  Z.land bits 16777215 = 0 -> getDifficulty bits = infinity.
Proof.
  intros Hzero. unfold getDifficulty, getDifficultyRun. rewrite Hzero.
  change (doubleOfInt 65535 / doubleOfInt 0)%float with infinity.
  pose proof (shiftOf_range bits) as Hr.
  destruct (while_raise 226 (shiftOf bits) infinity) as [d1 H1]; [lia|].
  pose proof (while_raise_infinity _ _ _ H1) as Hd1. simpl in Hd1. subst d1.
  rewrite H1.
  destruct (while_lower 226 (Z.max (shiftOf bits) 29) infinity) as [d2 H2]; [lia|].
  pose proof (while_lower_infinity _ _ _ H2) as Hd2. simpl in Hd2. subst d2.
  rewrite H2. reflexivity.
Qed.

Lemma getDifficulty_zero_mantissa_witness :
  getDifficulty Scenarios.zeroMantissaBits = infinity.
Proof.
  apply (getDifficulty_zero_mantissa Scenarios.zeroMantissaBits).
  reflexivity.
Defined.

(** ** [buildBlock]: size, and what [mutate] changes *)

Lemma bin2hexLowerCase_length (bs : list byte) :
  String.length (bin2hexLowerCase bs) = (2 * length bs)%nat.
Proof.
  induction bs as [|b bs IH]; simpl; [reflexivity|]. rewrite IH. lia.
Qed.

Lemma string_append_length (a b : string) :
  String.length (a ++ b)%string = (String.length a + String.length b)%nat.
Proof.
  induction a as [|x a IH]; [reflexivity|].
  change (S (String.length (a ++ b)%string) = S (String.length a + String.length b)).
  now rewrite IH.
Qed.

Lemma serializeVarSize_length (n : Z) :
  (1 <= length (serializeVarSize n) <= 9)%nat.
Proof.
  unfold serializeVarSize.
  destruct (trunc64 n <? 253); [simpl; lia|].
  destruct (trunc64 n <=? 65535); [simpl; lia|].
  destruct (trunc64 n <=? 4294967295); simpl; lia.
Qed.

(** X13. The header and the transaction count that [buildBlockImpl]
    serializes into its local buffer (lines 365-371) take at most 89 bytes,
    80 for the header and 1 to 9 for the count, well inside the 1024 bytes
    of the buffer; the text it produces has two characters for each of
    these bytes and for each byte of the witness coinbase transaction,
    followed by the stored transaction text. *)
Theorem buildBlock_size (w : Work) :
  (length (serializeHeader (Header w) ++ serializeVarSize (TxNum_ w + 1)) <= 89)%nat
  /\ String.length (buildBlock w)
     = (2 * (80 + length (serializeVarSize (TxNum_ w + 1))
             + length (Data (CBTxWitness_ w)))
        + String.length (TxHexData w))%nat.
Proof.
  pose proof (serializeVarSize_length (TxNum_ w + 1)) as Hv.
  split.
  - rewrite length_app, serializeHeader_length. lia.
  - unfold buildBlock, buildBlockImpl.
    rewrite !string_append_length, !bin2hexLowerCase_length, length_app,
      serializeHeader_length. lia.
Qed.

(** X14. [mutate] changes the block [buildBlock] gives in its time field
    only: the eight characters at offset 136 (the four bytes of [nTime] at
    offset 68 of the header) become those of the new time, every other
    character stays. *)
Theorem mutate_changes_time_only {strat : StrategyTy} (w : Work) :
  exists pre post : string,
    String.length pre = 136%nat
    /\ buildBlock w
       = (pre ++ bin2hexLowerCase (leBytes 4 (nTime (Header w))) ++ post)%string
    /\ forall now,
         buildBlock (mutate now w)
         = (pre ++ bin2hexLowerCase (leBytes 4 (trunc32 now)) ++ post)%string.
Proof.
  exists (bin2hexLowerCase (leBytes 4 (nVersion (Header w))
                            ++ leBytes 32 (hashPrevBlock (Header w))
                            ++ leBytes 32 (hashMerkleRoot (Header w)))),
    (bin2hexLowerCase (leBytes 4 (nBits (Header w)) ++ leBytes 4 (nNonce (Header w))
                       ++ serializeVarSize (TxNum_ w + 1))
     ++ bin2hexLowerCase (Data (CBTxWitness_ w)) ++ TxHexData w)%string.
  split; [|split].
  - rewrite bin2hexLowerCase_length, !length_app, !leBytes_length. reflexivity.
  - unfold buildBlock, buildBlockImpl, serializeHeader.
    rewrite <- !app_assoc, !bin2hexLowerCase_app, !string_append_assoc.
    reflexivity.
  - intros now. unfold buildBlock, buildBlockImpl, serializeHeader, mutate.
    cbn [Header TxNum_ CBTxWitness_ TxHexData setNotifyMessage setHeader setTime
         nVersion hashPrevBlock hashMerkleRoot nTime nBits nNonce Data].
    rewrite <- !app_assoc, !bin2hexLowerCase_app, !string_append_assoc.
    reflexivity.
Qed.

(** ** [MultiCall]: the main callback runs once *)

Section MultiCallProperties.

Context {T : Type}.

Import MultiCall.

Lemma MultiCall_incremented_le (p : list stage) : (incremented p <= length p)%nat.
Proof. induction p as [|[] p IH]; simpl; lia. Qed.

Lemma MultiCall_incremented_insert (p : list stage) :
  forall (c : nat) (x y : stage),
    p !! c = Some x ->
    (incremented (<[c := y]> p) + (if hasCounted x then 1 else 0)
     = incremented p + (if hasCounted y then 1 else 0))%nat.
Proof.
  induction p as [|z p IH]; intros [|c] x y; simpl; try discriminate.
  - intros [= ->]. lia.
  - intros Hc. specialize (IH c x y Hc). lia.
Qed.

Lemma MultiCall_incremented_full (p : list stage) :
  incremented p = length p ->
  forall c x, p !! c = Some x -> hasCounted x = true.
Proof.
  induction p as [|z p IH]; intros Hfull [|c] x; simpl; try discriminate.
  - intros [= ->]. simpl in Hfull. pose proof (MultiCall_incremented_le p).
    destruct (hasCounted x); [reflexivity | lia].
  - simpl in Hfull. pose proof (MultiCall_incremented_le p).
    apply IH. destruct (hasCounted z); lia.
Qed.

Lemma MultiCall_incremented_idle (n : nat) : incremented (replicate n Idle) = O.
Proof. induction n; simpl; auto. Qed.

(** Stages that have all counted and all read are all done. *)
Lemma MultiCall_stages_done (p : list stage) :
  incremented p = length p ->
  (forall c, p !! c <> Some Counted) ->
  p = replicate (length p) Done.
Proof.
  induction p as [|z p IH]; intros Hfull Hread; simpl; [reflexivity|].
  simpl in Hfull. pose proof (MultiCall_incremented_le p).
  assert (Hz : hasCounted z = true) by (destruct (hasCounted z); [reflexivity | lia]).
  rewrite Hz in Hfull.
  f_equal.
  - destruct z; try discriminate; [|reflexivity]. now destruct (Hread O).
  - apply IH; [lia|]. intros c. exact (Hread (S c)).
Qed.

Lemma MultiCall_followAll_done (n : nat) (es : list (access T)) (q : list stage) :
  followAll (replicate n Done) es = Some q -> es = [].
Proof.
  destruct es as [|[c v|c|c] es]; [reflexivity| | |]; simpl;
    destruct (replicate n Done !! c) as [x|] eqn:Hc; try discriminate;
    apply lookup_replicate in Hc as [-> _]; discriminate.
Qed.

(** Once every callback has incremented, only reads are left. *)
Lemma MultiCall_followAll_reads (es : list (access T)) :
  forall p q,
    incremented p = length p ->
    followAll p es = Some q ->
    forall e, e ∈ es -> exists c, e = Read c.
Proof.
  induction es as [|e es IH]; intros p q Hfull Hfollow e' Hin.
  - now apply elem_of_nil in Hin.
  - simpl in Hfollow.
    destruct (follow p e) as [p'|] eqn:Hstep; [|discriminate].
    destruct e as [c v|c|c]; simpl in Hstep;
      destruct (p !! c) as [x|] eqn:Hc; try discriminate;
      pose proof (MultiCall_incremented_full p Hfull c x Hc) as Hx;
      destruct x; try discriminate.
    injection Hstep as <-.
    apply elem_of_cons in Hin as [->|Hin]; [eauto|].
    apply (IH (<[c := Done]> p) q); [|exact Hfollow|exact Hin].
    pose proof (MultiCall_incremented_insert p c Counted Done Hc) as Hins. simpl in Hins.
    rewrite length_insert. lia.
Qed.

Lemma MultiCall_follow_idle (p p' : list stage) (e : access T) (c : nat) :
  follow p e = Some p' -> p !! c = Some Idle ->
  (exists v, e = Write c v) \/ p' !! c = Some Idle.
Proof.
  destruct e as [c' v|c'|c']; simpl;
    destruct (p !! c') as [[]|] eqn:Hc'; try discriminate;
    intros [= <-] Hp;
    (destruct (decide (c' = c)) as [->|Hne];
     [first [left; eexists; reflexivity | congruence]
     |right; rewrite list_lookup_insert_ne; auto]).
Qed.

(** A callback that goes from idle to done has stored. *)
Lemma MultiCall_followAll_write (es : list (access T)) :
  forall (p q : list stage) (c : nat),
    followAll p es = Some q ->
    p !! c = Some Idle -> q !! c = Some Done ->
    exists v, Write c v ∈ es.
Proof.
  induction es as [|e es IH]; intros p q c; simpl.
  - intros [= <-] Hp Hq. congruence.
  - destruct (follow p e) as [p'|] eqn:Hstep; [|discriminate].
    intros Hrest Hp Hq.
    destruct (MultiCall_follow_idle p p' e c Hstep Hp) as [[v ->]|Hidle].
    + exists v. apply elem_of_cons. now left.
    + destruct (IH p' q c Hrest Hidle Hq) as [v Hv].
      exists v. apply elem_of_cons. now right.
Qed.


Ltac stage_at c' c H :=
  destruct (decide (c' = c)) as [->|?];
  [rewrite list_lookup_insert_eq in H by (eapply lookup_lt_Some; eassumption)
  |rewrite list_lookup_insert_ne in H by auto].

Lemma MultiCall_live_write (n : nat) (s : calling T) (p : list stage) (c : nat) (v : T) :
  live n s p -> p !! c = Some Idle ->
  live n (mkCalling (mk (<[c := v]> (Data (object s))) (FinishedCallsNum (object s))
                       (TotalCallsNum (object s)) (calls (object s)) false)
            (counted s) (totals s))
    (<[c := Stored]> p).
Proof.
  intros [] Hc.
  pose proof (MultiCall_incremented_insert p c Idle Stored Hc) as Hins. simpl in Hins.
  rewrite !Nat.add_0_r in Hins.
  split; simpl; rewrite ?length_insert, ?Hins; auto.
  - intros c' x H Hx. stage_at c' c H; eauto.
  - intros c' H. stage_at c' c H; [discriminate | eauto].
  - intros c' x H Hx. stage_at c' c H; eauto.
  - intros c' H. stage_at c' c H; [discriminate | eauto].
  - intros Hn. destruct (live_last0 Hn) as (c' & Hc' & Hk).
    exists c'. split; [|exact Hk].
    rewrite list_lookup_insert_ne; [exact Hc' | congruence].
Qed.

Lemma MultiCall_live_read_first (n : nat) (s : calling T) (p : list stage) (c : nat) :
  live n s p -> p !! c = Some Stored ->
  live n (mkCalling (object s) (counted s)
            (<[c := TotalCallsNum (object s)]> (totals s)))
    (<[c := Loaded]> p).
Proof.
  intros [] Hc.
  pose proof (MultiCall_incremented_insert p c Stored Loaded Hc) as Hins. simpl in Hins.
  rewrite !Nat.add_0_r in Hins.
  split; simpl; rewrite ?length_insert, ?Hins; auto.
  - intros c' x H Hx. stage_at c' c H; eauto.
  - intros c' H. stage_at c' c H; [discriminate | eauto].
  - intros c' x H Hx. stage_at c' c H.
    + injection H as <-. discriminate.
    + rewrite lookup_insert_ne by auto. eauto.
  - intros c' H. stage_at c' c H.
    + rewrite lookup_insert_eq. now f_equal.
    + rewrite lookup_insert_ne by auto. eauto.
  - intros Hn. destruct (live_last0 Hn) as (c' & Hc' & Hk).
    exists c'. split; [|exact Hk].
    rewrite list_lookup_insert_ne; [exact Hc' | congruence].
Qed.

Lemma MultiCall_live_increment_first (n : nat) (s : calling T) (p : list stage) (c : nat) :
  live n s p -> p !! c = Some Stored ->
  live n (mkCalling
            (mk (Data (object s)) (trunc32 (FinishedCallsNum (object s) + 1))
               (TotalCallsNum (object s)) (calls (object s)) false)
            (<[c := trunc32 (FinishedCallsNum (object s) + 1)]> (counted s))
            (totals s))
    (<[c := Counted]> p).
Proof.
  intros [] Hc.
  pose proof (MultiCall_incremented_insert p c Stored Counted Hc) as Hins. simpl in Hins.
  rewrite Nat.add_0_r in Hins.
  pose proof (MultiCall_incremented_le (<[c := Counted]> p)) as Hle.
  rewrite length_insert in Hle.
  assert (Hk : trunc32 (FinishedCallsNum (object s) + 1)
               = Z.of_nat (incremented (<[c := Counted]> p)))
    by (unfold trunc32; rewrite Z.mod_small; lia).
  split; simpl; rewrite ?length_insert, ?Hk; auto.
  - intros c' x H Hx. stage_at c' c H.
    + injection H as <-. discriminate.
    + rewrite lookup_insert_ne by auto. eauto.
  - intros c' H. stage_at c' c H.
    + rewrite lookup_insert_eq. eexists. split; [reflexivity | lia].
    + rewrite lookup_insert_ne by auto.
      destruct (live_counted0 c' H) as (k & Hk' & Hle'). exists k. split; [auto | lia].
  - intros c' x H Hx. stage_at c' c H; eauto.
  - intros c' H. stage_at c' c H; [discriminate | eauto].
  - intros Hn. exists c. split.
    + apply list_lookup_insert_eq. eapply lookup_lt_Some; eassumption.
    + rewrite lookup_insert_eq. now rewrite Hn.
Qed.

(** The second access of a callback whose count is not the total. *)
Lemma MultiCall_live_increment_second (n : nat) (s : calling T) (p : list stage) (c : nat) :
  live n s p -> p !! c = Some Loaded ->
  trunc32 (FinishedCallsNum (object s) + 1) <> Z.of_nat n ->
  live n (mkCalling
            (mk (Data (object s)) (trunc32 (FinishedCallsNum (object s) + 1))
               (TotalCallsNum (object s)) (calls (object s)) false)
            (<[c := trunc32 (FinishedCallsNum (object s) + 1)]> (counted s))
            (totals s))
    (<[c := Done]> p).
Proof.
  intros [] Hc Hmore.
  pose proof (MultiCall_incremented_insert p c Loaded Done Hc) as Hins. simpl in Hins.
  rewrite Nat.add_0_r in Hins.
  pose proof (MultiCall_incremented_le (<[c := Done]> p)) as Hle.
  rewrite length_insert in Hle.
  assert (Hk : trunc32 (FinishedCallsNum (object s) + 1)
               = Z.of_nat (incremented (<[c := Done]> p)))
    by (unfold trunc32; rewrite Z.mod_small; lia).
  split; simpl; rewrite ?length_insert, ?Hk; auto.
  - intros c' x H Hx. stage_at c' c H.
    + injection H as <-. discriminate.
    + rewrite lookup_insert_ne by auto. eauto.
  - intros c' H. stage_at c' c H; [discriminate|].
    rewrite lookup_insert_ne by auto.
    destruct (live_counted0 c' H) as (k & Hk' & Hle'). exists k. split; [auto | lia].
  - intros c' x H Hx. stage_at c' c H; [|eauto].
    injection H as <-. discriminate.
  - intros c' H. stage_at c' c H; [discriminate | eauto].
  - intros Hn. rewrite Hk in Hmore. lia.
Qed.

Lemma MultiCall_live_read_second (n : nat) (s : calling T) (p : list stage) (c : nat) (k : Z) :
  live n s p -> p !! c = Some Counted -> counted s !! c = Some k ->
  k <> Z.of_nat n ->
  live n (mkCalling (object s) (counted s)
            (<[c := TotalCallsNum (object s)]> (totals s)))
    (<[c := Done]> p).
Proof.
  intros [] Hc Hk Hmore.
  pose proof (MultiCall_incremented_insert p c Counted Done Hc) as Hins. simpl in Hins.
  assert (Hsame : incremented (<[c := Done]> p) = incremented p) by lia.
  split; simpl; rewrite ?length_insert, ?Hsame; auto.
  - intros c' x H Hx. stage_at c' c H; [|eauto].
    injection H as <-. discriminate.
  - intros c' H. stage_at c' c H; [discriminate | eauto].
  - intros c' x H Hx. stage_at c' c H.
    + injection H as <-. discriminate.
    + rewrite lookup_insert_ne by auto. eauto.
  - intros c' H. stage_at c' c H; [discriminate|].
    rewrite lookup_insert_ne by auto. eauto.
  - intros Hn. destruct (live_last0 Hn) as (c' & Hc' & Hk').
    exists c'. split; [|exact Hk'].
    rewrite list_lookup_insert_ne; [exact Hc' | congruence].
Qed.

Lemma MultiCall_incremented_done (n : nat) : incremented (replicate n Done) = n.
Proof. induction n; simpl; auto. Qed.

Lemma MultiCall_performAll_app (a b : list (access T)) :
  forall s, performAll s (a ++ b)
            = match performAll s a with
              | Some s' => performAll s' b
              | None => None
              end.
Proof.
  induction a as [|e a IH]; intros s; simpl; [reflexivity|].
  destruct (perform s e); [apply IH | reflexivity].
Qed.

(** A run of a schedule that brings every callback to its end, from a
    state in which the object lives: the accesses [done] up to the one
    that calls [MainCallback] and deletes the object, and the accesses
    [rest] left over then. *)
Lemma MultiCall_performAll_eachOnce (n : nat) (es : list (access T)) :
  forall (s : calling T) (p : list stage),
    live n s p ->
    followAll p es = Some (replicate n Done) ->
    exists done rest data cnt tot,
      es = done ++ rest
      /\ performAll s done
         = Some (mkCalling (mk data (Z.of_nat n) (Z.of_nat n)
                              [(data, Z.of_nat n)] true) cnt tot)
      /\ length data = n
      /\ (forall c x, p !! c = Some x -> x <> Idle ->
                      data !! c = Data (object s) !! c)
      /\ (forall c v, Write c v ∈ es -> data !! c = Some v)
      /\ (forall e, e ∈ rest -> exists c, e = Read c)
      /\ (forall read,
             (forall c, p !! c <> Some Counted) ->
             (forall c, c ∈ read -> p !! c = Some Loaded \/ p !! c = Some Done) ->
             readsFirst read es = true -> rest = []).
Proof.
  induction es as [|e es IH]; intros s p Hlive.
  - simpl. intros [= ->].
    destruct (live_last _ _ _ Hlive) as (c & Hc & _).
    + apply MultiCall_incremented_done.
    + apply lookup_replicate in Hc as [[=] _].
  - simpl. destruct (follow p e) as [p'|] eqn:Hstep; [|discriminate].
    intros Hfollow.
    destruct e as [c v|c|c]; simpl in Hstep;
      destruct (p !! c) as [x|] eqn:Hc; try discriminate;
      destruct x; try discriminate; injection Hstep as <-.
    + (* the store *)
      assert (Hlt : (c < length (Data (object s)))%nat)
        by (rewrite (live_data _ _ _ Hlive), <- (live_stages _ _ _ Hlive);
            eapply lookup_lt_Some; eassumption).
      assert (Hperf : perform s (Write c v)
                      = Some (mkCalling
                                (mk (<[c := v]> (Data (object s)))
                                   (FinishedCallsNum (object s))
                                   (TotalCallsNum (object s)) (calls (object s)) false)
                                (counted s) (totals s))).
      { unfold perform. rewrite (live_deleted _ _ _ Hlive).
        destruct (Nat.ltb_spec c (length (Data (object s)))); [reflexivity | lia]. }
      destruct (IH _ _ (MultiCall_live_write n s p c v Hlive Hc) Hfollow)
        as (done & rest & data & cnt & tot & -> & Hrun & Hlen & Hkeep & Hwrites
            & Hreads & Hfirst).
      exists (Write c v :: done), rest, data, cnt, tot.
      split; [reflexivity|]. split; [simpl; rewrite Hperf; exact Hrun|].
      split; [exact Hlen|].
      simpl in Hkeep.
      split; [|split; [|split; [exact Hreads|]]].
      * intros c' x Hc' Hx. assert (c' <> c) by congruence.
        rewrite (Hkeep c' x); [|rewrite list_lookup_insert_ne; auto|exact Hx].
        apply list_lookup_insert_ne. auto.
      * intros c' v' Hin. apply elem_of_cons in Hin as [[= -> ->]|Hin];
          [|now apply Hwrites].
        rewrite (Hkeep c Stored); [| |discriminate].
        -- apply list_lookup_insert_eq. exact Hlt.
        -- apply list_lookup_insert_eq. eapply lookup_lt_Some; eassumption.
      * intros read Hnone Hread Hrf. apply (Hfirst read); [| |exact Hrf].
        -- intros c' H. stage_at c' c H; [discriminate | now apply (Hnone c')].
        -- intros c' Hin. destruct (Hread c' Hin) as [H|H];
             (rewrite list_lookup_insert_ne; [auto | congruence]).
    + (* the increment, before the read *)
      assert (Hperf : perform s (Increment c)
                      = Some (mkCalling
                                (mk (Data (object s))
                                   (trunc32 (FinishedCallsNum (object s) + 1))
                                   (TotalCallsNum (object s)) (calls (object s)) false)
                                (<[c := trunc32 (FinishedCallsNum (object s) + 1)]>
                                   (counted s))
                                (totals s))).
      { unfold perform. rewrite (live_deleted _ _ _ Hlive).
        now rewrite (live_unread _ _ _ Hlive c Stored Hc eq_refl). }
      destruct (IH _ _ (MultiCall_live_increment_first n s p c Hlive Hc) Hfollow)
        as (done & rest & data & cnt & tot & -> & Hrun & Hlen & Hkeep & Hwrites
            & Hreads & Hfirst).
      exists (Increment c :: done), rest, data, cnt, tot.
      split; [reflexivity|]. split; [simpl; rewrite Hperf; exact Hrun|].
      split; [exact Hlen|].
      simpl in Hkeep.
      split; [|split; [|split; [exact Hreads|]]].
      * intros c' x Hc' Hx.
        destruct (decide (c' = c)) as [->|Hne].
        -- apply (Hkeep c Counted); [|discriminate].
           apply list_lookup_insert_eq. eapply lookup_lt_Some; eassumption.
        -- apply (Hkeep c' x); [|exact Hx]. rewrite list_lookup_insert_ne; auto.
      * intros c' v' Hin. apply elem_of_cons in Hin as [Heq|Hin];
          [discriminate | now apply Hwrites].
      * intros read Hnone Hread Hrf. simpl in Hrf.
        apply andb_true_iff in Hrf as [Hin _].
        apply existsb_exists in Hin as (c' & Hin & Heq).
        apply Nat.eqb_eq in Heq as <-.
        apply list_elem_of_In in Hin.
        destruct (Hread c Hin); congruence.
    + (* the increment, after the read *)
      assert (Hperf : perform s (Increment c)
                      = Some (mkCalling
                                (compare
                                   (mk (Data (object s))
                                      (trunc32 (FinishedCallsNum (object s) + 1))
                                      (TotalCallsNum (object s)) (calls (object s))
                                      false)
                                   (trunc32 (FinishedCallsNum (object s) + 1))
                                   (Z.of_nat n))
                                (<[c := trunc32 (FinishedCallsNum (object s) + 1)]>
                                   (counted s))
                                (totals s))).
      { unfold perform. rewrite (live_deleted _ _ _ Hlive).
        now rewrite (live_loaded _ _ _ Hlive c Hc). }
      pose proof (MultiCall_incremented_insert p c Loaded Done Hc) as Hins. simpl in Hins.
      rewrite Nat.add_0_r in Hins.
      pose proof (MultiCall_incremented_le (<[c := Done]> p)) as Hle.
      rewrite length_insert, (live_stages _ _ _ Hlive) in Hle.
      pose proof (live_bound _ _ _ Hlive) as Hbound.
      assert (Hk : trunc32 (FinishedCallsNum (object s) + 1)
                   = Z.of_nat (incremented (<[c := Done]> p)))
        by (unfold trunc32; rewrite (live_count _ _ _ Hlive), Z.mod_small; lia).
      unfold compare in Hperf. cbn [FinishedCallsNum TotalCallsNum Data calls] in Hperf.
      destruct (Z.eqb_spec (trunc32 (FinishedCallsNum (object s) + 1)) (Z.of_nat n))
        as [Hall|Hmore].
      * assert (Hfull : incremented (<[c := Done]> p) = length (<[c := Done]> p))
          by (rewrite length_insert, (live_stages _ _ _ Hlive); lia).
        exists [Increment c], es, (Data (object s)). eexists _, _.
        split; [reflexivity|]. split.
        { simpl. rewrite Hperf, Hall, (live_total _ _ _ Hlive),
            (live_calls _ _ _ Hlive). reflexivity. }
        split; [exact (live_data _ _ _ Hlive)|].
        split; [reflexivity|].
        split; [|split; [exact (MultiCall_followAll_reads es _ _ Hfull Hfollow)|]].
        -- intros c' v' Hin. apply elem_of_cons in Hin as [Heq|Hin]; [discriminate|].
           destruct (MultiCall_followAll_reads es _ _ Hfull Hfollow _ Hin); discriminate.
        -- intros read Hnone _ _.
           rewrite (MultiCall_stages_done _ Hfull) in Hfollow.
           ++ exact (MultiCall_followAll_done _ _ _ Hfollow).
           ++ intros c' H. stage_at c' c H; [discriminate | now apply (Hnone c')].
      * destruct (IH _ _ (MultiCall_live_increment_second n s p c Hlive Hc Hmore) Hfollow)
          as (done & rest & data & cnt & tot & -> & Hrun & Hlen & Hkeep & Hwrites
              & Hreads & Hfirst).
        exists (Increment c :: done), rest, data, cnt, tot.
        split; [reflexivity|]. split; [simpl; rewrite Hperf; exact Hrun|].
        split; [exact Hlen|].
        simpl in Hkeep.
        split; [|split; [|split; [exact Hreads|]]].
        -- intros c' x Hc' Hx.
           destruct (decide (c' = c)) as [->|Hne].
           ++ apply (Hkeep c Done); [|discriminate].
              apply list_lookup_insert_eq. eapply lookup_lt_Some; eassumption.
           ++ apply (Hkeep c' x); [|exact Hx]. rewrite list_lookup_insert_ne; auto.
        -- intros c' v' Hin. apply elem_of_cons in Hin as [Heq|Hin];
             [discriminate | now apply Hwrites].
        -- intros read Hnone Hread Hrf. simpl in Hrf.
           apply andb_true_iff in Hrf as [_ Hrf].
           apply (Hfirst read); [| |exact Hrf].
           ++ intros c' H. stage_at c' c H; [discriminate | now apply (Hnone c')].
           ++ intros c' Hin. destruct (decide (c' = c)) as [->|Hne].
              ** right. apply list_lookup_insert_eq. eapply lookup_lt_Some; eassumption.
              ** rewrite list_lookup_insert_ne by auto. auto.
    + (* the read, before the increment *)
      assert (Hperf : perform s (Read c)
                      = Some (mkCalling (object s) (counted s)
                                (<[c := TotalCallsNum (object s)]> (totals s)))).
      { unfold perform. rewrite (live_deleted _ _ _ Hlive).
        now rewrite (live_uncounted _ _ _ Hlive c Stored Hc eq_refl). }
      destruct (IH _ _ (MultiCall_live_read_first n s p c Hlive Hc) Hfollow)
        as (done & rest & data & cnt & tot & -> & Hrun & Hlen & Hkeep & Hwrites
            & Hreads & Hfirst).
      exists (Read c :: done), rest, data, cnt, tot.
      split; [reflexivity|]. split; [simpl; rewrite Hperf; exact Hrun|].
      split; [exact Hlen|].
      simpl in Hkeep.
      split; [|split; [|split; [exact Hreads|]]].
      * intros c' x Hc' Hx.
        destruct (decide (c' = c)) as [->|Hne].
        -- apply (Hkeep c Loaded); [|discriminate].
           apply list_lookup_insert_eq. eapply lookup_lt_Some; eassumption.
        -- apply (Hkeep c' x); [|exact Hx]. rewrite list_lookup_insert_ne; auto.
      * intros c' v' Hin. apply elem_of_cons in Hin as [Heq|Hin];
          [discriminate | now apply Hwrites].
      * intros read Hnone Hread Hrf. simpl in Hrf.
        apply (Hfirst (c :: read)); [| |exact Hrf].
        -- intros c' H. stage_at c' c H; [discriminate | now apply (Hnone c')].
        -- intros c' Hin. destruct (decide (c' = c)) as [->|Hne].
           ++ left. apply list_lookup_insert_eq. eapply lookup_lt_Some; eassumption.
           ++ rewrite list_lookup_insert_ne by auto.
              apply elem_of_cons in Hin as [?|Hin]; [congruence | auto].
    + (* the read, after the increment *)
      destruct (live_counted _ _ _ Hlive c Hc) as (k & Hk & Hkle).
      assert (Hperf : perform s (Read c)
                      = Some (mkCalling (compare (object s) k (Z.of_nat n))
                                (counted s)
                                (<[c := TotalCallsNum (object s)]> (totals s)))).
      { unfold perform. rewrite (live_deleted _ _ _ Hlive), Hk.
        now rewrite (live_total _ _ _ Hlive). }
      unfold compare in Hperf.
      pose proof (MultiCall_incremented_le p) as Hle.
      rewrite (live_stages _ _ _ Hlive) in Hle.
      pose proof (MultiCall_incremented_insert p c Counted Done Hc) as Hins. simpl in Hins.
      destruct (Z.eqb_spec k (Z.of_nat n)) as [Hall|Hmore].
      * assert (Hfull : incremented (<[c := Done]> p) = length (<[c := Done]> p))
          by (rewrite length_insert, (live_stages _ _ _ Hlive); lia).
        exists [Read c], es, (Data (object s)). eexists _, _.
        split; [reflexivity|]. split.
        { simpl. rewrite Hperf, (live_calls _ _ _ Hlive), (live_count _ _ _ Hlive),
            (live_total _ _ _ Hlive).
          replace (incremented p) with n by lia. reflexivity. }
        split; [exact (live_data _ _ _ Hlive)|].
        split; [reflexivity|].
        split; [|split; [exact (MultiCall_followAll_reads es _ _ Hfull Hfollow)|]].
        -- intros c' v' Hin. apply elem_of_cons in Hin as [Heq|Hin]; [discriminate|].
           destruct (MultiCall_followAll_reads es _ _ Hfull Hfollow _ Hin); discriminate.
        -- intros read Hnone _ _. now destruct (Hnone c).
      * destruct (IH _ _ (MultiCall_live_read_second n s p c k Hlive Hc Hk Hmore) Hfollow)
          as (done & rest & data & cnt & tot & -> & Hrun & Hlen & Hkeep & Hwrites
              & Hreads & Hfirst).
        exists (Read c :: done), rest, data, cnt, tot.
        split; [reflexivity|]. split; [simpl; rewrite Hperf; exact Hrun|].
        split; [exact Hlen|].
        simpl in Hkeep.
        split; [|split; [|split; [exact Hreads|]]].
        -- intros c' x Hc' Hx.
           destruct (decide (c' = c)) as [->|Hne].
           ++ apply (Hkeep c Done); [|discriminate].
              apply list_lookup_insert_eq. eapply lookup_lt_Some; eassumption.
           ++ apply (Hkeep c' x); [|exact Hx]. rewrite list_lookup_insert_ne; auto.
        -- intros c' v' Hin. apply elem_of_cons in Hin as [Heq|Hin];
             [discriminate | now apply Hwrites].
        -- intros read Hnone _ _. now destruct (Hnone c).
Qed.

Lemma MultiCall_live_start (d : T) (n : nat) :
  (0 < n)%nat -> Z.of_nat n < 2 ^ 32 ->
  live n (start d (Z.of_nat n)) (replicate n Idle).
Proof.
  intros Hpos Hbound.
  assert (Htrunc : trunc32 (Z.of_nat n) = Z.of_nat n)
    by (unfold trunc32; apply Z.mod_small; lia).
  split; unfold start, create; simpl;
    rewrite ?Htrunc, ?Nat2Z.id, ?length_replicate, ?MultiCall_incremented_idle; auto.
  - intros c H. apply lookup_replicate in H as [[=] _].
  - intros c H. apply lookup_replicate in H as [[=] _].
  - lia.
Qed.

Lemma MultiCall_run_deleted (m : t T) (es : list (event T)) (m' : t T) :
  deleted m = true -> run m es = Some m' -> es = [] /\ m' = m.
Proof.
  intros Hdel. destruct es as [|e es]; simpl.
  - now intros [= <-].
  - unfold step. rewrite Hdel. discriminate.
Qed.

Lemma MultiCall_run_counts (n : nat) (es : list (event T)) :
  forall (m m' : t T) (k : nat),
    deleted m = false -> calls m = [] ->
    FinishedCallsNum m = Z.of_nat k -> (k < n)%nat ->
    TotalCallsNum m = Z.of_nat n -> Z.of_nat n < 2 ^ 32 ->
    run m es = Some m' ->
    (calls m' = [] /\ deleted m' = false /\ (k + countFinish es < n)%nat
     /\ FinishedCallsNum m' = Z.of_nat (k + countFinish es))
    \/ (exists data, calls m' = [(data, Z.of_nat n)] /\ deleted m' = true
                     /\ (k + countFinish es)%nat = n).
Proof.
  induction es as [|e es IH]; intros m m' k Hdel Hcalls Hfin Hk Htotal Hbound; simpl.
  - intros [= <-]. left. rewrite Nat.add_0_r. auto.
  - unfold step. rewrite Hdel.
    destruct e as [c v|c].
    + destruct (c <? length (Data m))%nat; [|discriminate].
      intros Hrun. eapply IH in Hrun; eauto.
    + assert (Hn : trunc32 (FinishedCallsNum m + 1) = Z.of_nat (S k))
        by (unfold trunc32; rewrite Z.mod_small; lia).
      rewrite Hn, Htotal.
      destruct (Z.eqb_spec (Z.of_nat (S k)) (Z.of_nat n)) as [Hall|Hmore].
      * intros Hrun. apply MultiCall_run_deleted in Hrun as [-> ->]; [|reflexivity].
        right. exists (Data m). simpl. rewrite Hcalls. simpl.
        split; [reflexivity|]. split; [reflexivity|]. lia.
      * intros Hrun. eapply (IH _ _ (S k)) in Hrun; simpl; eauto; [|lia].
        replace (k + S (countFinish es))%nat with (S k + countFinish es)%nat by lia.
        exact Hrun.
Qed.

End MultiCallProperties.

(** X15. Let a [MultiCall] be made for [n > 0] calls and each of its [n]
    callbacks be called exactly once, their accesses to the object (the
    store, the atomic increment, the read of [TotalCallsNum]) interleaved
    in any way, each callback incrementing and reading in either order.
    Then [MainCallback] is called exactly once, by the access that gives a
    callback the count [n] and the total to compare it with; it gets
    [TotalCallsNum] as size and an array that holds at every index the
    value delivered to the callback of that index, and that access deletes
    the object.  The accesses left over then are reads of [TotalCallsNum]
    by callbacks that incremented before they read, and each of them
    touches the deleted object; none is left when every callback reads
    before it increments. *)
Theorem MultiCall_exactly_once {T : Type} (d : T) (n : nat)
    (es : list (MultiCall.access T)) :
  (0 < n)%nat -> Z.of_nat n < 2 ^ 32 ->
  MultiCall.eachOnce n es ->
  exists done rest data cnt tot,
    es = done ++ rest
    /\ MultiCall.performAll (MultiCall.start d (Z.of_nat n)) done
       = Some (MultiCall.mkCalling
                 (MultiCall.mk data (Z.of_nat n) (Z.of_nat n)
                    [(data, Z.of_nat n)] true) cnt tot)
    /\ length data = n
    /\ (forall c v, MultiCall.Write c v ∈ es -> data !! c = Some v)
    /\ (forall c, (c < n)%nat ->
                  exists v, MultiCall.Write c v ∈ es /\ data !! c = Some v)
    /\ (forall e, e ∈ rest -> exists c, e = MultiCall.Read c)
    /\ (rest <> [] ->
        MultiCall.performAll (MultiCall.start d (Z.of_nat n)) es = None)
    /\ (MultiCall.readsFirst [] es = true -> rest = []).
Proof.
  intros Hpos Hbound Honce. unfold MultiCall.eachOnce in Honce.
  destruct (MultiCall_performAll_eachOnce n es _ _
              (MultiCall_live_start d n Hpos Hbound) Honce)
    as (done & rest & data & cnt & tot & Hes & Hrun & Hlen & _ & Hwrites
        & Hreads & Hfirst).
  exists done, rest, data, cnt, tot.
  split; [exact Hes|]. split; [exact Hrun|]. split; [exact Hlen|].
  split; [exact Hwrites|]. split; [|split; [exact Hreads|split]].
  - intros c Hc.
    destruct (MultiCall_followAll_write es _ _ c Honce) as [v Hv].
    + now apply lookup_replicate_2.
    + now apply lookup_replicate_2.
    + exists v. auto.
  - intros Hrest. rewrite Hes, MultiCall_performAll_app, Hrun.
    destruct rest as [|e rest]; [congruence | reflexivity].
  - intros Hrf. apply (Hfirst []); [| |exact Hrf].
    + intros c H. apply lookup_replicate in H as [[=] _].
    + intros c H. now apply elem_of_nil in H.
Qed.

Lemma MultiCall_exactly_once_witness :
  exists done rest data cnt tot,
    Scenarios.twoCalls = done ++ rest
    /\ MultiCall.performAll (MultiCall.start 0%nat (Z.of_nat 2)) done
       = Some (MultiCall.mkCalling
                 (MultiCall.mk data (Z.of_nat 2) (Z.of_nat 2)
                    [(data, Z.of_nat 2)] true) cnt tot)
    /\ length data = 2%nat
    /\ (forall c v, MultiCall.Write c v ∈ Scenarios.twoCalls -> data !! c = Some v)
    /\ (forall c, (c < 2)%nat ->
                  exists v, MultiCall.Write c v ∈ Scenarios.twoCalls
                            /\ data !! c = Some v)
    /\ (forall e, e ∈ rest -> exists c, e = MultiCall.Read c)
    /\ (rest <> [] ->
        MultiCall.performAll (MultiCall.start 0%nat (Z.of_nat 2))
          Scenarios.twoCalls = None)
    /\ (MultiCall.readsFirst [] Scenarios.twoCalls = true -> rest = []).
Proof.
  apply (MultiCall_exactly_once 0%nat 2 Scenarios.twoCalls).
  - lia.
  - simpl. lia.
  - reflexivity.
Defined.

(** Two callbacks that both increment before they read: when the one with
    the full count reads first, it calls [MainCallback] and deletes the
    object, and the read of the other touches the deleted object. *)
Lemma MultiCall_read_after_delete :
  MultiCall.eachOnce 2 Scenarios.lateRead
  /\ MultiCall.performAll (MultiCall.start 0%nat 2) Scenarios.lateRead = None
  /\ option_map (fun s => (MultiCall.calls (MultiCall.object s),
                           MultiCall.deleted (MultiCall.object s)))
       (MultiCall.performAll (MultiCall.start 0%nat 2)
          (take 5 Scenarios.lateRead))
     = Some ([([5%nat; 7%nat], 2)], true).
Proof. split; [reflexivity | split; vm_compute; reflexivity]. Qed.

(** A [MultiCall] made for no call at all has no callback to run:
    [MainCallback] is never called and the object is never deleted. *)
Lemma MultiCall_no_callback {T : Type} (d : T) (es : list (MultiCall.access T)) :
  MultiCall.eachOnce 0 es ->
  es = []
  /\ MultiCall.calls (MultiCall.create d 0) = []
  /\ MultiCall.deleted (MultiCall.create d 0) = false.
Proof.
  intros Honce. split; [|split; reflexivity].
  exact (MultiCall_followAll_done 0 es _ Honce).
Qed.

(** X16. Whatever the callbacks of a [MultiCall] are called with, in
    whatever order and number: as long as no step touches the deleted
    object, [MainCallback] has been called at most once, namely by the
    step that brings the counter to [TotalCallsNum], and that step deletes
    the object; before it, the counter is the number of increments. *)
Theorem MultiCall_at_most_once {T : Type} (d : T) (n : nat)
    (es : list (MultiCall.event T)) (m : MultiCall.t T) :
  (0 < n)%nat -> Z.of_nat n < 2 ^ 32 ->
  MultiCall.run (MultiCall.create d (Z.of_nat n)) es = Some m ->
  (MultiCall.calls m = [] /\ MultiCall.deleted m = false
   /\ (MultiCall.countFinish es < n)%nat
   /\ MultiCall.FinishedCallsNum m = Z.of_nat (MultiCall.countFinish es))
  \/ (exists data,
         MultiCall.calls m = [(data, Z.of_nat n)] /\ MultiCall.deleted m = true
         /\ MultiCall.countFinish es = n).
Proof.
  intros Hpos Hbound Hrun.
  assert (Htrunc : trunc32 (Z.of_nat n) = Z.of_nat n)
    by (unfold trunc32; apply Z.mod_small; lia).
  apply (MultiCall_run_counts n es _ _ O) in Hrun; auto.
Qed.

Lemma MultiCall_at_most_once_witness :
  (MultiCall.calls Scenarios.afterFirstCall = []
   /\ MultiCall.deleted Scenarios.afterFirstCall = false
   /\ (MultiCall.countFinish Scenarios.firstCall < 2)%nat
   /\ MultiCall.FinishedCallsNum Scenarios.afterFirstCall
      = Z.of_nat (MultiCall.countFinish Scenarios.firstCall))
  \/ (exists data,
         MultiCall.calls Scenarios.afterFirstCall = [(data, Z.of_nat 2)]
         /\ MultiCall.deleted Scenarios.afterFirstCall = true
         /\ MultiCall.countFinish Scenarios.firstCall = 2%nat).
Proof.
  apply (MultiCall_at_most_once 0%nat 2 Scenarios.firstCall
           Scenarios.afterFirstCall).
  - lia.
  - simpl. lia.
  - reflexivity.
Defined.
